(** * Reaction batching and lobby coordination of jitsi-meet, verified

    A shallow embedding of
    - [react/features/reactions/middleware.js] (the reactions middleware and
      [_onMuteReactionsCommand]),
    - the lobby action creators and thunks (the second half of
      [react/features/speaker-stats/components/SpeakerStats.js]),
    - [AbstractMessageRecipient] and the web [MessageRecipient] component,
    - the native [MessageRecipient] components, the [SpeakerStats] dialog (the
      first half of [SpeakerStats.js]) and [LobbyParticipantItem].

    JavaScript objects are records, [undefined] is [None], the redux store and
    the browser's timer table are threaded through a state-and-exception monad
    [Js], and every call that leaves the modelled code (a dispatched action, a
    method of the conference object, the logger) is appended to a trace. *)

From stdpp Require Import base decidable option list strings pretty gmap.
From Stdlib Require Import Lia.

(** ** Data model *)

(** A reaction is a key of the [REACTIONS] table. *)
Definition Reaction := string.
Definition TimerId := nat.
Definition Millis := nat.

(** A participant of [features/base/participants]. *)
Module Participant.
Record t := mk { id : string; name : string; email : string; local : bool; role : string }.
End Participant.

(** The participant objects carried by lobby messages and kept as chat
    recipients: [payload.attendee], [payload.moderator],
    [lobbyMessageRecipient], [privateMessageRecipient]. *)
Module Party.
Record t := mk { id : string; name : string }.
End Party.

(** An entry of [state['features/lobby'].knockingParticipants]. *)
Module Knocking.
Record t := mk { id : string; name : string; email : string; chattingWithModerator : option string }.
End Knocking.

(** The [JitsiConference] object. It belongs to the conferencing library; the
    model keeps the answers of the two getters the thunks read and records
    every other method call in the trace. *)
Module Conference.
Record t := mk { myLobbyUserId : option string; getRole : string }.
End Conference.

(** An element of the on-screen reaction queue. *)
Module QueueEntry.
Record t := mk { reaction : Reaction; uid : nat }.
End QueueEntry.

(** [state['features/reactions']] *)
Module Reactions.
Record t := mk {
  timeoutID : option TimerId;
  buffer : list Reaction;
  queue : list QueueEntry.t;
  notificationDisplayed : bool }.
End Reactions.

(** [state['features/base/conference']] *)
Module BaseConference.
Record t := mk {
  conference : option Conference.t;
  membersOnly : option Conference.t;
  startReactionsMuted : option bool }.
End BaseConference.

(** [state['features/base/settings']] *)
Module Settings.
Record t := mk { soundsReactions : bool }.
End Settings.

(** [state['features/lobby']] *)
Module Lobby.
Record t := mk {
  knocking : bool;
  knockingParticipants : list Knocking.t;
  lobbyEnabled : bool }.
End Lobby.

(** [state['features/chat']] *)
Module Chat.
Record t := mk {
  privateMessageRecipient : option Party.t;
  lobbyMessageRecipient : option Party.t;
  isLobbyChatActive : bool;
  challengeResponseRecipient : option Party.t;
  challengeResponseIsActive : bool }.
End Chat.

(** [state['features/base/config']] *)
Module Config.
Record t := mk { enableLobbyChat : option bool }.
End Config.

(** The redux state: the slices the modelled code reads or writes. *)
Record ReduxState := mkState {
  features_reactions : Reactions.t;
  features_base_conference : BaseConference.t;
  features_base_settings : Settings.t;
  features_base_participants : list Participant.t;
  features_lobby : Lobby.t;
  features_chat : Chat.t;
  features_base_config : Config.t }.

(** The handlers a notification offers ([customActionHandler]). *)
Inductive NotificationHandler :=
| DisableReactionSounds
| DisableReactionSoundsForAll.

(** The first argument of [showNotification]. *)
Record NotificationProps := mkNotification {
  titleKey : string;
  titleArguments : list (string * string);
  customActionNameKey : list string;
  customActionHandler : list NotificationHandler }.

(** The payload of a [LOBBY_CHAT_INITIALIZED] lobby message. *)
Record ChatInitialized := mkChatInitialized { moderator : Party.t; attendee : Party.t }.

(** Lobby messages, by their [type] field. *)
Inductive LobbyMessage :=
| LOBBY_CHAT_MESSAGE (message : string)
| LOBBY_CHAT_INITIALIZED (payload : ChatInitialized)
| MODERATOR_IN_CHAT_WITH_LEFT (moderatorId : string)
| OTHER_LOBBY_MESSAGE (type : string).

(** Redux actions. [ADD_REACTION_BUFFER] carries the two fields the middleware
    adds to the action object before it reaches the reducer. [PLAY_SOUND]
    holds the two parts of the sound id the middleware concatenates, and
    [SHOW_NOTIFICATION] the two arguments of [showNotification].
    [ON_LOBBY_CHAT_INITIALIZED], [LOBBY_MESSAGE_RECEIVED] and [SEND_MESSAGE]
    stand for thunks of the chat feature, which this development does not
    enter. *)
Inductive Action :=
| ADD_REACTION_BUFFER (reaction : Reaction) (buffer : option (list Reaction)) (timeoutID : option TimerId)
| FLUSH_REACTION_BUFFER
| SEND_REACTIONS
| PUSH_REACTIONS (reactions : list Reaction)
| SET_REACTION_QUEUE (value : list QueueEntry.t)
| SHOW_SOUNDS_NOTIFICATION
| ADD_REACTIONS_MESSAGE (message : string)
| PLAY_SOUND (soundId : string) (threshold : nat)
| SET_START_REACTIONS_MUTED (muted : bool)
| SETTINGS_UPDATED (soundsReactions : option bool)
| SHOW_NOTIFICATION (props : NotificationProps) (timeout : option string)
| CONFERENCE_WILL_JOIN (conference : option Conference.t)
| SET_KNOCKING_STATE (knocking : bool)
| SET_LOBBY_PARTICIPANT_CHAT_STATE (participant : Party.t) (moderator : Party.t)
| REMOVE_LOBBY_CHAT_WITH_MODERATOR (moderatorId : string)
| REMOVE_LOBBY_CHAT_PARTICIPANT (removeLobbyChatMessages : bool)
| ON_LOBBY_CHAT_INITIALIZED (payload : ChatInitialized)
| LOBBY_MESSAGE_RECEIVED (message : string) (participantId : string)
| SEND_MESSAGE (message : string)
| SET_PRIVATE_MESSAGE_RECIPIENT (participant : option Party.t)
| SET_CHALLENGE_RESPONSE_ACTIVE_STATE (active : bool).

(** Calls that leave the store: methods of the conference object, the timer
    functions of the host, the logger, analytics and the webhook. *)
Inductive Call :=
| sendEndpointMessage (name : string) (reactions : list Reaction) (timestamp : Millis)
| addCommandListener (name : string)
| lobbyApproveAccess (id : string)
| lobbyDenyAccess (id : string)
| joinLobby (name email : string)
| sendLobbyMessage (message : LobbyMessage) (target : option string)
| addLobbyMessageListener
| sendLocalParticipant
| sendReactionsWebhook (buffer : list Reaction)
| sendAnalytics (event : string)
| logger_warn (message : string)
| clearTimeout_ (id : option TimerId)
| setTimeout_ (id : TimerId) (delay : Millis).

Inductive Event :=
| Dispatched (a : Action)
| Called (c : Call).

(** ** The world and the [Js] monad *)

(** The store together with the host's pending timeouts (identifier and due
    time; the only callback the modelled code schedules is the flush), the
    clock, the two generators and the trace (oldest event first). *)
Record World := mkWorld {
  store : ReduxState;
  timers : list (TimerId * Millis);
  clock : Millis;
  nextTimerId : TimerId;
  nextUid : nat;
  trace : list Event }.

Inductive JsError :=
| TypeError (what : string).

Inductive Completion (A : Type) :=
| Normal (a : A)
| Throw (e : JsError).
Arguments Normal {A} a.
Arguments Throw {A} e.

Definition Js (A : Type) : Type := World -> Completion A * World.

#[global] Instance Js_ret : MRet Js := fun A a w => (Normal a, w).
#[global] Instance Js_bind : MBind Js := fun A B k m w =>
  match m w with
  | (Normal a, w') => k a w'
  | (Throw e, w') => (Throw e, w')
  end.

Definition throw {A} (e : JsError) : Js A := fun w => (Throw e, w).

(** Reading a property of a value that may be [undefined]. *)
Definition deref {A} (what : string) (o : option A) : Js A :=
  match o with
  | Some a => mret a
  | None => throw (TypeError what)
  end.

Definition getState : Js ReduxState := fun w => (Normal (store w), w).

Definition setStore (f : ReduxState -> ReduxState) : Js unit := fun w =>
  (Normal tt, mkWorld (f (store w)) (timers w) (clock w) (nextTimerId w) (nextUid w) (trace w)).

Definition emit (e : Event) : Js unit := fun w =>
  (Normal tt, mkWorld (store w) (timers w) (clock w) (nextTimerId w) (nextUid w) (trace w ++ [e])).

Definition call (c : Call) : Js unit := emit (Called c).

(** [Date.now()] *)
Definition Date_now : Js Millis := fun w => (Normal (clock w), w).

(** [setTimeout(callback, delay)]: a fresh identifier, due [delay] from now. *)
Definition setTimeout (delay : Millis) : Js TimerId := fun w =>
  let id := nextTimerId w in
  (Normal id,
   mkWorld (store w) (timers w ++ [(id, clock w + delay)]) (clock w) (S id) (nextUid w)
     (trace w ++ [Called (setTimeout_ id delay)])).

(** [clearTimeout(id)]: an identifier that is [undefined] or no longer pending
    cancels nothing. *)
Definition clearTimeout (id : option TimerId) : Js unit := fun w =>
  (Normal tt,
   mkWorld (store w) (filter (fun t => Some t.1 <> id) (timers w)) (clock w) (nextTimerId w)
     (nextUid w) (trace w ++ [Called (clearTimeout_ id)])).

Definition freshUid : Js nat := fun w =>
  (Normal (nextUid w),
   mkWorld (store w) (timers w) (clock w) (nextTimerId w) (S (nextUid w)) (trace w)).

(** [list.forEach(f)] *)
Fixpoint forEach {A} (l : list A) (f : A -> Js unit) : Js unit :=
  match l with
  | [] => mret tt
  | x :: l' => f x;; forEach l' f
  end.

(** What a finished computation left behind. *)
Definition outcome {A} (r : Completion A * World) : Completion A := r.1.
Definition world {A} (r : Completion A * World) : World := r.2.

(** ** Imported helpers

    Functions and constants the three files import from modules that are not
    part of this development. They are parameters: every theorem below holds
    for all of them. [displayReactionSoundsNotification] says whether
    [./actions] exports that action creator (the middleware tests it); the
    action it creates is [SHOW_SOUNDS_NOTIFICATION]. *)
Class Imports := {
  getParticipantById : ReduxState -> string -> option Participant.t;
  getParticipantCount : ReduxState -> nat;
  isLocalParticipantModerator : ReduxState -> bool;
  getLocalParticipant : ReduxState -> option Participant.t;
  getParticipantDisplayName : ReduxState -> string -> string;
  getCurrentConference : ReduxState -> option Conference.t;
  getDisabledSounds : ReduxState -> list string;
  getReactionMessageFromBuffer : list Reaction -> string;
  getReactionsSoundsThresholds : list Reaction -> list (Reaction * nat);
  REACTIONS_soundId : Reaction -> string;
  displayReactionSoundsNotification : bool;
  REACTION_SOUND : string;
  ENDPOINT_REACTION_NAME : string;
  MUTE_REACTIONS_COMMAND : string }.

(** [getKnockingParticipants] and [getLobbyEnabled] of [lobby/functions] are the
    two selectors of the lobby slice. *)
Definition getKnockingParticipants (state : ReduxState) : list Knocking.t :=
  Lobby.knockingParticipants (features_lobby state).
Definition getLobbyEnabled (state : ReduxState) : bool :=
  Lobby.lobbyEnabled (features_lobby state).

(** ** Reducers *)

Definition set_reactions (f : Reactions.t -> Reactions.t) (st : ReduxState) : ReduxState :=
  mkState (f (features_reactions st)) (features_base_conference st) (features_base_settings st)
    (features_base_participants st) (features_lobby st) (features_chat st) (features_base_config st).
Definition set_base_conference (f : BaseConference.t -> BaseConference.t) (st : ReduxState) : ReduxState :=
  mkState (features_reactions st) (f (features_base_conference st)) (features_base_settings st)
    (features_base_participants st) (features_lobby st) (features_chat st) (features_base_config st).
Definition set_settings (f : Settings.t -> Settings.t) (st : ReduxState) : ReduxState :=
  mkState (features_reactions st) (features_base_conference st) (f (features_base_settings st))
    (features_base_participants st) (features_lobby st) (features_chat st) (features_base_config st).
Definition set_lobby (f : Lobby.t -> Lobby.t) (st : ReduxState) : ReduxState :=
  mkState (features_reactions st) (features_base_conference st) (features_base_settings st)
    (features_base_participants st) (f (features_lobby st)) (features_chat st) (features_base_config st).
Definition set_chat (f : Chat.t -> Chat.t) (st : ReduxState) : ReduxState :=
  mkState (features_reactions st) (features_base_conference st) (features_base_settings st)
    (features_base_participants st) (features_lobby st) (f (features_chat st)) (features_base_config st).

(** Modelled from the spec: the reducer of [features/reactions]
    ([reactions/reducer.js] is not among the sources). "ReactionBuffer: ordered
    sequence of Reaction, accumulated between flush cycles ... cleared
    atomically on flush; a single pending flush timer exists at any time":
    [ADD_REACTION_BUFFER] stores the buffer and the timer identifier the
    middleware put on the action, [FLUSH_REACTION_BUFFER] empties the buffer,
    [SET_REACTION_QUEUE] replaces the display queue, and the sounds
    notification is surfaced "once (idempotent per session)". *)
Definition reactions_reducer (action : Action) (s : Reactions.t) : Reactions.t :=
  match action with
  | ADD_REACTION_BUFFER _ (Some buffer) timeoutID =>
      Reactions.mk timeoutID buffer (Reactions.queue s) (Reactions.notificationDisplayed s)
  | FLUSH_REACTION_BUFFER =>
      Reactions.mk (Reactions.timeoutID s) [] (Reactions.queue s) (Reactions.notificationDisplayed s)
  | SET_REACTION_QUEUE value =>
      Reactions.mk (Reactions.timeoutID s) (Reactions.buffer s) value (Reactions.notificationDisplayed s)
  | SHOW_SOUNDS_NOTIFICATION =>
      Reactions.mk (Reactions.timeoutID s) (Reactions.buffer s) (Reactions.queue s) true
  | _ => s
  end.

(** Modelled from the spec: the two reducers behind "the paired update (mute
    flag + corresponding sound-setting toggle)"; [base/conference] and
    [base/settings] are not among the sources. *)
Definition base_conference_reducer (action : Action) (s : BaseConference.t) : BaseConference.t :=
  match action with
  | SET_START_REACTIONS_MUTED muted =>
      BaseConference.mk (BaseConference.conference s) (BaseConference.membersOnly s) (Some muted)
  | _ => s
  end.

Definition settings_reducer (action : Action) (s : Settings.t) : Settings.t :=
  match action with
  | SETTINGS_UPDATED (Some soundsReactions) => Settings.mk soundsReactions
  | _ => s
  end.

Definition setChattingWithModerator (m : option string) (p : Knocking.t) : Knocking.t :=
  Knocking.mk (Knocking.id p) (Knocking.name p) (Knocking.email p) m.

(** Modelled from the spec: the reducer of [features/lobby]
    ([lobby/reducer.js] is not among the sources). "CHAT_INITIALIZED: record the
    {moderator, attendee} pairing as active" sets the attendee's
    [chattingWithModerator]; "update bookkeeping to drop the stale pairing"
    clears it for whoever chatted with that moderator; the knocking set itself
    changes only on the network's participant notifications. *)
Definition lobby_reducer (action : Action) (s : Lobby.t) : Lobby.t :=
  match action with
  | SET_KNOCKING_STATE knocking =>
      Lobby.mk knocking (Lobby.knockingParticipants s) (Lobby.lobbyEnabled s)
  | SET_LOBBY_PARTICIPANT_CHAT_STATE participant moderator =>
      Lobby.mk (Lobby.knocking s)
        (map (fun p => if decide (Knocking.id p = Party.id participant)
                       then setChattingWithModerator (Some (Party.id moderator)) p else p)
             (Lobby.knockingParticipants s))
        (Lobby.lobbyEnabled s)
  | REMOVE_LOBBY_CHAT_WITH_MODERATOR moderatorId =>
      Lobby.mk (Lobby.knocking s)
        (map (fun p => if decide (Knocking.chattingWithModerator p = Some moderatorId)
                       then setChattingWithModerator None p else p)
             (Lobby.knockingParticipants s))
        (Lobby.lobbyEnabled s)
  | _ => s
  end.

(** Modelled from the spec: the part of the chat reducer behind "terminate
    that chat locally" ([chat/reducer.js] is not among the sources): the lobby
    chat recipient is dropped and the lobby chat is no longer active. *)
Definition chat_reducer (action : Action) (s : Chat.t) : Chat.t :=
  match action with
  | REMOVE_LOBBY_CHAT_PARTICIPANT _ =>
      Chat.mk (Chat.privateMessageRecipient s) None false
        (Chat.challengeResponseRecipient s) (Chat.challengeResponseIsActive s)
  | _ => s
  end.

(** The root reducer: each slice's reducer sees every action. *)
Definition reducer (action : Action) (st : ReduxState) : ReduxState :=
  mkState
    (reactions_reducer action (features_reactions st))
    (base_conference_reducer action (features_base_conference st))
    (settings_reducer action (features_base_settings st))
    (features_base_participants st)
    (lobby_reducer action (features_lobby st))
    (chat_reducer action (features_chat st))
    (features_base_config st).

(** [next(action)]: the rest of the middleware chain ends in the reducer. *)
Definition next (action : Action) : Js unit := setStore (reducer action).

(** Modelled from the spec: [getReactionsWithId] of [reactions/functions.any]
    (not among the sources): "buffer contents (each tagged with a freshly
    generated display id)". *)
Fixpoint getReactionsWithId (reactions : list Reaction) : Js (list QueueEntry.t) :=
  match reactions with
  | [] => mret []
  | reaction :: rest =>
      uid ← freshUid;
      entries ← getReactionsWithId rest;
      mret (QueueEntry.mk reaction uid :: entries)
  end.

(** ** reactions/middleware.js *)

Section Middleware.
Context `{Imports}.

(** [buffer.push(reaction)] on the array the store holds: the store sees the
    new element before any reducer runs. *)
Definition buffer_push (reaction : Reaction) : Js (list Reaction) := fun w =>
  let buffer := Reactions.buffer (features_reactions (store w)) ++ [reaction] in
  (Normal buffer,
   mkWorld
     (set_reactions (fun s => Reactions.mk (Reactions.timeoutID s) buffer (Reactions.queue s)
                                (Reactions.notificationDisplayed s)) (store w))
     (timers w) (clock w) (nextTimerId w) (nextUid w) (trace w)).

(** The [switch] of the middleware. It is given [store.dispatch] and returns
    the action object it hands to [next]. Cases [APP_WILL_MOUNT] and
    [APP_WILL_UNMOUNT] (sound registration) are outside the model. *)
Definition middleware (dispatch : Action -> Js unit) (action : Action) : Js Action :=
  match action with
  | ADD_REACTION_BUFFER reaction _ _ =>
      state ← getState;
      let timeoutID := Reactions.timeoutID (features_reactions state) in
      clearTimeout timeoutID;;
      buffer ← buffer_push reaction;
      id ← setTimeout 500;
      mret (ADD_REACTION_BUFFER reaction (Some buffer) (Some id))
  | CONFERENCE_WILL_JOIN conference =>
      _ ← deref "conference.addCommandListener" conference;
      call (addCommandListener MUTE_REACTIONS_COMMAND);;
      mret action
  | FLUSH_REACTION_BUFFER =>
      state ← getState;
      let buffer := Reactions.buffer (features_reactions state) in
      let participantCount := getParticipantCount state in
      (if decide (1 < participantCount) then dispatch SEND_REACTIONS else mret tt);;
      dispatch (ADD_REACTIONS_MESSAGE (getReactionMessageFromBuffer buffer));;
      dispatch (PUSH_REACTIONS buffer);;
      call (sendReactionsWebhook buffer);;
      mret action
  | PUSH_REACTIONS reactions =>
      state ← getState;
      let queue := Reactions.queue (features_reactions state) in
      let notificationDisplayed := Reactions.notificationDisplayed (features_reactions state) in
      let soundsReactions := Settings.soundsReactions (features_base_settings state) in
      let disabledSounds := getDisabledSounds state in
      (if negb notificationDisplayed && soundsReactions
          && negb (bool_decide (REACTION_SOUND ∈ disabledSounds))
          && displayReactionSoundsNotification
       then dispatch SHOW_SOUNDS_NOTIFICATION else mret tt);;
      (if soundsReactions
       then forEach (getReactionsSoundsThresholds reactions)
              (fun reaction => dispatch (PLAY_SOUND (REACTIONS_soundId reaction.1) reaction.2))
       else mret tt);;
      withId ← getReactionsWithId reactions;
      dispatch (SET_REACTION_QUEUE (queue ++ withId));;
      mret action
  | SEND_REACTIONS =>
      state ← getState;
      let buffer := Reactions.buffer (features_reactions state) in
      match BaseConference.conference (features_base_conference state) with
      | Some conference =>
          timestamp ← Date_now;
          call (sendEndpointMessage ENDPOINT_REACTION_NAME buffer timestamp)
      | None => mret tt
      end;;
      mret action
  | SETTINGS_UPDATED settings =>
      state ← getState;
      let soundsReactions := Settings.soundsReactions (features_base_settings state) in
      (if bool_decide (settings = Some false) && soundsReactions
       then call (sendAnalytics "createReactionSoundsDisabledEvent()") else mret tt);;
      mret action
  | SHOW_SOUNDS_NOTIFICATION =>
      state ← getState;
      let isModerator := isLocalParticipantModerator state in
      let customActions := ["notify.reactionSounds"]
        ++ (if isModerator then ["notify.reactionSoundsForAll"] else []) in
      let customFunctions := [DisableReactionSounds]
        ++ (if isModerator then [DisableReactionSoundsForAll] else []) in
      dispatch (SHOW_NOTIFICATION
        (mkNotification "toolbar.disableReactionSounds" [] customActions customFunctions)
        (Some "medium"));;
      mret action
  | _ => mret action
  end.

(** [store.dispatch]: the action is recorded, enters the middleware, whose
    [switch] may dispatch again, and then reaches the reducer. A flush
    dispatches a push, which dispatches the sounds notification, which
    dispatches a notification; nothing nests deeper. [dispatchN n] follows [n]
    such levels and treats what lies below as actions without a case;
    [dispatchN_enough] shows that three levels reach everything, so the four of
    [dispatch] lose nothing. *)
Fixpoint dispatchN (n : nat) (action : Action) : Js unit :=
  emit (Dispatched action);;
  match n with
  | 0 => next action
  | S n' => action' ← middleware (dispatchN n') action; next action'
  end.

Definition dispatch : Action -> Js unit := dispatchN 4.

(** The callback of the deferred flush: [() => dispatch(flushReactionBuffer())]. *)
Definition flushReactionBuffer : Action := FLUSH_REACTION_BUFFER.
Definition addReactionToBuffer (reaction : Reaction) : Action := ADD_REACTION_BUFFER reaction None None.

(** The attributes of a received command. *)
Record Attributes := mkAttributes { startReactionsMuted : option string }.

(** [_onMuteReactionsCommand(attributes = {}, id, store)] *)
Definition _onMuteReactionsCommand (attributes : Attributes) (id : option string) : Js unit :=
  state ← getState;
  match id with
  | None => mret tt
  | Some id =>
      let participantSendingCommand := getParticipantById state id in
      p ← deref "participantSendingCommand.local" participantSendingCommand;
      if Participant.local p then mret tt
      else if negb (bool_decide (Participant.role p = "moderator"))
      then call (logger_warn "Received mute-reactions command not from moderator")
      else
        let oldState := default false (BaseConference.startReactionsMuted (features_base_conference state)) in
        let newState := bool_decide (startReactionsMuted attributes = Some "true") in
        if negb (bool_decide (oldState = newState))
        then dispatch (SET_START_REACTIONS_MUTED newState);;
             dispatch (SETTINGS_UPDATED (Some (negb newState)))
        else mret tt
  end.

End Middleware.

(** ** Lobby actions (lobby/actions, second half of SpeakerStats.js) *)

(** What a thunk declared [async] hands back: an exception inside it does not
    reach the caller, it rejects the promise. *)
Inductive Promise :=
| Fulfilled
| Rejected (e : JsError).

Definition async (body : Js unit) : Js Promise := fun w =>
  match body w with
  | (Normal _, w') => (Normal Fulfilled, w')
  | (Throw e, w') => (Normal (Rejected e), w')
  end.

Section LobbyActions.
Context `{Imports}.

Definition setKnockingState (knocking : bool) : Action := SET_KNOCKING_STATE knocking.
Definition conferenceWillJoin (conference : option Conference.t) : Action := CONFERENCE_WILL_JOIN conference.
Definition removeLobbyChatParticipant (removeLobbyChatMessages : bool) : Action :=
  REMOVE_LOBBY_CHAT_PARTICIPANT removeLobbyChatMessages.
Definition showNotification (props : NotificationProps) : Action := SHOW_NOTIFICATION props None.

(** [setKnockingParticipantApproval(id, approved)] *)
Definition setKnockingParticipantApproval (id : string) (approved : bool) : Js Promise :=
  async (
    state ← getState;
    let conference := getCurrentConference state in
    match conference with
    | Some _ =>
        if approved then call (lobbyApproveAccess id) else call (lobbyDenyAccess id)
    | None => mret tt
    end).

(** [admitMultiple(participants)]: a plain thunk; [conference] is used
    unguarded inside the loop. *)
Definition admitMultiple (participants : list Knocking.t) : Js unit :=
  state ← getState;
  let conference := getCurrentConference state in
  forEach participants (fun p =>
    _ ← deref "conference.lobbyApproveAccess" conference;
    call (lobbyApproveAccess (Knocking.id p))).

(** [approveKnockingParticipant(id)]: [conference && conference.lobbyApproveAccess(id)] *)
Definition approveKnockingParticipant (id : string) : Js unit :=
  state ← getState;
  let conference := getCurrentConference state in
  match conference with
  | Some _ => call (lobbyApproveAccess id)
  | None => mret tt
  end.

(** [rejectKnockingParticipant(id)]: [conference && conference.lobbyDenyAccess(id)] *)
Definition rejectKnockingParticipant (id : string) : Js unit :=
  state ← getState;
  let conference := getCurrentConference state in
  match conference with
  | Some _ => call (lobbyDenyAccess id)
  | None => mret tt
  end.

(** [handleLobbyChatInitialized(payload)]. [state] is read once, before the
    two dispatches. *)
Definition handleLobbyChatInitialized (payload : ChatInitialized) : Js Promise :=
  async (
    state ← getState;
    let conference := getCurrentConference state in
    c ← deref "conference.myLobbyUserId" conference;
    let id := Conference.myLobbyUserId c in
    dispatch (SET_LOBBY_PARTICIPANT_CHAT_STATE (attendee payload) (moderator payload));;
    dispatch (ON_LOBBY_CHAT_INITIALIZED payload);;
    let attendeeIsKnocking :=
      existsb (fun p => bool_decide (Knocking.id p = Party.id (attendee payload)))
        (getKnockingParticipants state) in
    if attendeeIsKnocking
       && bool_decide (Conference.getRole c = "moderator")
       && negb (bool_decide (Some (Party.id (moderator payload)) = id))
    then dispatch (showNotification
           (mkNotification "lobby.lobbyChatStartedNotification"
              [("moderator", Party.name (moderator payload));
               ("attendee", Party.name (attendee payload))] [] []))
    else mret tt).

(** [updateLobbyParticipantOnModeratorLeave(participantId)]. The message sent
    carries [participantToNotify.chattingWithModerator], which [find] has just
    compared with [participantId]. *)
Definition updateLobbyParticipantOnModeratorLeave (participantId : string) : Js Promise :=
  async (
    state ← getState;
    let knocking := Lobby.knocking (features_lobby state) in
    let knockingParticipants := Lobby.knockingParticipants (features_lobby state) in
    let lobbyMessageRecipient := Chat.lobbyMessageRecipient (features_chat state) in
    let conference := BaseConference.conference (features_base_conference state) in
    if knocking
       && from_option (fun r => bool_decide (Party.id r = participantId)) false lobbyMessageRecipient
    then dispatch (removeLobbyChatParticipant true)
    else if negb knocking then
      let participantToNotify :=
        find (fun p => bool_decide (Knocking.chattingWithModerator p = Some participantId))
          knockingParticipants in
      match participantToNotify with
      | Some p =>
          _ ← deref "conference.sendLobbyMessage" conference;
          call (sendLobbyMessage
                  (MODERATOR_IN_CHAT_WITH_LEFT
                     (default participantId (Knocking.chattingWithModerator p)))
                  (Some (Knocking.id p)))
      | None => mret tt
      end;;
      dispatch (REMOVE_LOBBY_CHAT_WITH_MODERATOR participantId)
    else mret tt).

(** The callback [setLobbyMessageListener] registers: a switch on
    [message.type]. *)
Definition lobbyMessageListener (message : LobbyMessage) (participantId : string) : Js unit :=
  match message with
  | LOBBY_CHAT_MESSAGE text => dispatch (LOBBY_MESSAGE_RECEIVED text participantId)
  | LOBBY_CHAT_INITIALIZED payload => _ ← handleLobbyChatInitialized payload; mret tt
  | MODERATOR_IN_CHAT_WITH_LEFT moderatorId =>
      _ ← updateLobbyParticipantOnModeratorLeave moderatorId; mret tt
  | OTHER_LOBBY_MESSAGE _ => mret tt
  end.

(** [setLobbyMessageListener()]: [enableLobbyChat] defaults to [true]. *)
Definition setLobbyMessageListener : Js Promise :=
  async (
    state ← getState;
    let conference := getCurrentConference state in
    let enableLobbyChat := default true (Config.enableLobbyChat (features_base_config state)) in
    if negb enableLobbyChat then mret tt
    else
      _ ← deref "conference.addLobbyMessageListener" conference;
      call addLobbyMessageListener).

(** [maybeSetLobbyChatMessageListener()] *)
Definition maybeSetLobbyChatMessageListener : Js Promise :=
  async (
    state ← getState;
    let lobbyEnabled := getLobbyEnabled state in
    if lobbyEnabled then _ ← setLobbyMessageListener; mret tt else mret tt).

(** [startKnocking()] *)
Definition startKnocking : Js Promise :=
  async (
    state ← getState;
    let membersOnly := BaseConference.membersOnly (features_base_conference state) in
    let localParticipant := getLocalParticipant state in
    dispatch (conferenceWillJoin membersOnly);;
    call sendLocalParticipant;;
    _ ← deref "membersOnly.joinLobby" membersOnly;
    p ← deref "localParticipant.name" localParticipant;
    call (joinLobby (Participant.name p) (Participant.email p));;
    _ ← setLobbyMessageListener;
    dispatch (setKnockingState true)).

End LobbyActions.

(** ** AbstractMessageRecipient and the web MessageRecipient *)

Record Props := mkProps {
  _privateMessageRecipient : option string;
  _challengeResponseIsActive : bool;
  _challengeResponseRecipient : option string;
  _visible : bool }.

(** The two callbacks of [_mapDispatchToProps]. *)
Inductive Handler :=
| _onRemovePrivateMessageRecipient
| _onHideChallengeResponseRecipient.

Definition _mapDispatchToProps (h : Handler) : Action :=
  match h with
  | _onRemovePrivateMessageRecipient => SET_PRIVATE_MESSAGE_RECIPIENT None
  | _onHideChallengeResponseRecipient => SET_CHALLENGE_RESPONSE_ACTIVE_STATE false
  end.

Section MessageRecipient.
Context `{Imports}.

Definition _mapStateToProps (state : ReduxState) : Props :=
  let privateMessageRecipient := Chat.privateMessageRecipient (features_chat state) in
  let challengeResponseRecipient := Chat.challengeResponseRecipient (features_chat state) in
  let challengeResponseIsActive := Chat.challengeResponseIsActive (features_chat state) in
  mkProps
    (match privateMessageRecipient with
     | Some r => Some (getParticipantDisplayName state (Party.id r))
     | None => None
     end)
    challengeResponseIsActive
    (if challengeResponseIsActive
     then match challengeResponseRecipient with
          | Some r => Some (Party.name r)
          | None => None
          end
     else None)
    (if challengeResponseIsActive then isLocalParticipantModerator state else true).

End MessageRecipient.

(** JavaScript truthiness of a string that may be [undefined]. *)
Definition truthy (s : option string) : bool :=
  match s with
  | Some s => negb (bool_decide (s = ""))
  | None => false
  end.

(** The element [render] returns: the class of the outer [div], the i18n key
    and the [recipient] argument of the label, and the [onClick] handler of the
    close button. *)
Record Element := mkElement {
  className : string;
  labelKey : string;
  recipient : option string;
  onClick : Handler }.

(** [MessageRecipient.render()]; [None] is the [null] it returns to render
    nothing. *)
Definition render (props : Props) : option Element :=
  if (negb (truthy (_privateMessageRecipient props)) && negb (_challengeResponseIsActive props))
     || negb (_visible props)
  then None
  else
    let active := _challengeResponseIsActive props in
    Some (mkElement
      (if active then "challenge-response-recipient" else "")
      (if active then "chat.challengeResponseMessageTo" else "chat.messageTo")
      (if active then _challengeResponseRecipient props else _privateMessageRecipient props)
      (if active then _onHideChallengeResponseRecipient else _onRemovePrivateMessageRecipient)).

(** [_onKeyPress(e)]: the handler a key press on the close button invokes.
    Both callbacks are always present ([_mapDispatchToProps] defines them). *)
Definition _onKeyPress (props : Props) (key : string) : option Handler :=
  if bool_decide (key = " ") || bool_decide (key = "Enter")
  then Some (if _challengeResponseIsActive props
             then _onHideChallengeResponseRecipient else _onRemovePrivateMessageRecipient)
  else None.

(** ** The host's timers

    The JavaScript host runs one callback at a time: a timeout fires when the
    clock reaches its due time, earliest first, and leaves the table before its
    callback runs. The only callback the middleware schedules is the flush,
    which neither sets nor clears a timeout, so the timeouts due by a given
    time are known before the first of them fires. *)

Section Host.
Context `{Imports}.

Fixpoint insert_by_due (x : TimerId * Millis) (l : list (TimerId * Millis)) : list (TimerId * Millis) :=
  match l with
  | [] => [x]
  | y :: l' => if decide (x.2 <= y.2) then x :: y :: l' else y :: insert_by_due x l'
  end.

Definition by_due (l : list (TimerId * Millis)) : list (TimerId * Millis) :=
  foldr insert_by_due [] l.

Definition setClock (t : Millis) : Js unit := fun w =>
  (Normal tt, mkWorld (store w) (timers w) (clock w `max` t) (nextTimerId w) (nextUid w) (trace w)).

Definition removeTimer (id : TimerId) : Js unit := fun w =>
  (Normal tt,
   mkWorld (store w) (filter (fun t => t.1 <> id) (timers w)) (clock w) (nextTimerId w) (nextUid w)
     (trace w)).

(** One timeout fires, unless it was cleared in the meantime. *)
Definition fire (t : TimerId * Millis) (w : World) : World :=
  if bool_decide (t ∈ timers w)
  then world ((setClock t.2;; removeTimer t.1;; dispatch flushReactionBuffer) w)
  else w.

(** Time passes until [t]: every timeout due by then fires, in order. *)
Definition advance (t : Millis) (w : World) : World :=
  let due := by_due (filter (fun x => x.2 <= t) (timers w)) in
  world (setClock t (foldl (fun w x => fire x w) w due)).

(** The user reacts with [reaction] at time [t]: [dispatch(addReactionToBuffer(reaction))]. *)
Definition addReaction (t : Millis) (reaction : Reaction) (w : World) : World :=
  world (dispatch (addReactionToBuffer reaction) (advance t w)).

Definition addReactions (events : list (Millis * Reaction)) (w : World) : World :=
  foldl (fun w e => addReaction e.1 e.2 w) w events.

End Host.

(** ** Observations on a trace *)

Definition isFlush (e : Event) : option unit :=
  match e with Dispatched FLUSH_REACTION_BUFFER => Some tt | _ => None end.
Definition isPush (e : Event) : option (list Reaction) :=
  match e with Dispatched (PUSH_REACTIONS reactions) => Some reactions | _ => None end.
Definition isSendRequest (e : Event) : option unit :=
  match e with Dispatched SEND_REACTIONS => Some tt | _ => None end.
Definition isEndpointMessage (e : Event) : option (list Reaction) :=
  match e with Called (sendEndpointMessage _ reactions _) => Some reactions | _ => None end.
Definition isChatAppend (e : Event) : option string :=
  match e with Dispatched (ADD_REACTIONS_MESSAGE message) => Some message | _ => None end.
Definition isWebhook (e : Event) : option (list Reaction) :=
  match e with Called (sendReactionsWebhook buffer) => Some buffer | _ => None end.
Definition isNotification (e : Event) : option NotificationProps :=
  match e with Dispatched (SHOW_NOTIFICATION props _) => Some props | _ => None end.
Definition isCall (e : Event) : option Call :=
  match e with Called c => Some c | _ => None end.
Definition isAction (e : Event) : option Action :=
  match e with Dispatched a => Some a | _ => None end.

(** How often the flush ran; the batches handed to the display queue, the
    requests to send, the endpoint messages that left, the chat messages
    appended, in order. *)
Definition flushCount (tr : list Event) : nat := length (omap isFlush tr).
Definition pushedBatches (tr : list Event) : list (list Reaction) := omap isPush tr.
Definition sendRequests (tr : list Event) : list unit := omap isSendRequest tr.
Definition endpointMessages (tr : list Event) : list (list Reaction) := omap isEndpointMessage tr.
Definition chatAppends (tr : list Event) : list string := omap isChatAppend tr.
Definition webhookReports (tr : list Event) : list (list Reaction) := omap isWebhook tr.
Definition notifications (tr : list Event) : list NotificationProps := omap isNotification tr.
Definition calls (tr : list Event) : list Call := omap isCall tr.
Definition actions (tr : list Event) : list Action := omap isAction tr.

(** The events a computation adds to the trace of the world it starts in. *)
Definition events_of {A} (m : Js A) (w : World) : list Event :=
  drop (length (trace w)) (trace (world (m w))).

(** ** Sample data

    One implementation of the imported helpers, to run the model on concrete
    states: participants are looked up in the participants slice, the current
    conference is the joined one or else the members-only one, no sound is
    disabled, and the chat summary lists the reactions. *)
Definition sampleImports : Imports := {|
  getParticipantById st id :=
    find (fun p => bool_decide (Participant.id p = id)) (features_base_participants st);
  getParticipantCount st := length (features_base_participants st);
  isLocalParticipantModerator st :=
    from_option (fun p => bool_decide (Participant.role p = "moderator")) false
      (find Participant.local (features_base_participants st));
  getLocalParticipant st := find Participant.local (features_base_participants st);
  getParticipantDisplayName st id :=
    from_option Participant.name "Fellow Jitster"
      (find (fun p => bool_decide (Participant.id p = id)) (features_base_participants st));
  getCurrentConference st :=
    match BaseConference.conference (features_base_conference st) with
    | Some c => Some c
    | None => BaseConference.membersOnly (features_base_conference st)
    end;
  getDisabledSounds st := [];
  getReactionMessageFromBuffer buffer := foldr (fun r acc => ":" +:+ r +:+ ":" +:+ acc) "" buffer;
  getReactionsSoundsThresholds rs := map (fun r => (r, 1)) rs;
  REACTIONS_soundId r := r +:+ "_SOUND_";
  displayReactionSoundsNotification := true;
  REACTION_SOUND := "REACTION_SOUND";
  ENDPOINT_REACTION_NAME := "endpoint-reaction";
  MUTE_REACTIONS_COMMAND := "mute-reactions" |}.

Definition alice : Participant.t := Participant.mk "alice" "Alice" "alice@example.org" true "moderator".
Definition bob : Participant.t := Participant.mk "bob" "Bob" "bob@example.org" false "participant".
Definition carol : Participant.t := Participant.mk "carol" "Carol" "carol@example.org" false "moderator".
Definition dave : Knocking.t := Knocking.mk "dave" "Dave" "dave@example.org" None.
Definition erin : Knocking.t := Knocking.mk "erin" "Erin" "erin@example.org" (Some "carol").
Definition room : Conference.t := Conference.mk (Some "alice") "moderator".

(** Alice, a moderator, in a joined conference with Bob and Carol; Dave and
    Erin are knocking, Erin in a lobby chat with Carol. Nothing is buffered and
    no timeout is pending. *)
Definition sampleState : ReduxState :=
  mkState (Reactions.mk None [] [] false)
    (BaseConference.mk (Some room) None None)
    (Settings.mk true)
    [alice; bob; carol]
    (Lobby.mk false [dave; erin] true)
    (Chat.mk None None false None false)
    (Config.mk None).

Definition sampleWorld : World := mkWorld sampleState [] 0 1 0 [].

(** The same client before it joined any conference. *)
Definition lonelyState : ReduxState :=
  mkState (Reactions.mk None [] [] false)
    (BaseConference.mk None None None)
    (Settings.mk true)
    []
    (Lobby.mk false [dave; erin] true)
    (Chat.mk None None false None false)
    (Config.mk None).

Definition lonelyWorld : World := mkWorld lonelyState [] 0 1 0 [].

(** Three reactions wait in the buffer of the sample conference. *)
Definition bufferedWorld : World :=
  mkWorld
    (set_reactions (fun _ => Reactions.mk (Some 1) ["like"; "clap"; "like"] [] false) sampleState)
    [(1, 500)] 0 2 0 [].

Definition sampleEvents : list (Millis * Reaction) := [(10, "like"); (200, "clap"); (400, "like")].

(** A client in front of a members-only conference, with no local participant
    in the store yet. *)
Definition outsideWorld : World :=
  mkWorld
    (mkState (Reactions.mk None [] [] false)
       (BaseConference.mk None (Some room) None)
       (Settings.mk true) []
       (Lobby.mk false [] true)
       (Chat.mk None None false None false)
       (Config.mk None))
    [] 0 1 0 [].

(** Alice in front of a members-only conference. *)
Definition knockingAtTheDoor : World :=
  mkWorld
    (mkState (Reactions.mk None [] [] false)
       (BaseConference.mk None (Some room) None)
       (Settings.mk true) [alice]
       (Lobby.mk false [] true)
       (Chat.mk None None false None false)
       (Config.mk None))
    [] 0 1 0 [].

(** Erin, knocking, in a lobby chat with Carol. *)
Definition erinWorld : World :=
  mkWorld
    (mkState (Reactions.mk None [] [] false)
       (BaseConference.mk None (Some room) None)
       (Settings.mk true) []
       (Lobby.mk true [] true)
       (Chat.mk None (Some (Party.mk "carol" "Carol")) true None false)
       (Config.mk None))
    [] 0 1 0 [].

Definition carolAndDave : ChatInitialized :=
  mkChatInitialized (Party.mk "carol" "Carol") (Party.mk "dave" "Dave").

(** Alice, moderator, with a private-message recipient set while a
    challenge-response chat with Dave is active. *)
Definition bothRecipients : ReduxState :=
  mkState (Reactions.mk None [] [] false)
    (BaseConference.mk (Some room) None None)
    (Settings.mk true)
    [alice; bob; carol]
    (Lobby.mk false [dave; erin] true)
    (Chat.mk (Some (Party.mk "bob" "Bob")) None false (Some (Party.mk "dave" "Dave")) true)
    (Config.mk None).

(** A moderator's store in which the challenge-response chat is flagged active
    while no recipient of either kind is set. *)
Definition activeWithoutRecipient : ReduxState :=
  mkState (Reactions.mk None [] [] false)
    (BaseConference.mk (Some room) None None)
    (Settings.mk true)
    [alice; bob; carol]
    (Lobby.mk false [dave; erin] true)
    (Chat.mk None None false None true)
    (Config.mk None).

(** ** Vocabulary of the statements *)

(** The world after some events were recorded, and after the store changed. *)
Definition logged (evs : list Event) (w : World) : World :=
  mkWorld (store w) (timers w) (clock w) (nextTimerId w) (nextUid w) (trace w ++ evs).
Definition stored (f : ReduxState -> ReduxState) (w : World) : World :=
  mkWorld (f (store w)) (timers w) (clock w) (nextTimerId w) (nextUid w) (trace w).

(** The entries [getReactionsWithId] builds when the generator stands at [u]. *)
Fixpoint entriesFrom (u : nat) (reactions : list Reaction) : list QueueEntry.t :=
  match reactions with
  | [] => []
  | reaction :: rest => QueueEntry.mk reaction u :: entriesFrom (S u) rest
  end.

(** Actions for which the middleware has no case. *)
Definition leaf (a : Action) : bool :=
  match a with
  | ADD_REACTION_BUFFER _ _ _ | CONFERENCE_WILL_JOIN _ | FLUSH_REACTION_BUFFER | PUSH_REACTIONS _
  | SEND_REACTIONS | SETTINGS_UPDATED _ | SHOW_SOUNDS_NOTIFICATION => false
  | _ => true
  end.

(** The events come in time order, none before [from]. *)
Fixpoint chronological (from : Millis) (events : list (Millis * Reaction)) : Prop :=
  match events with
  | [] => True
  | e :: rest => from <= e.1 /\ chronological e.1 rest
  end.

(** Each event comes less than 500 after the one before it (the first one
    after [from]), in time order. *)
Fixpoint burst (from : Millis) (events : list (Millis * Reaction)) : Prop :=
  match events with
  | [] => True
  | e :: rest => from <= e.1 /\ e.1 < from + 500 /\ burst e.1 rest
  end.

(** The time of the last event, [t] when there is none. *)
Definition lastTime (t : Millis) (events : list (Millis * Reaction)) : Millis :=
  foldl (fun _ e => e.1) t events.

(** Exactly one flush is pending, due at [d], and the store remembers it. *)
Definition PendingFlush (w : World) (d : Millis) : Prop :=
  exists id, timers w = [(id, d)]
             /\ Reactions.timeoutID (features_reactions (store w)) = Some id.

(** No timeout is pending, or exactly one flush is and the buffer it will
    flush is not empty. *)
Definition Settled (w : World) : Prop :=
  timers w = []
  \/ exists d, PendingFlush w d /\ Reactions.buffer (features_reactions (store w)) <> [].

(** All reactions handed on so far, followed by those still buffered. *)
Definition reactionsSeen (w : World) : list Reaction :=
  concat (pushedBatches (trace w)) ++ Reactions.buffer (features_reactions (store w)).

(** The store after the paired update of the mute command. *)
Definition mutedStore (newState : bool) (st : ReduxState) : ReduxState :=
  set_settings (fun _ => Settings.mk (negb newState))
    (set_base_conference (fun s =>
       BaseConference.mk (BaseConference.conference s) (BaseConference.membersOnly s)
         (Some newState)) st).

(** The notification [handleLobbyChatInitialized] shows to the other moderators. *)
Definition chatStartedNotification (payload : ChatInitialized) : NotificationProps :=
  mkNotification "lobby.lobbyChatStartedNotification"
    [("moderator", Party.name (moderator payload)); ("attendee", Party.name (attendee payload))]
    [] [].

(** The store once the lobby chat was terminated locally. *)
Definition chatTerminated (st : ReduxState) : ReduxState :=
  set_chat (fun s => Chat.mk (Chat.privateMessageRecipient s) None false
                       (Chat.challengeResponseRecipient s) (Chat.challengeResponseIsActive s)) st.

(** The knocking participant [updateLobbyParticipantOnModeratorLeave] notifies:
    the first one chatting with moderator [M]. *)
Definition participantToNotify (M : string) (st : ReduxState) : option Knocking.t :=
  find (fun p => bool_decide (Knocking.chattingWithModerator p = Some M))
    (Lobby.knockingParticipants (features_lobby st)).

Section ClosedForms.
Context `{Imports}.

(** The command [approve] or [reject] issues, if there is a conference to
    issue it to. *)
Definition issued (st : ReduxState) (c : Call) : list Event :=
  match getCurrentConference st with
  | Some _ => [Called c]
  | None => []
  end.

(** Whether a push surfaces the notification about reaction sounds. *)
Definition soundsNotice (st : ReduxState) : bool :=
  negb (Reactions.notificationDisplayed (features_reactions st))
  && Settings.soundsReactions (features_base_settings st)
  && negb (bool_decide (REACTION_SOUND ∈ getDisabledSounds st))
  && displayReactionSoundsNotification.

Definition soundsNotification (st : ReduxState) : NotificationProps :=
  mkNotification "toolbar.disableReactionSounds" []
    (["notify.reactionSounds"]
       ++ (if isLocalParticipantModerator st then ["notify.reactionSoundsForAll"] else []))
    ([DisableReactionSounds]
       ++ (if isLocalParticipantModerator st then [DisableReactionSoundsForAll] else [])).

(** The events of each dispatch, written out. *)
Definition showSoundsEvents (st : ReduxState) : list Event :=
  [Dispatched SHOW_SOUNDS_NOTIFICATION;
   Dispatched (SHOW_NOTIFICATION (soundsNotification st) (Some "medium"))].

Definition playSoundEvents (st : ReduxState) (rs : list Reaction) : list Event :=
  if Settings.soundsReactions (features_base_settings st)
  then map (fun r => Dispatched (PLAY_SOUND (REACTIONS_soundId r.1) r.2))
         (getReactionsSoundsThresholds rs)
  else [].

Definition pushEvents (st : ReduxState) (u : nat) (rs : list Reaction) : list Event :=
  [Dispatched (PUSH_REACTIONS rs)]
  ++ (if soundsNotice st then showSoundsEvents st else [])
  ++ playSoundEvents st rs
  ++ [Dispatched (SET_REACTION_QUEUE (Reactions.queue (features_reactions st) ++ entriesFrom u rs))].

Definition pushStore (st : ReduxState) (u : nat) (rs : list Reaction) : ReduxState :=
  set_reactions (fun s =>
    Reactions.mk (Reactions.timeoutID s) (Reactions.buffer s)
      (Reactions.queue s ++ entriesFrom u rs)
      (if soundsNotice st then true else Reactions.notificationDisplayed s)) st.

Definition sendEvents (st : ReduxState) (now : Millis) : list Event :=
  Dispatched SEND_REACTIONS ::
  match BaseConference.conference (features_base_conference st) with
  | Some _ => [Called (sendEndpointMessage ENDPOINT_REACTION_NAME
                         (Reactions.buffer (features_reactions st)) now)]
  | None => []
  end.

Definition flushEvents (st : ReduxState) (now : Millis) (u : nat) : list Event :=
  let buffer := Reactions.buffer (features_reactions st) in
  [Dispatched FLUSH_REACTION_BUFFER]
  ++ (if decide (1 < getParticipantCount st) then sendEvents st now else [])
  ++ [Dispatched (ADD_REACTIONS_MESSAGE (getReactionMessageFromBuffer buffer))]
  ++ pushEvents st u buffer
  ++ [Called (sendReactionsWebhook buffer)].

Definition flushStore (st : ReduxState) (u : nat) : ReduxState :=
  set_reactions (fun s =>
    Reactions.mk (Reactions.timeoutID s) []
      (Reactions.queue s ++ entriesFrom u (Reactions.buffer s))
      (if soundsNotice st then true else Reactions.notificationDisplayed s)) st.

End ClosedForms.

(** ** Sound registration: the cases [APP_WILL_MOUNT] and [APP_WILL_UNMOUNT]

    The two cases of the middleware's [switch] that register and unregister
    the reaction sounds, as the sequence of actions each of them dispatches
    ([middleware] above has no case for them: they read nothing of the store
    and the other cases read nothing of the sounds).
    [REACTIONS], [SOUNDS_THRESHOLDS] and the raise-hand sound are constants of
    [./constants] and [./sounds]; they are parameters here. *)

(** An entry of the [REACTIONS] table: the fields the middleware reads. *)
Module ReactionEntry.
Record t := mk { soundId : string; soundFiles : list string }.
End ReactionEntry.

(** [registerSound(soundId, file)] and [unregisterSound(soundId)] of
    [base/sounds]. An element read past the end of [soundFiles] is
    [undefined]. *)
Inductive SoundAction :=
| REGISTER_SOUND (soundId : string) (file : option string)
| UNREGISTER_SOUND (soundId : string).

Section Sounds.
Variable REACTIONS : list (Reaction * ReactionEntry.t).
Variable SOUNDS_THRESHOLDS : list nat.
Variable RAISE_HAND_SOUND_ID : string.
Variable RAISE_HAND_SOUND_FILE : string.

(** The sound id of a reaction at a threshold: the template string
    [`${REACTIONS[key].soundId}${SOUNDS_THRESHOLDS[i]}`]. *)
Definition thresholdSoundId (entry : ReactionEntry.t) (threshold : nat) : string :=
  ReactionEntry.soundId entry +:+ pretty threshold.

(** [case APP_WILL_MOUNT]. [key] ranges over the entries of [REACTIONS]:
    [key.1] is the key and [key.2] is [REACTIONS[key]]. *)
Definition appWillMount : list SoundAction :=
  flat_map (fun key =>
      imap (fun i threshold =>
              REGISTER_SOUND (thresholdSoundId key.2 threshold) (ReactionEntry.soundFiles key.2 !! i))
        SOUNDS_THRESHOLDS)
    REACTIONS
  ++ [REGISTER_SOUND RAISE_HAND_SOUND_ID (Some RAISE_HAND_SOUND_FILE)].

(** [case APP_WILL_UNMOUNT] *)
Definition appWillUnmount : list SoundAction :=
  flat_map (fun key =>
      imap (fun i threshold => UNREGISTER_SOUND (thresholdSoundId key.2 threshold))
        SOUNDS_THRESHOLDS)
    REACTIONS
  ++ [UNREGISTER_SOUND RAISE_HAND_SOUND_ID].

End Sounds.

Definition isRegister (a : SoundAction) : option string :=
  match a with REGISTER_SOUND soundId _ => Some soundId | _ => None end.
Definition isUnregister (a : SoundAction) : option string :=
  match a with UNREGISTER_SOUND soundId => Some soundId | _ => None end.
Definition isRegisterWithoutFile (a : SoundAction) : option string :=
  match a with REGISTER_SOUND soundId None => Some soundId | _ => None end.

(** The sound ids registered, and unregistered, in order. *)
Definition registeredSounds (l : list SoundAction) : list string := omap isRegister l.
Definition unregisteredSounds (l : list SoundAction) : list string := omap isUnregister l.

(** The id of the sound a [playSound] action plays: the middleware
    concatenates the reaction's [soundId] and the threshold. *)
Definition isPlaySound (e : Event) : option string :=
  match e with
  | Dispatched (PLAY_SOUND soundId threshold) => Some (soundId +:+ pretty threshold)
  | _ => None
  end.
Definition playedSounds (tr : list Event) : list string := omap isPlaySound tr.

(** ** The handlers of the sounds notification, and repeated pushes *)

(** [sendAnalytics(createReactionSoundsDisabledEvent())] *)
Definition disabledEvent : Call := sendAnalytics "createReactionSoundsDisabledEvent()".

Section MoreMiddleware.
Context `{Imports}.

(** The closures the [SHOW_SOUNDS_NOTIFICATION] case puts in
    [customFunctions]. *)
Definition customFunction (handler : NotificationHandler) : Js unit :=
  match handler with
  | DisableReactionSounds => dispatch (SETTINGS_UPDATED (Some false))
  | DisableReactionSoundsForAll =>
      dispatch (SET_START_REACTIONS_MUTED true);;
      dispatch (SETTINGS_UPDATED (Some false))
  end.

(** Batch after batch is pushed to the display queue:
    [dispatch(pushReactions(reactions))] for each. *)
Definition pushAll (batches : list (list Reaction)) (w : World) : World :=
  foldl (fun w reactions => world (dispatch (PUSH_REACTIONS reactions) w)) w batches.

End MoreMiddleware.

(** ** One more lobby thunk *)

Section MoreLobbyActions.
Context `{Imports}.

(** [sendLobbyChatMessage(message)]: [conference] is used unguarded, and the
    message goes out without a target. *)
Definition sendLobbyChatMessage (message : LobbyMessage) : Js Promise :=
  async (
    state ← getState;
    let conference := getCurrentConference state in
    _ ← deref "conference.sendLobbyMessage" conference;
    call (sendLobbyMessage message None)).

End MoreLobbyActions.

(** ** The native MessageRecipient *)

Module NativeMessageRecipient.

(** The props [render] reads. [privateMessageRecipient] is the component's
    own prop, the other two come from [_mapStateToProps]. *)
Record Props := mkProps {
  privateMessageRecipient : option Party.t;
  challengeResponseIsActive : bool;
  challengeResponseRecipient : option Party.t }.

Inductive Handler :=
| _onResetPrivateMessageRecipient
| _onResetChallengeResponseMessageRecipient.

(** What a handler does: the action it dispatches and, for the private
    recipient, the navigation parameter it resets with [setParams]. *)
Record Reset := mkReset { dispatched : Action; setParams : option (option Party.t) }.

Definition handle (h : Handler) : Reset :=
  match h with
  | _onResetPrivateMessageRecipient => mkReset (SET_PRIVATE_MESSAGE_RECIPIENT None) (Some None)
  | _onResetChallengeResponseMessageRecipient =>
      mkReset (SET_CHALLENGE_RESPONSE_ACTIVE_STATE false) None
  end.

(** The [View] that [render] returns: the style of the container, the i18n
    key and the [recipient] argument of the text, and the [onPress] handler. *)
Record Element := mkElement {
  style : string;
  labelKey : string;
  recipient : string;
  onPress : Handler }.

Definition _mapStateToProps (privateMessageRecipient : option Party.t) (state : ReduxState) : Props :=
  mkProps privateMessageRecipient
    (Chat.challengeResponseIsActive (features_chat state))
    (Chat.challengeResponseRecipient (features_chat state)).

(** [render()] of [part_000]; reading [challengeResponseRecipient.name] of an
    [undefined] recipient throws. *)
Definition render (props : Props) : Completion (option Element) :=
  if challengeResponseIsActive props then
    match challengeResponseRecipient props with
    | Some r =>
        Normal (Some (mkElement "challengeResponseRecipientContainer"
                        "chat.challengeResponseMessageTo" (Party.name r)
                        _onResetChallengeResponseMessageRecipient))
    | None => Throw (TypeError "challengeResponseRecipient.name")
    end
  else
    match privateMessageRecipient props with
    | None => Normal None
    | Some r =>
        Normal (Some (mkElement "messageRecipientContainer" "chat.messageTo" (Party.name r)
                        _onResetPrivateMessageRecipient))
    end.

End NativeMessageRecipient.

(** The same component in [chat/components/native/MessageRecipient.js], where
    the second recipient is the one of the lobby chat. *)
Module NativeLobbyChatRecipient.

Record Props := mkProps {
  privateMessageRecipient : option Party.t;
  lobbyChatIsActive : bool;
  lobbyChatMessageRecipient : option Party.t }.

Inductive Handler :=
| _onResetPrivateMessageRecipient
| _onResetLobbyChatMessageRecipient.

Record Element := mkElement {
  style : string;
  labelKey : string;
  recipient : string;
  onPress : Handler }.

Definition render (props : Props) : Completion (option Element) :=
  if lobbyChatIsActive props then
    match lobbyChatMessageRecipient props with
    | Some r =>
        Normal (Some (mkElement "lobbyChatMessageRecipientContainer" "chat.lobbyChatMessageTo"
                        (Party.name r) _onResetLobbyChatMessageRecipient))
    | None => Throw (TypeError "lobbyChatMessageRecipient.name")
    end
  else
    match privateMessageRecipient props with
    | None => Normal None
    | Some r =>
        Normal (Some (mkElement "messageRecipientContainer" "chat.messageTo" (Party.name r)
                        _onResetPrivateMessageRecipient))
    end.

(** The props of the lobby-chat variant read as props of the
    challenge-response variant. *)
Definition asChallengeResponse (props : Props) : NativeMessageRecipient.Props :=
  NativeMessageRecipient.mkProps (privateMessageRecipient props) (lobbyChatIsActive props)
    (lobbyChatMessageRecipient props).

End NativeLobbyChatRecipient.

(** ** The SpeakerStats dialog (first half of SpeakerStats.js) *)

Definition FacialExpressions := list (string * nat).

(** A [SpeakerStats] object of the conferencing library, by the answers of
    its getters; [hidden] is the property the search sets on it. *)
Module StatsModel.
Record t := mk {
  getDisplayName : option string;
  isLocalStats : bool;
  hidden : bool;
  isDominantSpeaker : bool;
  getTotalDominantSpeakerTime : nat;
  hasLeft : bool;
  getFacialExpressions : FacialExpressions }.

Definition setDisplayName (name : option string) (m : t) : t :=
  mk name (isLocalStats m) (hidden m) (isDominantSpeaker m) (getTotalDominantSpeakerTime m)
    (hasLeft m) (getFacialExpressions m).

Definition setFacialExpressions (expressions : FacialExpressions) (m : t) : t :=
  mk (getDisplayName m) (isLocalStats m) (hidden m) (isDominantSpeaker m)
    (getTotalDominantSpeakerTime m) (hasLeft m) expressions.
End StatsModel.

Module SpeakerStats.

(** The props the component reads. Speaker stats are kept by user id, and a
    user id may be mapped to [null]; [conference_getSpeakerStats] is the answer
    of [conference.getSpeakerStats()], [t] the translation function. *)
Record Props := mkProps {
  _localDisplayName : option string;
  _enableFacialRecognition : bool;
  _localFacialExpressions : FacialExpressions;
  _reduceExpressions : bool;
  _stats : gmap string (option StatsModel.t);
  conference_getSpeakerStats : gmap string (option StatsModel.t);
  t : string -> string }.

(** The props of a [SpeakerStatsItem]. *)
Record Item := mkItem {
  displayName : option string;
  dominantSpeakerTime : nat;
  facialExpressions : option FacialExpressions;
  itemHasLeft : bool;
  itemIsDominantSpeaker : bool;
  key : string;
  reduceExpressions : bool;
  showFacialExpressions : bool }.

(** The [Dialog] that [render] returns: its width, the two props of the
    labels row and the items ([None] is the [null] of a user that is not
    shown). *)
Record Dialog := mkDialog {
  width : string;
  labelsReduceExpressions : bool;
  labelsShowFacialExpressions : bool;
  items : list (option Item) }.

(** [_createStatsItem(userId)] *)
Definition _createStatsItem (props : Props) (userId : string) : option Item :=
  match _stats props !! userId with
  | Some (Some statsModel) =>
      if StatsModel.hidden statsModel then None
      else
        Some (mkItem
          (StatsModel.getDisplayName statsModel)
          (StatsModel.getTotalDominantSpeakerTime statsModel)
          (if _enableFacialRecognition props
           then Some (StatsModel.getFacialExpressions statsModel) else None)
          (StatsModel.hasLeft statsModel)
          (StatsModel.isDominantSpeaker statsModel)
          userId
          (_reduceExpressions props)
          (_enableFacialRecognition props))
  | _ => None
  end.

(** [render()]. [Object.keys] lists every user id of the stats once; the
    order is that of the map. *)
Definition render (props : Props) : Dialog :=
  let userIds := (map_to_list (_stats props)).*1 in
  let items := map (_createStatsItem props) userIds in
  mkDialog (if _enableFacialRecognition props then "large" else "medium")
    (_reduceExpressions props) (_enableFacialRecognition props) items.

Section GetSpeakerStats.
(** [interfaceConfig.DEFAULT_REMOTE_DISPLAY_NAME] *)
Variable DEFAULT_REMOTE_DISPLAY_NAME : option string.

(** The display name of the local speaker:
    [_localDisplayName ? `${_localDisplayName} (${meString})` : meString]. *)
Definition localLabel (props : Props) : string :=
  let meString := t props "me" in
  match _localDisplayName props with
  | Some name => if bool_decide (name = "") then meString else name +:+ " (" +:+ meString +:+ ")"
  | None => meString
  end.

(** The body of the loop of [_getSpeakerStats] for one stats object. *)
Definition updateStatsModel (props : Props) (statsModel : StatsModel.t) : StatsModel.t :=
  let statsModel :=
    if StatsModel.isLocalStats statsModel then
      let statsModel := StatsModel.setDisplayName (Some (localLabel props)) statsModel in
      if _enableFacialRecognition props
      then StatsModel.setFacialExpressions (_localFacialExpressions props) statsModel
      else statsModel
    else statsModel in
  if negb (truthy (StatsModel.getDisplayName statsModel))
  then StatsModel.setDisplayName DEFAULT_REMOTE_DISPLAY_NAME statsModel
  else statsModel.

(** [_getSpeakerStats()]: the stats objects are those of the conference,
    changed in place, so the conference answers with the changed objects from
    then on. *)
Definition _getSpeakerStats (props : Props) : gmap string (option StatsModel.t) :=
  fmap (M:=gmap string) (fmap (M:=option) (updateStatsModel props)) (conference_getSpeakerStats props).

(** The props at the next poll: the conference hands out the objects the
    previous poll changed. *)
Definition polled (props : Props) : Props :=
  mkProps (_localDisplayName props) (_enableFacialRecognition props) (_localFacialExpressions props)
    (_reduceExpressions props) (_stats props) (_getSpeakerStats props) (t props).

End GetSpeakerStats.

End SpeakerStats.

(** ** LobbyParticipantItem *)

Module LobbyParticipantItem.

(** The three callbacks of [useLobbyActions]: admit, reject and chat. *)
Inductive LobbyAction := Admit | Reject | Chat.

(** The props of a [LobbyParticipantQuickAction] and its text. *)
Record QuickAction := mkQuickAction {
  accessibilityLabel : string;
  className : option string;
  onClick : LobbyAction;
  secondary : bool;
  testId : string;
  text : string }.

(** The quick actions of the item of participant [p]; [showChat] is the answer
    of the [showLobbyChatButton(p)] selector, [t] the translation function. *)
Definition quickActions (t : string -> string) (showChat : bool) (p : Knocking.t) : list QuickAction :=
  let id := Knocking.id p in
  [mkQuickAction (t "lobby.reject" +:+ " " +:+ Knocking.name p) (Some "button") Reject true
     ("reject-" +:+ id) (t "lobby.reject");
   mkQuickAction (t "lobby.admit" +:+ " " +:+ Knocking.name p)
     (if showChat then Some "button" else None) Admit false
     ("admit-" +:+ id) (t "lobby.admit")]
  ++ (if showChat
      then [mkQuickAction (t "lobby.chat" +:+ " " +:+ Knocking.name p) None Chat false
              ("lobby-chat-" +:+ id) (" " +:+ t "lobby.chat" +:+ " ")]
      else []).

End LobbyParticipantItem.

(** ** The same code where a helper or a collaborator throws

    [middleware] and [admitMultiple] above take the imported helpers as
    functions that return and the methods of the conference as calls that
    return. Three of them can throw in the running system:
    [getReactionMessageFromBuffer] (it is not among the sources, and nothing in
    them says that it returns for every buffer), the lookup
    [REACTIONS[reaction.reaction]] of a reaction that is no key of the table,
    and [conference.lobbyApproveAccess]. This module embeds the same three
    pieces of code with those outcomes as parameters; where nothing throws they
    are the definitions above ([flush_agrees], [push_agrees] and
    [admitMultiple_agrees] below). *)
Module WithFailures.

(** A value computed outside the store, or the error thrown instead. *)
Definition completion {A} (c : Completion A) : Js A := fun w => (c, w).

(** How a call of [conference.lobbyApproveAccess(id)] ends for its caller: it
    returns (whether the server accepts the approval or rejects it later makes
    no difference to the caller, which drops the value returned), or it
    throws. *)
Inductive ApproveResult :=
| Accepted
| RejectedByServer
| Thrown (e : JsError).

Definition throws (r : ApproveResult) : bool :=
  match r with Thrown _ => true | _ => false end.

Section WithFailures.
Context `{Imports}.

(** [case FLUSH_REACTION_BUFFER], where [getMessage] is what
    [getReactionMessageFromBuffer] does on a buffer. Its call is the argument
    of [addReactionsToChat]: it comes after [sendReactions] was dispatched. *)
Definition FLUSH_REACTION_BUFFER_case
    (getMessage : list Reaction -> Completion string) (dispatch : Action -> Js unit) : Js Action :=
  state ← getState;
  let buffer := Reactions.buffer (features_reactions state) in
  let participantCount := getParticipantCount state in
  (if decide (1 < participantCount) then dispatch SEND_REACTIONS else mret tt);;
  message ← completion (getMessage buffer);
  dispatch (ADD_REACTIONS_MESSAGE message);;
  dispatch (PUSH_REACTIONS buffer);;
  call (sendReactionsWebhook buffer);;
  mret FLUSH_REACTION_BUFFER.

(** [dispatch(flushReactionBuffer())] *)
Definition flush (getMessage : list Reaction -> Completion string) : Js unit :=
  emit (Dispatched FLUSH_REACTION_BUFFER);;
  action ← FLUSH_REACTION_BUFFER_case getMessage (dispatchN 3);
  next action.

(** [REACTIONS[reaction]]: [undefined] for a reaction that is no key. *)
Definition REACTIONS_at (REACTIONS : list (Reaction * ReactionEntry.t)) (reaction : Reaction)
    : option ReactionEntry.t :=
  snd <$> find (fun entry => bool_decide (entry.1 = reaction)) REACTIONS.

(** [case PUSH_REACTIONS], with [REACTIONS] as a table: the sound id is read
    off the entry of the reaction, inside the loop. *)
Definition PUSH_REACTIONS_case
    (REACTIONS : list (Reaction * ReactionEntry.t)) (dispatch : Action -> Js unit)
    (reactions : list Reaction) : Js Action :=
  state ← getState;
  let queue := Reactions.queue (features_reactions state) in
  let notificationDisplayed := Reactions.notificationDisplayed (features_reactions state) in
  let soundsReactions := Settings.soundsReactions (features_base_settings state) in
  let disabledSounds := getDisabledSounds state in
  (if negb notificationDisplayed && soundsReactions
      && negb (bool_decide (REACTION_SOUND ∈ disabledSounds))
      && displayReactionSoundsNotification
   then dispatch SHOW_SOUNDS_NOTIFICATION else mret tt);;
  (if soundsReactions
   then forEach (getReactionsSoundsThresholds reactions)
          (fun reaction =>
             entry ← deref "REACTIONS[reaction.reaction].soundId" (REACTIONS_at REACTIONS reaction.1);
             dispatch (PLAY_SOUND (ReactionEntry.soundId entry) reaction.2))
   else mret tt);;
  withId ← getReactionsWithId reactions;
  dispatch (SET_REACTION_QUEUE (queue ++ withId));;
  mret (PUSH_REACTIONS reactions).

(** [dispatch(pushReactions(reactions))] *)
Definition push (REACTIONS : list (Reaction * ReactionEntry.t)) (reactions : list Reaction)
    : Js unit :=
  emit (Dispatched (PUSH_REACTIONS reactions));;
  action ← PUSH_REACTIONS_case REACTIONS (dispatchN 3) reactions;
  next action.

(** [conference.lobbyApproveAccess(id)]: the call is made, and ends as
    [result id] says. *)
Definition conference_lobbyApproveAccess (result : string -> ApproveResult) (id : string)
    : Js unit :=
  call (lobbyApproveAccess id);;
  match result id with
  | Thrown e => throw e
  | _ => mret tt
  end.

(** [admitMultiple(participants)] *)
Definition admitMultiple (result : string -> ApproveResult) (participants : list Knocking.t)
    : Js unit :=
  state ← getState;
  let conference := getCurrentConference state in
  forEach participants (fun p =>
    _ ← deref "conference.lobbyApproveAccess" conference;
    conference_lobbyApproveAccess result (Knocking.id p)).

End WithFailures.


(** Sound [s] is the one of threshold entry [r]: the sound id of its
    reaction's entry in [REACTIONS], followed by the threshold. *)
Definition soundPlayedFor (REACTIONS : list (Reaction * ReactionEntry.t))
    (s : string) (r : Reaction * nat) : Prop :=
  exists entry, REACTIONS_at REACTIONS r.1 = Some entry
                /\ s = ReactionEntry.soundId entry +:+ pretty r.2.

(** The [playSound] action of a threshold entry whose reaction is a key. *)
Definition playKnown (r : ReactionEntry.t * nat) : Event :=
  Dispatched (PLAY_SOUND (ReactionEntry.soundId r.1) r.2).

(** The threshold entries the loop of the push gets through: those before
    the first reaction that is no key of [REACTIONS]. *)
Fixpoint knownPrefix (REACTIONS : list (Reaction * ReactionEntry.t))
    (thresholds : list (Reaction * nat)) : list (ReactionEntry.t * nat) :=
  match thresholds with
  | [] => []
  | reaction :: rest =>
      match REACTIONS_at REACTIONS reaction.1 with
      | Some entry => (entry, reaction.2) :: knownPrefix REACTIONS rest
      | None => []
      end
  end.


End WithFailures.

(** ** More sample data *)

(** Two reactions with three thresholds; the second has a sound file for the
    first threshold only. *)
Definition sampleReactions : list (Reaction * ReactionEntry.t) :=
  [("like", ReactionEntry.mk "like_SOUND_" ["like1.mp3"; "like2.mp3"; "like3.mp3"]);
   ("clap", ReactionEntry.mk "clap_SOUND_" ["clap1.mp3"])].
Definition sampleThresholds : list nat := [1; 3; 5].

(** The stats of Alice (local, no name set by the library yet) and Bob. *)
Definition aliceStats : StatsModel.t := StatsModel.mk None true false true 42 false [].
Definition bobStats : StatsModel.t := StatsModel.mk (Some "Bob") false false false 7 false [].

Definition sampleSpeakerStats : SpeakerStats.Props :=
  SpeakerStats.mkProps (Some "Alice") false [] false ∅
    (<["alice" := Some aliceStats]> (<["bob" := Some bobStats]> ∅))
    (fun key => key).


Ltac list_norm := repeat (progress (rewrite <- ?app_assoc; cbn [app])).
Ltac js_unfold :=
  unfold mbind, Js_bind, mret, Js_ret, emit, call, getState, setStore, next, Date_now, deref, throw,
    outcome, world, logged, stored in *.
Ltac js := repeat (js_unfold; cbn [fst snd store timers clock nextTimerId nextUid trace] in *).

(** ** Symbolic evaluation of the middleware *)

Section Evaluation.
Context `{Imports}.

Lemma entriesFrom_reaction u rs : map QueueEntry.reaction (entriesFrom u rs) = rs.
Proof. revert u. induction rs as [|r rs IH]; intros u; cbn; [done|]. by rewrite IH. Qed.

Lemma getReactionsWithId_eval rs w :
  getReactionsWithId rs w =
  (Normal (entriesFrom (nextUid w) rs),
   mkWorld (store w) (timers w) (clock w) (nextTimerId w) (nextUid w + length rs) (trace w)).
Proof.
  revert w. induction rs as [|r rs IH]; intros w.
  - destruct w; cbn. by rewrite Nat.add_0_r.
  - cbn [getReactionsWithId]. js. unfold freshUid. rewrite IH. cbn.
    do 3 f_equal. lia.
Qed.

Lemma dispatchN_leaf n a w :
  leaf a = true ->
  dispatchN n a w = (Normal tt, stored (reducer a) (logged [Dispatched a] w)).
Proof. intros Hl. destruct n, a; try discriminate Hl; reflexivity. Qed.

Lemma forEach_emits {A} (l : list A) (f : A -> Js unit) (e : A -> Event) :
  (forall x w, f x w = (Normal tt, logged [e x] w)) ->
  forall w, forEach l f w = (Normal tt, logged (map e l) w).
Proof.
  intros Hf. induction l as [|x l IH]; intros w.
  - destruct w; cbn. unfold logged; cbn. by rewrite app_nil_r.
  - cbn [forEach]. js. rewrite Hf, IH. js. by rewrite <- app_assoc.
Qed.

Lemma reducer_PLAY_SOUND s t st : reducer (PLAY_SOUND s t) st = st.
Proof. by destruct st. Qed.

Lemma stored_id f w : (forall st, f st = st) -> stored f w = w.
Proof. intros Hf. destruct w. unfold stored; cbn. by rewrite Hf. Qed.

Lemma dispatchN_S n a w :
  dispatchN (S n) a w
  = (emit (Dispatched a);; a' ← middleware (dispatchN n) a; next a') w.
Proof. reflexivity. Qed.

Lemma dispatchN_SHOW_SOUNDS n w :
  dispatchN (S n) SHOW_SOUNDS_NOTIFICATION w
  = (Normal tt,
     stored (set_reactions (fun s => Reactions.mk (Reactions.timeoutID s) (Reactions.buffer s)
                                       (Reactions.queue s) true))
       (logged (showSoundsEvents (store w)) w)).
Proof.
  rewrite dispatchN_S. unfold middleware. js.
  rewrite dispatchN_leaf by done. js.
  destruct w as [[[] [] [] ? [] [] []] ? ? ? ? ?]; cbn.
  unfold set_reactions; cbn. by rewrite <- app_assoc.
Qed.

Lemma dispatchN_SEND n w :
  dispatchN (S n) SEND_REACTIONS w = (Normal tt, logged (sendEvents (store w) (clock w)) w).
Proof.
  rewrite dispatchN_S. unfold middleware. js.
  destruct w as [[[] [conf ? ?] [] ? [] [] []] ? ? ? ? ?]; cbn.
  destruct conf; js; cbn; by rewrite <- ?app_assoc.
Qed.

Lemma dispatchN_PUSH n rs w :
  dispatchN (S (S n)) (PUSH_REACTIONS rs) w
  = (Normal tt,
     mkWorld (pushStore (store w) (nextUid w) rs) (timers w) (clock w) (nextTimerId w)
       (nextUid w + length rs) (trace w ++ pushEvents (store w) (nextUid w) rs)).
Proof.
  rewrite dispatchN_S. unfold middleware. js.
  unfold pushEvents, pushStore, playSoundEvents. fold (soundsNotice (store w)).
  destruct (soundsNotice (store w)) eqn:Hn;
    rewrite ?dispatchN_SHOW_SOUNDS; js;
    destruct (Settings.soundsReactions (features_base_settings (store w)));
    rewrite ?(forEach_emits _ _ (fun r => Dispatched (PLAY_SOUND (REACTIONS_soundId r.1) r.2)))
      by (intros; rewrite dispatchN_leaf by done; f_equal; apply stored_id, reducer_PLAY_SOUND);
    js; rewrite getReactionsWithId_eval; js; rewrite dispatchN_leaf by done; js;
    destruct w as [[[] [] [] ? [] [] []] ? ? ? ? ?]; cbn;
    unfold set_reactions; cbn; by rewrite <- ?app_assoc.
Qed.

Lemma dispatchN_FLUSH n w :
  dispatchN (S (S (S n))) FLUSH_REACTION_BUFFER w
  = (Normal tt,
     mkWorld (flushStore (store w) (nextUid w)) (timers w) (clock w) (nextTimerId w)
       (nextUid w + length (Reactions.buffer (features_reactions (store w))))
       (trace w ++ flushEvents (store w) (clock w) (nextUid w))).
Proof.
  rewrite dispatchN_S. unfold middleware. js.
  unfold flushEvents, flushStore.
  destruct (decide (1 < getParticipantCount (store w)));
    rewrite ?dispatchN_SEND; js; rewrite dispatchN_leaf by done; js;
    rewrite dispatchN_PUSH; js;
    destruct w as [[[] [] [] ? [] [] []] ? ? ? ? ?]; cbn;
    unfold pushStore, set_reactions, reducer; cbn; by list_norm.
Qed.

Lemma dispatchN_ADD n reaction b t w :
  dispatchN (S n) (ADD_REACTION_BUFFER reaction b t) w
  = (Normal tt,
     let tid := Reactions.timeoutID (features_reactions (store w)) in
     let buffer := Reactions.buffer (features_reactions (store w)) ++ [reaction] in
     mkWorld
       (set_reactions (fun s => Reactions.mk (Some (nextTimerId w)) buffer (Reactions.queue s)
                                  (Reactions.notificationDisplayed s)) (store w))
       (filter (fun x => Some x.1 <> tid) (timers w) ++ [(nextTimerId w, clock w + 500)])
       (clock w) (S (nextTimerId w)) (nextUid w)
       (trace w ++ [Dispatched (ADD_REACTION_BUFFER reaction b t); Called (clearTimeout_ tid);
                    Called (setTimeout_ (nextTimerId w) 500)])).
Proof.
  rewrite dispatchN_S. unfold middleware. js. unfold clearTimeout, buffer_push, setTimeout. js.
  destruct w as [[[] [] [] ? [] [] []] ? ? ? ? ?]; cbn.
  unfold set_reactions; cbn. by rewrite <- !app_assoc.
Qed.

Lemma dispatchN_SETTINGS_UPDATED n s w :
  dispatchN (S n) (SETTINGS_UPDATED s) w
  = (Normal tt,
     stored (reducer (SETTINGS_UPDATED s))
       (logged (Dispatched (SETTINGS_UPDATED s) ::
                if bool_decide (s = Some false)
                   && Settings.soundsReactions (features_base_settings (store w))
                then [Called (sendAnalytics "createReactionSoundsDisabledEvent()")] else []) w)).
Proof.
  rewrite dispatchN_S. unfold middleware. js.
  destruct (bool_decide (s = Some false) && _); js; cbn; by list_norm.
Qed.

(** Unrolling [store.dispatch] three levels reaches every nested dispatch. *)
Lemma dispatchN_enough n a w : 3 <= n -> dispatchN n a w = dispatchN 3 a w.
Proof.
  intros Hn. destruct n as [|[|[|n]]]; try lia.
  destruct (leaf a) eqn:Hl; [by rewrite !dispatchN_leaf|].
  destruct a; try discriminate Hl;
    rewrite ?dispatchN_FLUSH, ?dispatchN_PUSH, ?dispatchN_SHOW_SOUNDS; try reflexivity.
Qed.

End Evaluation.

(** ** The flush (claims C6 and C7) *)

Section Flush.
Context `{Imports}.

Lemma omap_fmap_None {A B C} (f : B -> option C) (g : A -> B) (l : list A) :
  (forall x, f (g x) = None) -> omap f (map g l) = [].
Proof. intros Hfg. induction l as [|x l IH]; cbn; [done|]. by rewrite Hfg. Qed.

Lemma events_of_app {A} (m : Js A) w evs :
  trace (world (m w)) = trace w ++ evs -> events_of m w = evs.
Proof. intros Ht. unfold events_of. rewrite Ht. by rewrite drop_app_length. Qed.

Lemma events_of_logged {A} (m : Js A) (a : A) evs w :
  m w = (Normal a, logged evs w) -> events_of m w = evs.
Proof. intros Hm. apply events_of_app. by rewrite Hm. Qed.

Lemma dispatch_FLUSH_events w :
  events_of (dispatch flushReactionBuffer) w = flushEvents (store w) (clock w) (nextUid w).
Proof. apply events_of_app. unfold dispatch, flushReactionBuffer. by rewrite dispatchN_FLUSH. Qed.

Lemma flushCount_app l1 l2 : flushCount (l1 ++ l2) = flushCount l1 + flushCount l2.
Proof. unfold flushCount. by rewrite omap_app, length_app. Qed.

Lemma pushedBatches_app l1 l2 : pushedBatches (l1 ++ l2) = pushedBatches l1 ++ pushedBatches l2.
Proof. apply omap_app. Qed.

Lemma webhookReports_app l1 l2 :
  webhookReports (l1 ++ l2) = webhookReports l1 ++ webhookReports l2.
Proof. apply omap_app. Qed.

Ltac observe :=
  unfold flushEvents, pushEvents, showSoundsEvents, playSoundEvents, sendEvents,
    pushedBatches, sendRequests, endpointMessages, chatAppends, webhookReports, flushCount;
  rewrite ?omap_app;
  repeat match goal with |- context [if ?b then _ else _] => destruct b end;
  repeat match goal with |- context [match ?b with Some _ => _ | None => _ end] => destruct b end;
  cbn; rewrite ?omap_fmap_None by done; cbn; try done.

Lemma flushEvents_pushed st now u :
  pushedBatches (flushEvents st now u) = [Reactions.buffer (features_reactions st)].
Proof. observe. Qed.

Lemma flushEvents_flushCount st now u : flushCount (flushEvents st now u) = 1.
Proof. observe. Qed.

Lemma flushEvents_webhook st now u :
  webhookReports (flushEvents st now u) = [Reactions.buffer (features_reactions st)].
Proof. observe. Qed.

Lemma flushEvents_chat st now u :
  chatAppends (flushEvents st now u)
  = [getReactionMessageFromBuffer (Reactions.buffer (features_reactions st))].
Proof. observe. Qed.

Lemma flushEvents_requests st now u :
  sendRequests (flushEvents st now u) = if decide (1 < getParticipantCount st) then [tt] else [].
Proof. observe. Qed.

Lemma flushEvents_endpoint st now u :
  endpointMessages (flushEvents st now u)
  = if decide (1 < getParticipantCount st)
    then match BaseConference.conference (features_base_conference st) with
         | Some _ => [Reactions.buffer (features_reactions st)]
         | None => []
         end
    else [].
Proof. observe. Qed.

(** C7. Flushing a non-empty buffer: sending is requested (and, with a joined
    conference, an endpoint message leaves) exactly when more than one
    participant is counted, while the chat message and the push to the display
    queue happen whatever the count. *)
Theorem flush_sends_iff_more_than_one_participant (w : World) :
  let st := store w in
  let buffer := Reactions.buffer (features_reactions st) in
  let evs := events_of (dispatch flushReactionBuffer) w in
  let w' := world (dispatch flushReactionBuffer w) in
  buffer <> [] ->
  outcome (dispatch flushReactionBuffer w) = Normal tt
  /\ (sendRequests evs = [tt] <-> 1 < getParticipantCount st)
  /\ (sendRequests evs = [] <-> ~ 1 < getParticipantCount st)
  /\ (endpointMessages evs = [buffer]
      <-> 1 < getParticipantCount st /\ is_Some (BaseConference.conference (features_base_conference st)))
  /\ (endpointMessages evs = []
      <-> ~ (1 < getParticipantCount st /\ is_Some (BaseConference.conference (features_base_conference st))))
  /\ chatAppends evs = [getReactionMessageFromBuffer buffer]
  /\ pushedBatches evs = [buffer]
  /\ exists entries,
       Reactions.queue (features_reactions (store w'))
       = Reactions.queue (features_reactions st) ++ entries
       /\ map QueueEntry.reaction entries = buffer.
Proof.
  intros st buffer evs w' Hne. subst evs w'.
  rewrite dispatch_FLUSH_events, flushEvents_requests, flushEvents_endpoint, flushEvents_chat,
    flushEvents_pushed.
  unfold dispatch, flushReactionBuffer. rewrite dispatchN_FLUSH. cbn.
  fold st. fold buffer.
  assert (Hq : exists entries,
    Reactions.queue (features_reactions (flushStore st (nextUid w)))
    = Reactions.queue (features_reactions st) ++ entries
    /\ map QueueEntry.reaction entries = buffer).
  { exists (entriesFrom (nextUid w) buffer). split; [|apply entriesFrom_reaction].
    subst buffer. by destruct st as [[] ? ? ? ? ? ?]. }
  destruct (decide (1 < getParticipantCount st)) as [Hc|Hc];
    [destruct (BaseConference.conference (features_base_conference st)) as [c|]|];
    split_and!; try done; try tauto.
  all: try (intros Heq; by destruct buffer).
  all: try (intros; by destruct_and?; try eexists).
  all: split; [intros [=]|]; try done; try (intros [_ [? ?]]; done).
  all: try (intros Hn; destruct Hn; by eauto).
Qed.

(** The flush with the model's helper is the one the middleware runs. *)
Lemma flush_agrees w :
  WithFailures.flush (fun buffer => Normal (getReactionMessageFromBuffer buffer)) w
  = dispatch flushReactionBuffer w.
Proof. reflexivity. Qed.



End Flush.

Lemma flush_sends_witness :
  sendRequests (events_of (dispatch (H:=sampleImports) flushReactionBuffer) bufferedWorld) = [tt]
  /\ chatAppends (events_of (dispatch (H:=sampleImports) flushReactionBuffer) bufferedWorld)
     = [":like::clap::like:"].
Proof.
  destruct (flush_sends_iff_more_than_one_participant (H:=sampleImports) bufferedWorld)
    as (_ & Hs & _ & _ & _ & Hc & _); [done|].
  split; [apply Hs; cbn; lia|exact Hc].
Defined.



(** ** The debounced flush (claim C1) *)

Section Debounce.
Context `{Imports}.

Lemma filter_none {A} (P : A -> Prop) `{forall x, Decision (P x)} (l : list A) :
  Forall (fun x => ~ P x) l -> filter P l = [].
Proof.
  induction 1 as [|x l Hx _ IH]; [done|]. by rewrite filter_cons_False.
Qed.

Lemma advance_quiet t w :
  Forall (fun x => t < x.2) (timers w) ->
  advance t w
  = mkWorld (store w) (timers w) (clock w `max` t) (nextTimerId w) (nextUid w) (trace w).
Proof.
  intros Hq. unfold advance. rewrite filter_none; [done|].
  eapply Forall_impl; [exact Hq|]. cbn. lia.
Qed.

Lemma advance_due T w id d :
  timers w = [(id, d)] -> d <= T ->
  advance T w
  = mkWorld (flushStore (store w) (nextUid w)) [] ((clock w `max` d) `max` T) (nextTimerId w)
      (nextUid w + length (Reactions.buffer (features_reactions (store w))))
      (trace w ++ flushEvents (store w) (clock w `max` d) (nextUid w)).
Proof.
  intros Ht Hd. unfold advance. rewrite Ht.
  rewrite filter_cons_True by done. rewrite filter_nil. cbn [by_due foldr insert_by_due foldl].
  unfold fire. rewrite Ht. rewrite bool_decide_eq_true_2 by (apply list_elem_of_singleton; done).
  unfold setClock, removeTimer. js. unfold dispatch, flushReactionBuffer.
  rewrite dispatchN_FLUSH. cbn. rewrite Ht.
  rewrite filter_cons_False by (cbn; tauto). by rewrite filter_nil.
Qed.

(** One reaction arrives while no flush is due yet: whatever was pending is
    cancelled and a flush is scheduled 500 from now. *)
Lemma addReaction_step t reaction w :
  clock w <= t ->
  (timers w = [] \/ exists d, PendingFlush w d /\ t < d) ->
  let w' := addReaction t reaction w in
  PendingFlush w' (t + 500)
  /\ clock w' = t
  /\ Reactions.buffer (features_reactions (store w'))
     = Reactions.buffer (features_reactions (store w)) ++ [reaction]
  /\ Reactions.queue (features_reactions (store w')) = Reactions.queue (features_reactions (store w))
  /\ flushCount (trace w') = flushCount (trace w)
  /\ pushedBatches (trace w') = pushedBatches (trace w)
  /\ webhookReports (trace w') = webhookReports (trace w).
Proof.
  intros Hc Hp w'. subst w'. unfold addReaction.
  rewrite advance_quiet.
  2:{ destruct Hp as [->|(d & (id & -> & _) & Hd)]; repeat constructor. done. }
  unfold dispatch, addReactionToBuffer. rewrite dispatchN_ADD.
  cbn [world snd trace store timers clock features_reactions set_reactions
       Reactions.buffer Reactions.queue Reactions.timeoutID].
  assert (Hf : filter (fun x : TimerId * Millis =>
                         Some x.1 <> Reactions.timeoutID (features_reactions (store w))) (timers w) = []).
  { destruct Hp as [->|(d & (id & -> & ->) & Hd)]; [done|].
    rewrite filter_cons_False by (cbn; tauto). done. }
  rewrite Hf. cbn [app]. rewrite Nat.max_r by done.
  split_and!; try done.
  - by eexists.
  - rewrite flushCount_app. cbn. lia.
  - rewrite pushedBatches_app. cbn. by rewrite app_nil_r.
  - rewrite webhookReports_app. cbn. by rewrite app_nil_r.
Qed.

Lemma lastTime_snoc t events e : lastTime t (events ++ [e]) = e.1.
Proof. unfold lastTime. by rewrite foldl_app. Qed.

Lemma chronological_app from l1 l2 :
  chronological from (l1 ++ l2) -> chronological from l1.
Proof.
  revert from. induction l1 as [|e l1 IH]; intros from; cbn; [done|].
  intros [? ?]. split; [done|]. by apply IH.
Qed.

(** Reactions keep arriving before the pending flush is due: the flush keeps
    moving, nothing is flushed, the buffer grows in arrival order. *)
Lemma addReactions_window bound events w :
  PendingFlush w (clock w + 500) ->
  bound <= clock w + 500 ->
  chronological (clock w) events ->
  Forall (fun e => e.1 < bound) events ->
  let w' := addReactions events w in
  PendingFlush w' (lastTime (clock w) events + 500)
  /\ clock w' = lastTime (clock w) events
  /\ Reactions.buffer (features_reactions (store w'))
     = Reactions.buffer (features_reactions (store w)) ++ map snd events
  /\ Reactions.queue (features_reactions (store w')) = Reactions.queue (features_reactions (store w))
  /\ flushCount (trace w') = flushCount (trace w)
  /\ pushedBatches (trace w') = pushedBatches (trace w)
  /\ webhookReports (trace w') = webhookReports (trace w).
Proof.
  revert w. induction events as [|[t r] events IH]; intros w Hp Hb Hch Hw; cbn.
  - split_and!; try done. by rewrite app_nil_r.
  - destruct Hch as [Ht Hch]. apply Forall_cons in Hw as [Htb Hw]. cbn in Ht, Htb.
    destruct (addReaction_step t r w Ht) as (Hp1 & Hc1 & Hb1 & Hq1 & Hf1 & Hu1 & Hw1).
    { right. exists (clock w + 500). split; [done|lia]. }
    unfold addReactions in *. cbn [foldl fst snd].
    destruct (IH (addReaction t r w)) as (Hp2 & Hc2 & Hb2 & Hq2 & Hf2 & Hu2 & Hw2).
    + by rewrite Hc1.
    + rewrite Hc1. lia.
    + by rewrite Hc1.
    + done.
    + rewrite Hc1 in *. unfold lastTime in *. cbn [foldl fst].
      split_and!; try done; try congruence.
      rewrite Hb2, Hb1. by rewrite <- app_assoc.
Qed.

(** C1. Reactions added within one 500-unit window, starting with no flush
    pending and an empty buffer: each of them leaves exactly one flush pending,
    due 500 after it (the earlier one is cancelled); nothing is flushed while
    the window lasts; and once the last deadline has passed exactly one flush
    has run, which handed on every reaction of the window, in arrival order,
    and left the buffer empty and no timeout pending. *)
Theorem debounce_one_flush_per_window
    (w0 : World) (t0 : Millis) (r0 : Reaction) (rest : list (Millis * Reaction)) (T : Millis) :
  let events := (t0, r0) :: rest in
  timers w0 = [] ->
  Reactions.buffer (features_reactions (store w0)) = [] ->
  chronological (clock w0) events ->
  Forall (fun e => e.1 < t0 + 500) rest ->
  lastTime t0 rest + 500 <= T ->
  (forall pre e post, events = pre ++ e :: post ->
     PendingFlush (addReactions (pre ++ [e]) w0) (e.1 + 500))
  /\ flushCount (trace (addReactions events w0)) = flushCount (trace w0)
  /\ Reactions.buffer (features_reactions (store (addReactions events w0))) = map snd events
  /\ let w' := advance T (addReactions events w0) in
     flushCount (trace w') = flushCount (trace w0) + 1
     /\ pushedBatches (trace w') = pushedBatches (trace w0) ++ [map snd events]
     /\ webhookReports (trace w') = webhookReports (trace w0) ++ [map snd events]
     /\ Reactions.buffer (features_reactions (store w')) = []
     /\ timers w' = [].
Proof.
  intros events Hidle Hempty [Ht0 Hch] Hwin HT. cbn in Ht0, Hch.
  destruct (addReaction_step t0 r0 w0 Ht0 (or_introl Hidle))
    as (Hp1 & Hc1 & Hb1 & Hq1 & Hf1 & Hu1 & Hw1).
  set (w1 := addReaction t0 r0 w0) in *.
  rewrite Hempty in Hb1. cbn in Hb1.
  assert (Hrun : forall l, addReactions ((t0, r0) :: l) w0 = addReactions l w1) by done.
  assert (Hprefix : forall l, chronological t0 l -> Forall (fun e => e.1 < t0 + 500) l ->
    let w' := addReactions l w1 in
    PendingFlush w' (lastTime t0 l + 500)
    /\ Reactions.buffer (features_reactions (store w')) = r0 :: map snd l
    /\ flushCount (trace w') = flushCount (trace w0)
    /\ pushedBatches (trace w') = pushedBatches (trace w0)
    /\ webhookReports (trace w') = webhookReports (trace w0)).
  { intros l Hl Hwl.
    destruct (addReactions_window (t0 + 500) l w1) as (Hp & _ & Hb & _ & Hf & Hu & Hwb);
      rewrite ?Hc1; try done.
    rewrite Hc1 in Hp. split_and!; try done; try congruence. by rewrite Hb, Hb1. }
  split_and!.
  - intros pre e post Hev. destruct pre as [|e0 pre].
    + cbn in Hev. injection Hev as <- _. exact Hp1.
    + cbn in Hev. injection Hev as <- Hrest. cbn [app]. rewrite Hrun.
      destruct (Hprefix (pre ++ [e])) as (Hp & _).
      * apply chronological_app with post. rewrite <- app_assoc. cbn [app]. by rewrite <- Hrest.
      * rewrite Hrest in Hwin. apply Forall_app in Hwin as [Hpre Hpost].
        apply Forall_app. split; [done|]. apply Forall_cons in Hpost as [? _]. by constructor.
      * by rewrite lastTime_snoc in Hp.
  - subst events. rewrite Hrun. by destruct (Hprefix rest) as (_ & _ & ? & _).
  - subst events. rewrite Hrun. by destruct (Hprefix rest) as (_ & ? & _).
  - subst events. rewrite Hrun.
    destruct (Hprefix rest Hch Hwin) as ((id & Htm & Hid) & Hb & Hf & Hu & Hwb).
    rewrite (advance_due T _ id (lastTime t0 rest + 500)) by done.
    cbn [trace store timers].
    rewrite flushCount_app, pushedBatches_app, webhookReports_app.
    rewrite flushEvents_flushCount, flushEvents_pushed, flushEvents_webhook.
    by rewrite Hf, Hu, Hwb, Hb.
Qed.

End Debounce.

Lemma debounce_witness :
  pushedBatches (trace (advance (H:=sampleImports) 900 (addReactions (H:=sampleImports) sampleEvents sampleWorld)))
  = [["like"; "clap"; "like"]]
  /\ flushCount (trace (advance (H:=sampleImports) 900 (addReactions (H:=sampleImports) sampleEvents sampleWorld))) = 1.
Proof.
  destruct (debounce_one_flush_per_window (H:=sampleImports) sampleWorld 10 "like"
              [(200, "clap"); (400, "like")] 900) as (_ & _ & _ & Hf & Hp & _).
  - reflexivity.
  - reflexivity.
  - cbn; lia.
  - repeat constructor; cbn; lia.
  - cbn; lia.
  - split; [exact Hp|exact Hf].
Defined.

(** ** Every reaction is handed on exactly once *)

Section Conservation.
Context `{Imports}.

Lemma snoc_not_nil {A} (l : list A) (x : A) : l ++ [x] <> [].
Proof. by destruct l. Qed.

Lemma addReaction_settled t reaction w :
  clock w <= t -> Settled w ->
  let w' := addReaction t reaction w in
  Settled w'
  /\ clock w' = t
  /\ reactionsSeen w' = reactionsSeen w ++ [reaction]
  /\ (Forall (fun b => b <> []) (pushedBatches (trace w)) ->
      Forall (fun b => b <> []) (pushedBatches (trace w'))).
Proof.
  intros Hc Hs w'. subst w'.
  destruct Hs as [Hidle|(d & Hp & Hne)].
  - destruct (addReaction_step t reaction w Hc (or_introl Hidle)) as (Hp' & Hc' & Hb & _ & _ & Hu & _).
    split_and!; try done.
    + right. eexists. split; [done|]. rewrite Hb. apply snoc_not_nil.
    + unfold reactionsSeen. by rewrite Hu, Hb, app_assoc.
    + by rewrite Hu.
  - destruct (decide (t < d)) as [Hlt|Hge].
    + destruct (addReaction_step t reaction w Hc) as (Hp' & Hc' & Hb & _ & _ & Hu & _).
      { right. by exists d. }
      split_and!; try done.
      * right. eexists. split; [done|]. rewrite Hb. apply snoc_not_nil.
      * unfold reactionsSeen. by rewrite Hu, Hb, app_assoc.
      * by rewrite Hu.
    + destruct Hp as (id & Htm & Hid).
      unfold addReaction. rewrite (advance_due t w id d) by (done || lia).
      unfold dispatch, addReactionToBuffer. rewrite dispatchN_ADD.
      unfold reactionsSeen.
      cbn [world snd trace store timers clock nextTimerId features_reactions set_reactions flushStore
           Reactions.buffer Reactions.queue Reactions.timeoutID filter list_filter app].
      rewrite !pushedBatches_app, flushEvents_pushed.
      replace (pushedBatches [Dispatched (ADD_REACTION_BUFFER reaction None None);
                 Called (clearTimeout_ (Reactions.timeoutID (features_reactions (store w))));
                 Called (setTimeout_ (nextTimerId w) 500)]) with (@nil (list Reaction)) by done.
      rewrite app_nil_r.
      split_and!.
      * right. eexists. split; [by eexists|done].
      * lia.
      * rewrite concat_app. cbn. by rewrite app_nil_r.
      * intros Hall. apply Forall_app. split; [done|]. by constructor.
Qed.

(** Whatever the rhythm of the reactions, each of them is handed on exactly
    once: the flushed batches followed by the buffer are the reactions seen
    before followed by the new ones, in arrival order; and no flush that a
    timeout starts finds the buffer empty. *)
Theorem reactions_conserved (events : list (Millis * Reaction)) (w : World) :
  Settled w ->
  chronological (clock w) events ->
  let w' := addReactions events w in
  Settled w'
  /\ reactionsSeen w' = reactionsSeen w ++ map snd events
  /\ (Forall (fun b => b <> []) (pushedBatches (trace w)) ->
      Forall (fun b => b <> []) (pushedBatches (trace w'))).
Proof.
  revert w. induction events as [|[t r] events IH]; intros w Hs Hch; cbn.
  - split_and!; try done. by rewrite app_nil_r.
  - destruct Hch as [Ht Hch]. cbn in Ht, Hch.
    destruct (addReaction_settled t r w Ht Hs) as (Hs1 & Hc1 & Hr1 & Hf1).
    destruct (IH (addReaction t r w) Hs1) as (Hs2 & Hr2 & Hf2); [by rewrite Hc1|].
    unfold addReactions in *. cbn [foldl fst snd].
    split_and!; try done.
    + rewrite Hr2, Hr1. by rewrite <- app_assoc.
    + intros Hall. by apply Hf2, Hf1.
Qed.
End Conservation.

Lemma reactions_conserved_witness :
  reactionsSeen (addReactions (H:=sampleImports) [(10, "like"); (700, "clap"); (800, "boo")] sampleWorld)
  = ["like"; "clap"; "boo"].
Proof.
  destruct (reactions_conserved (H:=sampleImports) [(10, "like"); (700, "clap"); (800, "boo")]
              sampleWorld) as (_ & Hr & _).
  - left. reflexivity.
  - cbn. lia.
  - exact Hr.
Defined.

(** ** Debounce, not throttle *)

Section Burst.
Context `{Imports}.

Lemma addReactions_burst events w :
  PendingFlush w (clock w + 500) ->
  burst (clock w) events ->
  let w' := addReactions events w in
  PendingFlush w' (lastTime (clock w) events + 500)
  /\ clock w' = lastTime (clock w) events
  /\ Reactions.buffer (features_reactions (store w'))
     = Reactions.buffer (features_reactions (store w)) ++ map snd events
  /\ flushCount (trace w') = flushCount (trace w).
Proof.
  revert w. induction events as [|[t r] events IH]; intros w Hp Hb; cbn.
  - split_and!; try done. by rewrite app_nil_r.
  - destruct Hb as (Ht & Hlt & Hb). cbn in Ht, Hlt, Hb.
    destruct (addReaction_step t r w Ht) as (Hp1 & Hc1 & Hb1 & _ & Hf1 & _).
    { right. by exists (clock w + 500). }
    destruct (IH (addReaction t r w)) as (Hp2 & Hc2 & Hb2 & Hf2); rewrite ?Hc1; try done.
    unfold addReactions, lastTime in *. cbn [foldl fst snd]. rewrite Hc1 in *.
    split_and!; try done; try congruence.
    rewrite Hb2, Hb1. by rewrite <- app_assoc.
Qed.

(** However long a burst of reactions lasts, as long as each of them comes
    less than 500 after the one before, no flush runs: one flush stays pending,
    500 after the last reaction, and the buffer holds the whole burst. *)
Theorem sustained_burst_never_flushes
    (w0 : World) (t0 : Millis) (r0 : Reaction) (rest : list (Millis * Reaction)) :
  let events := (t0, r0) :: rest in
  let w' := addReactions events w0 in
  timers w0 = [] ->
  clock w0 <= t0 ->
  burst t0 rest ->
  flushCount (trace w') = flushCount (trace w0)
  /\ PendingFlush w' (lastTime t0 rest + 500)
  /\ Reactions.buffer (features_reactions (store w'))
     = Reactions.buffer (features_reactions (store w0)) ++ map snd events.
Proof.
  intros events w' Hidle Ht0 Hb. subst w' events.
  destruct (addReaction_step t0 r0 w0 Ht0 (or_introl Hidle)) as (Hp1 & Hc1 & Hb1 & _ & Hf1 & _).
  change (addReactions ((t0, r0) :: rest) w0) with (addReactions rest (addReaction t0 r0 w0)).
  destruct (addReactions_burst rest (addReaction t0 r0 w0)) as (Hp2 & _ & Hb2 & Hf2);
    rewrite ?Hc1; try done.
  rewrite Hc1 in Hp2. split_and!; try done; try congruence.
  rewrite Hb2, Hb1. cbn. by rewrite <- app_assoc.
Qed.
End Burst.

Lemma sustained_burst_witness :
  flushCount (trace (addReactions (H:=sampleImports)
                       [(0, "like"); (400, "clap"); (800, "like"); (1200, "boo")] sampleWorld)) = 0.
Proof.
  destruct (sustained_burst_never_flushes (H:=sampleImports) sampleWorld 0 "like"
              [(400, "clap"); (800, "like"); (1200, "boo")]) as (Hf & _).
  - reflexivity.
  - cbn; lia.
  - cbn; lia.
  - exact Hf.
Defined.

(** Two reactions 690 apart are flushed separately: the first flush has run
    before the second reaction arrives. *)
Example two_windows_two_flushes :
  pushedBatches (trace (advance (H:=sampleImports) 2000
                          (addReactions (H:=sampleImports) [(10, "like"); (700, "clap")] sampleWorld)))
  = [["like"]; ["clap"]].
Proof. reflexivity. Qed.

(** ** The mute command (claim C2) *)

Section MuteCommand.
Context `{Imports}.


Lemma onMuteReactionsCommand_unknown_sender attributes id w :
  getParticipantById (store w) id = None ->
  _onMuteReactionsCommand attributes (Some id) w
  = (Throw (TypeError "participantSendingCommand.local"), w).
Proof. intros Hp. unfold _onMuteReactionsCommand. js. rewrite Hp. by js. Qed.

End MuteCommand.


(** C2, the failing input. A command whose sender id is no known participant:
    the sender is not the local participant and has no moderator role, so the
    command is one to ignore, but reading [.local] of the participant that
    was not found throws to the conference that delivered the command. *)
Theorem mute_command_of_stranger_throws :
  let command := _onMuteReactionsCommand (H:=sampleImports) (mkAttributes (Some "false"))
                   (Some "mallory") in
  getParticipantById (Imports:=sampleImports) sampleState "mallory" = None
  /\ Participant.role <$> getParticipantById (Imports:=sampleImports) sampleState "mallory"
     <> Some "moderator"
  /\ command sampleWorld = (Throw (TypeError "participantSendingCommand.local"), sampleWorld)
  /\ outcome (command sampleWorld) <> Normal tt.
Proof. split_and!; try reflexivity; discriminate. Qed.

(** ** Lobby actions (claims C3, C4, C5, C8 and C9) *)

Section LobbyProofs.
Context `{Imports}.

Lemma approveKnockingParticipant_eval id w :
  approveKnockingParticipant id w = (Normal tt, logged (issued (store w) (lobbyApproveAccess id)) w).
Proof.
  unfold approveKnockingParticipant, issued. js.
  destruct (getCurrentConference (store w)); js; [done|].
  destruct w; cbn. by rewrite app_nil_r.
Qed.

Lemma rejectKnockingParticipant_eval id w :
  rejectKnockingParticipant id w = (Normal tt, logged (issued (store w) (lobbyDenyAccess id)) w).
Proof.
  unfold rejectKnockingParticipant, issued. js.
  destruct (getCurrentConference (store w)); js; [done|].
  destruct w; cbn. by rewrite app_nil_r.
Qed.

Lemma setKnockingParticipantApproval_eval id approved w :
  setKnockingParticipantApproval id approved w
  = (Normal Fulfilled,
     logged (issued (store w) (if approved then lobbyApproveAccess id else lobbyDenyAccess id)) w).
Proof.
  unfold setKnockingParticipantApproval, async, issued. js.
  destruct (getCurrentConference (store w)); [destruct approved|]; js; try done.
  destruct w; cbn. by rewrite app_nil_r.
Qed.

(** C5. Approving or rejecting a knocking participant does nothing but issue
    the command to the conference (nothing at all without a conference): the
    store, with its knocking set, the timers and the generators are as before.
    Approving the same participant twice issues the command twice and still
    changes nothing locally. *)
Theorem approval_leaves_local_state_alone (id : string) (approved : bool) (w : World) :
  let st := store w in
  setKnockingParticipantApproval id approved w
    = (Normal Fulfilled,
       logged (issued st (if approved then lobbyApproveAccess id else lobbyDenyAccess id)) w)
  /\ approveKnockingParticipant id w = (Normal tt, logged (issued st (lobbyApproveAccess id)) w)
  /\ rejectKnockingParticipant id w = (Normal tt, logged (issued st (lobbyDenyAccess id)) w)
  /\ (let w2 := world (approveKnockingParticipant id (world (approveKnockingParticipant id w))) in
      store w2 = st
      /\ getKnockingParticipants (store w2) = getKnockingParticipants st
      /\ (is_Some (getCurrentConference st) ->
            trace w2 = trace w ++ [Called (lobbyApproveAccess id); Called (lobbyApproveAccess id)])).
Proof.
  intros st. split_and!.
  - apply setKnockingParticipantApproval_eval.
  - apply approveKnockingParticipant_eval.
  - apply rejectKnockingParticipant_eval.
  - rewrite !approveKnockingParticipant_eval. cbn. split_and!; try done.
    intros [c Hc]. unfold issued. fold st. rewrite Hc. by rewrite <- app_assoc.
Qed.



(** Where no approve call throws, [admitMultiple] is the thunk above. *)
Lemma admitMultiple_agrees result participants w :
  (forall id, WithFailures.throws (result id) = false) ->
  WithFailures.admitMultiple result participants w = admitMultiple participants w.
Proof.
  intros Hr. unfold WithFailures.admitMultiple, admitMultiple. js.
  generalize (getCurrentConference (store w)). intros conference. revert w.
  induction participants as [|p l IH]; intros w; [done|].
  cbn [forEach]. js. destruct conference as [c|]; js; [|done].
  unfold WithFailures.conference_lobbyApproveAccess. js.
  specialize (Hr (Knocking.id p)). destruct (result (Knocking.id p)); try discriminate Hr; js;
    apply IH.
Qed.




Lemma admitMultiple_without_conference p participants w :
  getCurrentConference (store w) = None ->
  admitMultiple (p :: participants) w = (Throw (TypeError "conference.lobbyApproveAccess"), w).
Proof. intros Hc. unfold admitMultiple. js. rewrite Hc. cbn [forEach]. by js. Qed.

Lemma events_of_async_then (body : Js unit) w :
  events_of (_ ← async body; mret tt) w = events_of (async body) w.
Proof. unfold events_of, async. js. by destruct (body w) as [[a|e] w']. Qed.

Lemma existsb_knocking id (l : list Knocking.t) :
  existsb (fun p => bool_decide (Knocking.id p = id)) l = true
  <-> exists p, p ∈ l /\ Knocking.id p = id.
Proof.
  rewrite existsb_exists. split.
  - intros (p & Hin & Hp). exists p. split; [by apply list_elem_of_In|].
    by apply bool_decide_eq_true in Hp.
  - intros (p & Hin & Hp). exists p. split; [by apply list_elem_of_In|].
    by apply bool_decide_eq_true.
Qed.

(** C3. With a current conference, a [LOBBY_CHAT_INITIALIZED] message (the
    listener hands it to [handleLobbyChatInitialized]) records the pairing: the
    pairing action is dispatched and the attendee's entry in the knocking set
    names the moderator. It shows exactly one notification naming both exactly
    when the attendee is knocking, the conference role is moderator and the
    initiating moderator is not this client; otherwise it shows none. *)
Theorem chat_initialized_notifies_other_moderators
    (payload : ChatInitialized) (sender : string) (c : Conference.t) (w : World) :
  let st := store w in
  let run := handleLobbyChatInitialized payload in
  let M1 := moderator payload in
  let X := attendee payload in
  let informed :=
    (exists p, p ∈ getKnockingParticipants st /\ Knocking.id p = Party.id X)
    /\ Conference.getRole c = "moderator"
    /\ Some (Party.id M1) <> Conference.myLobbyUserId c in
  getCurrentConference st = Some c ->
  outcome (run w) = Normal Fulfilled
  /\ events_of (lobbyMessageListener (LOBBY_CHAT_INITIALIZED payload) sender) w = events_of run w
  /\ actions (events_of run w)
     = SET_LOBBY_PARTICIPANT_CHAT_STATE X M1 :: ON_LOBBY_CHAT_INITIALIZED payload
       :: map (fun n => SHOW_NOTIFICATION n None) (notifications (events_of run w))
  /\ (forall p, p ∈ getKnockingParticipants (store (world (run w))) ->
        Knocking.id p = Party.id X -> Knocking.chattingWithModerator p = Some (Party.id M1))
  /\ (notifications (events_of run w) = [chatStartedNotification payload] <-> informed)
  /\ (notifications (events_of run w) = [] <-> ~ informed).
Proof.
  intros st run M1 X informed Hc. subst run.
  set (heard := events_of (lobbyMessageListener (LOBBY_CHAT_INITIALIZED payload) sender) w).
  assert (Hl : heard = events_of (handleLobbyChatInitialized payload) w)
    by apply events_of_async_then.
  rewrite Hl. clear heard Hl.
  unfold handleLobbyChatInitialized, async, events_of. js. fold st. rewrite Hc. js.
  unfold dispatch. rewrite !dispatchN_leaf by done. js.
  set (cond := existsb _ _ && _ && _).
  assert (Hcond : cond = true <-> informed).
  { subst cond informed. rewrite !andb_true_iff, existsb_knocking, bool_decide_eq_true,
      negb_true_iff, bool_decide_eq_false. tauto. }
  assert (Hpair : forall p,
    p ∈ getKnockingParticipants (reducer (ON_LOBBY_CHAT_INITIALIZED payload)
          (reducer (SET_LOBBY_PARTICIPANT_CHAT_STATE X M1) st)) ->
    Knocking.id p = Party.id X -> Knocking.chattingWithModerator p = Some (Party.id M1)).
  { intros p Hin Hid. unfold getKnockingParticipants, reducer in Hin. cbn in Hin.
    apply list_elem_of_fmap in Hin as (q & -> & _).
    destruct (decide (Knocking.id q = Party.id X)) as [|Hne]; [done|].
    cbn in Hid. by destruct Hne. }
  destruct cond.
  - unfold showNotification. rewrite dispatchN_leaf by done. js.
    rewrite <- !app_assoc, drop_app_length. cbn.
    split_and!; try done.
    + split; [intros _; by apply Hcond|done].
    + split; [done|]. intros Hn. destruct Hn. by apply Hcond.
  - js. rewrite <- !app_assoc, drop_app_length. cbn.
    split_and!; try done.
    + split; [done|]. intros Hi. by apply Hcond in Hi.
    + split; [|done]. intros _ Hi. by apply Hcond in Hi.
Qed.

(** [MODERATOR_IN_CHAT_WITH_LEFT] for moderator [M] (the listener hands it to
    [updateLobbyParticipantOnModeratorLeave]). On a knocking client whose
    lobby chat recipient is [M] the chat is terminated, and delivering the
    event again changes nothing at all. On a client that is not knocking,
    with a joined conference or with nobody to notify, the first knocking
    participant chatting with [M] is sent the lobby message, and afterwards no
    entry of the knocking set names [M]; the set itself is as before. *)
Theorem moderator_left_handling (M : string) (sender : string) (w : World) :
  let st := store w in
  let run := updateLobbyParticipantOnModeratorLeave M in
  let w' := world (run w) in
  events_of (lobbyMessageListener (MODERATOR_IN_CHAT_WITH_LEFT M) sender) w = events_of run w
  /\
  (Lobby.knocking (features_lobby st) = true ->
   (exists r, Chat.lobbyMessageRecipient (features_chat st) = Some r /\ Party.id r = M) ->
     outcome (run w) = Normal Fulfilled
     /\ events_of run w = [Dispatched (REMOVE_LOBBY_CHAT_PARTICIPANT true)]
     /\ store w' = chatTerminated st
     /\ run w' = (Normal Fulfilled, w'))
  /\ (Lobby.knocking (features_lobby st) = false ->
      is_Some (BaseConference.conference (features_base_conference st))
        \/ participantToNotify M st = None ->
        outcome (run w) = Normal Fulfilled
        /\ calls (events_of run w)
           = match participantToNotify M st with
             | Some p => [sendLobbyMessage (MODERATOR_IN_CHAT_WITH_LEFT M) (Some (Knocking.id p))]
             | None => []
             end
        /\ actions (events_of run w) = [REMOVE_LOBBY_CHAT_WITH_MODERATOR M]
        /\ (forall p, p ∈ getKnockingParticipants (store w') ->
              Knocking.chattingWithModerator p <> Some M)
        /\ map Knocking.id (getKnockingParticipants (store w'))
           = map Knocking.id (getKnockingParticipants st)).
Proof.
  intros st run w'. subst run w'. split; [apply events_of_async_then|]. split.
  - intros Hk (r & Hr & Hid).
    unfold updateLobbyParticipantOnModeratorLeave, async, events_of. js. fold st.
    rewrite Hk, Hr. cbn [from_option andb]. rewrite bool_decide_eq_true_2 by done.
    unfold dispatch, removeLobbyChatParticipant. rewrite dispatchN_leaf by done. js.
    rewrite drop_app_length.
    assert (Hst : reducer (REMOVE_LOBBY_CHAT_PARTICIPANT true) st = chatTerminated st).
    { destruct st as [[] [] [] ? [] [] []]. done. }
    assert (Hk' : Lobby.knocking (features_lobby (chatTerminated st)) = true) by done.
    assert (Hr' : Chat.lobbyMessageRecipient (features_chat (chatTerminated st)) = None) by done.
    fold st. rewrite !Hst, Hk', Hr'. cbn [from_option andb negb]. js.
    split_and!; try done.
  - intros Hk Hconf.
    unfold updateLobbyParticipantOnModeratorLeave, async, events_of. js. fold st.
    rewrite Hk. cbn [andb negb]. fold (participantToNotify M st).
    assert (Hclean : forall p,
      p ∈ getKnockingParticipants (reducer (REMOVE_LOBBY_CHAT_WITH_MODERATOR M) st) ->
      Knocking.chattingWithModerator p <> Some M).
    { intros p Hin. unfold getKnockingParticipants, reducer in Hin. cbn in Hin.
      apply list_elem_of_fmap in Hin as (q & -> & _).
      by destruct (decide (Knocking.chattingWithModerator q = Some M)). }
    assert (Hids : map Knocking.id
                     (getKnockingParticipants (reducer (REMOVE_LOBBY_CHAT_WITH_MODERATOR M) st))
                   = map Knocking.id (getKnockingParticipants st)).
    { unfold getKnockingParticipants, reducer. cbn. rewrite map_map. apply map_ext.
      intros q. by destruct (decide _). }
    destruct (participantToNotify M st) as [p|] eqn:Hfind.
    + destruct Hconf as [[c Hc]|?]; [|done]. rewrite Hc. js.
      unfold dispatch. rewrite dispatchN_leaf by done. js.
      rewrite <- !app_assoc, drop_app_length. cbn.
      apply find_some in Hfind as [_ Hp]. apply bool_decide_eq_true in Hp. rewrite Hp. cbn.
      split_and!; done.
    + js. unfold dispatch. rewrite dispatchN_leaf by done. js.
      rewrite drop_app_length. cbn. split_and!; done.
Qed.

End LobbyProofs.

Lemma approval_witness :
  trace (world (approveKnockingParticipant (H:=sampleImports) "dave"
                  (world (approveKnockingParticipant (H:=sampleImports) "dave" sampleWorld))))
  = [Called (lobbyApproveAccess "dave"); Called (lobbyApproveAccess "dave")].
Proof.
  destruct (approval_leaves_local_state_alone (H:=sampleImports) "dave" true sampleWorld)
    as (_ & _ & _ & _ & _ & Ht).
  apply Ht. eexists. reflexivity.
Defined.



Lemma chat_initialized_witness :
  notifications (events_of (handleLobbyChatInitialized (H:=sampleImports) carolAndDave) sampleWorld)
  = [chatStartedNotification carolAndDave].
Proof.
  destruct (chat_initialized_notifies_other_moderators (H:=sampleImports) carolAndDave "carol" room
              sampleWorld eq_refl) as (_ & _ & _ & _ & Hn & _).
  apply Hn. split_and!.
  - exists dave. split; [apply list_elem_of_here|reflexivity].
  - reflexivity.
  - discriminate.
Defined.

Lemma moderator_left_witness :
  events_of (updateLobbyParticipantOnModeratorLeave (H:=sampleImports) "carol") erinWorld
    = [Dispatched (REMOVE_LOBBY_CHAT_PARTICIPANT true)]
  /\ calls (events_of (updateLobbyParticipantOnModeratorLeave (H:=sampleImports) "carol") sampleWorld)
     = [sendLobbyMessage (MODERATOR_IN_CHAT_WITH_LEFT "carol") (Some "erin")].
Proof.
  destruct (moderator_left_handling (H:=sampleImports) "carol" "bob" erinWorld) as (_ & Ha & _).
  destruct (moderator_left_handling (H:=sampleImports) "carol" "bob" sampleWorld) as (_ & _ & Hm).
  split.
  - apply Ha; [reflexivity|]. eexists. split; reflexivity.
  - apply Hm; [reflexivity|]. left. eexists. reflexivity.
Defined.

(** C4, the failing input. Carol left while Erin was chatting with her; on a
    client that is not knocking and has no joined conference the thunk throws
    at [conference.sendLobbyMessage], inside its promise: Erin is not told,
    [REMOVE_LOBBY_CHAT_WITH_MODERATOR] is never dispatched and Erin's entry
    keeps naming Carol. *)
Theorem moderator_left_keeps_stale_pairing :
  let run := updateLobbyParticipantOnModeratorLeave (H:=sampleImports) "carol" in
  Lobby.knocking (features_lobby (store lonelyWorld)) = false
  /\ BaseConference.conference (features_base_conference (store lonelyWorld)) = None
  /\ participantToNotify "carol" (store lonelyWorld) = Some erin
  /\ outcome (run lonelyWorld) = Normal (Rejected (TypeError "conference.sendLobbyMessage"))
  /\ events_of run lonelyWorld = []
  /\ participantToNotify "carol" (store (world (run lonelyWorld))) = Some erin.
Proof. split_and!; reflexivity. Qed.

(** C9, the failing inputs. [admitMultiple] without a current conference and
    the mute command from a sender that is no known participant throw to their
    caller, before anything is issued or changed; [startKnocking] without a
    members-only conference, or without a local participant, rejects its
    promise half-way and never reaches [setKnockingState]. *)
Theorem handlers_let_errors_escape :
  admitMultiple (H:=sampleImports) [dave; erin] lonelyWorld
    = (Throw (TypeError "conference.lobbyApproveAccess"), lonelyWorld)
  /\ _onMuteReactionsCommand (H:=sampleImports) (mkAttributes (Some "true")) (Some "mallory")
       sampleWorld
     = (Throw (TypeError "participantSendingCommand.local"), sampleWorld)
  /\ outcome (startKnocking (H:=sampleImports) lonelyWorld)
     = Normal (Rejected (TypeError "conference.addCommandListener"))
  /\ outcome (startKnocking (H:=sampleImports) outsideWorld)
     = Normal (Rejected (TypeError "localParticipant.name"))
  /\ actions (trace (world (startKnocking (H:=sampleImports) outsideWorld)))
     = [CONFERENCE_WILL_JOIN (Some room)].
Proof. split_and!; reflexivity. Qed.

(** The same thunks on inputs whose referents exist. *)
Lemma handlers_complete_on_good_inputs :
  outcome (admitMultiple (H:=sampleImports) [dave; erin] sampleWorld) = Normal tt
  /\ outcome (approveKnockingParticipant (H:=sampleImports) "dave" lonelyWorld) = Normal tt
  /\ outcome (_onMuteReactionsCommand (H:=sampleImports) (mkAttributes (Some "true")) (Some "carol")
                sampleWorld) = Normal tt.
Proof. split_and!; reflexivity. Qed.

(** ** Knocking and the lobby message listener *)

Section Knock.
Context `{Imports}.

Lemma async_then_returns (body : Js unit) w :
  outcome ((_ ← async body; mret tt) w) = Normal tt.
Proof. unfold async. js. by destruct (body w) as [[a|e] w']. Qed.

Lemma setLobbyMessageListener_eval w :
  exists p, setLobbyMessageListener w
  = (Normal p,
     logged (if default true (Config.enableLobbyChat (features_base_config (store w)))
             then match getCurrentConference (store w) with
                  | Some _ => [Called addLobbyMessageListener]
                  | None => []
                  end
             else []) w).
Proof.
  unfold setLobbyMessageListener, async. js.
  destruct (default true _); cbn [negb]; [destruct (getCurrentConference (store w))|]; js;
    eexists; f_equal; destruct w; cbn; by rewrite ?app_nil_r.
Qed.

(** [startKnocking] in front of a members-only conference, with a local
    participant: the conference is announced to the store, the lobby is joined
    with the participant's name and email, the listener for lobby messages is
    registered when lobby chat is enabled and a current conference is found,
    and the knocking state is set. *)
Theorem startKnocking_joins_lobby (m : Conference.t) (p : Participant.t) (w : World) :
  let st := store w in
  let w' := world (startKnocking w) in
  BaseConference.membersOnly (features_base_conference st) = Some m ->
  getLocalParticipant st = Some p ->
  outcome (startKnocking w) = Normal Fulfilled
  /\ actions (events_of startKnocking w) = [CONFERENCE_WILL_JOIN (Some m); SET_KNOCKING_STATE true]
  /\ calls (events_of startKnocking w)
     = [addCommandListener MUTE_REACTIONS_COMMAND; sendLocalParticipant;
        joinLobby (Participant.name p) (Participant.email p)]
       ++ (if default true (Config.enableLobbyChat (features_base_config st))
           then match getCurrentConference st with
                | Some _ => [addLobbyMessageListener]
                | None => []
                end
           else [])
  /\ Lobby.knocking (features_lobby (store w')) = true
  /\ getKnockingParticipants (store w') = getKnockingParticipants st.
Proof.
  intros st w' Hm Hp. subst w'.
  unfold startKnocking, async, events_of. js. fold st. rewrite Hm, Hp.
  unfold dispatch, conferenceWillJoin, setKnockingState.
  rewrite dispatchN_S. unfold middleware. js.
  set (w1 := mkWorld _ _ _ _ _ _).
  destruct (setLobbyMessageListener_eval w1) as (r & Hr). rewrite Hr. js.
  rewrite dispatchN_leaf by done. js.
  assert (Hst : store w1 = st).
  { subst w1 st. destruct w as [[[] [] [] ? [] [] []] ? ? ? ? ?]. done. }
  rewrite Hst. subst w1. cbn [trace].
  list_norm. rewrite drop_app_length.
  split_and!; try done.
  - unfold actions. cbn. rewrite omap_app. cbn.
    destruct (default true _); [destruct (getCurrentConference st)|]; done.
  - unfold calls. cbn. rewrite omap_app. cbn.
    destruct (default true _); [destruct (getCurrentConference st)|]; done.
Qed.
End Knock.

Lemma startKnocking_witness :
  calls (events_of (startKnocking (H:=sampleImports)) knockingAtTheDoor)
  = [addCommandListener "mute-reactions"; sendLocalParticipant;
     joinLobby "Alice" "alice@example.org"; addLobbyMessageListener].
Proof.
  destruct (startKnocking_joins_lobby (H:=sampleImports) room alice knockingAtTheDoor
              eq_refl eq_refl) as (_ & _ & Hc & _).
  exact Hc.
Defined.

(** ** The message recipient (claim C10) *)

Section Recipient.
Context `{Imports}.

(** C10 (as amended). In the web [MessageRecipient]: with a private-message
    recipient and an active challenge-response recipient both set, the element
    (if any) shows the challenge-response recipient's name and closes through
    [_onHideChallengeResponseRecipient], also from the keyboard; while the
    challenge-response chat is active the element is rendered exactly when the
    local participant is a moderator; and with no private-message recipient and
    the challenge-response chat not active nothing is rendered. *)
Theorem challenge_response_recipient_takes_precedence (st : ReduxState) :
  let chat := features_chat st in
  let props := _mapStateToProps st in
  (forall p c, Chat.privateMessageRecipient chat = Some p ->
               Chat.challengeResponseRecipient chat = Some c ->
               Chat.challengeResponseIsActive chat = true ->
     render props
     = (if isLocalParticipantModerator st
        then Some (mkElement "challenge-response-recipient" "chat.challengeResponseMessageTo"
                     (Some (Party.name c)) _onHideChallengeResponseRecipient)
        else None)
     /\ _onKeyPress props "Enter" = Some _onHideChallengeResponseRecipient
     /\ _onKeyPress props " " = Some _onHideChallengeResponseRecipient)
  /\ (Chat.challengeResponseIsActive chat = true ->
        (is_Some (render props) <-> isLocalParticipantModerator st = true))
  /\ (Chat.privateMessageRecipient chat = None ->
      Chat.challengeResponseIsActive chat = false ->
        render props = None).
Proof.
  intros chat props. subst props chat. unfold _mapStateToProps, render, _onKeyPress. cbn.
  split_and!.
  - intros p c -> -> ->. cbn. rewrite andb_false_r. cbn.
    by destruct (isLocalParticipantModerator st).
  - intros ->. rewrite andb_false_r. cbn.
    destruct (isLocalParticipantModerator st); cbn; split; done.
  - by intros -> ->.
Qed.

End Recipient.

(** C10, the claim as stated fails: neither recipient is set, yet the element
    is rendered, with no recipient name. *)
Lemma rendered_without_any_recipient :
  Chat.privateMessageRecipient (features_chat activeWithoutRecipient) = None
  /\ Chat.challengeResponseRecipient (features_chat activeWithoutRecipient) = None
  /\ _mapStateToProps (H:=sampleImports) activeWithoutRecipient = mkProps None true None true
  /\ render (_mapStateToProps (H:=sampleImports) activeWithoutRecipient)
     = Some (mkElement "challenge-response-recipient" "chat.challengeResponseMessageTo" None
               _onHideChallengeResponseRecipient).
Proof. split_and!; reflexivity. Qed.

Lemma challenge_response_witness :
  render (_mapStateToProps (H:=sampleImports) bothRecipients)
  = Some (mkElement "challenge-response-recipient" "chat.challengeResponseMessageTo" (Some "Dave")
            _onHideChallengeResponseRecipient).
Proof.
  destruct (challenge_response_recipient_takes_precedence (H:=sampleImports) bothRecipients)
    as (Hb & _ & _).
  destruct (Hb (Party.mk "bob" "Bob") (Party.mk "dave" "Dave") eq_refl eq_refl eq_refl) as [Hr _].
  exact Hr.
Defined.

(** ** Sound registration *)

Lemma omap_imap_Some {A B C} (f : nat -> A -> B) (g : B -> option C) (h : A -> C) (l : list A) :
  (forall i x, g (f i x) = Some (h x)) -> omap g (imap f l) = map h l.
Proof.
  intros Hg. revert f Hg. induction l as [|x l IH]; intros f Hg; cbn; [done|].
  rewrite Hg. f_equal. apply IH. intros i y. apply Hg.
Qed.

Lemma omap_imap_None {A B C} (f : nat -> A -> B) (g : B -> option C) (l : list A) :
  (forall i x, g (f i x) = None) -> omap g (imap f l) = [].
Proof.
  intros Hg. revert f Hg. induction l as [|x l IH]; intros f Hg; cbn; [done|].
  rewrite Hg. apply IH. intros i y. apply Hg.
Qed.

Lemma omap_flat_map {A B C} (g : B -> option C) (f : A -> list B) (l : list A) :
  omap g (flat_map f l) = flat_map (fun x => omap g (f x)) l.
Proof. induction l as [|x l IH]; cbn; [done|]. by rewrite omap_app, IH. Qed.

Lemma flat_map_nil_all {A B} (f : A -> list B) (l : list A) :
  (forall x, f x = []) -> flat_map f l = [].
Proof. intros Hf. induction l as [|x l IH]; cbn; [done|]. by rewrite Hf, IH. Qed.

Lemma length_flat_map_const {A B} (f : A -> list B) (l : list A) n :
  (forall x, length (f x) = n) -> length (flat_map f l) = length l * n.
Proof. intros Hf. induction l as [|x l IH]; cbn; [done|]. rewrite length_app, Hf, IH. lia. Qed.

(** The registrations that carry no file: the tiers past the end of
    [soundFiles]. *)
Lemma omap_imap_without_file (entry : ReactionEntry.t) (TH : list nat) :
  omap isRegisterWithoutFile
    (imap (fun i threshold =>
             REGISTER_SOUND (thresholdSoundId entry threshold) (ReactionEntry.soundFiles entry !! i)) TH)
  = map (thresholdSoundId entry) (drop (length (ReactionEntry.soundFiles entry)) TH).
Proof.
  generalize (ReactionEntry.soundFiles entry) as files. intros files.
  revert files. induction TH as [|th TH IH]; intros files; [by rewrite drop_nil|].
  destruct files as [|f files]; cbn.
  - f_equal. specialize (IH []). cbn in IH. rewrite drop_0 in IH. exact IH.
  - apply IH.
Qed.

(** Every sound the application registers when it mounts is unregistered
    when it unmounts, in the same order: one per reaction and threshold, and
    the raise-hand sound. A reaction with fewer sound files than there are
    thresholds has its upper tiers registered without a file. *)
Theorem sounds_registered_are_unregistered
    (REACTIONS : list (Reaction * ReactionEntry.t)) (SOUNDS_THRESHOLDS : list nat)
    (RAISE_HAND_SOUND_ID RAISE_HAND_SOUND_FILE : string) :
  let mount := appWillMount REACTIONS SOUNDS_THRESHOLDS RAISE_HAND_SOUND_ID RAISE_HAND_SOUND_FILE in
  let unmount := appWillUnmount REACTIONS SOUNDS_THRESHOLDS RAISE_HAND_SOUND_ID in
  unregisteredSounds unmount = registeredSounds mount
  /\ registeredSounds mount
     = flat_map (fun key => map (thresholdSoundId key.2) SOUNDS_THRESHOLDS) REACTIONS
       ++ [RAISE_HAND_SOUND_ID]
  /\ length mount = length REACTIONS * length SOUNDS_THRESHOLDS + 1
  /\ length unmount = length mount
  /\ registeredSounds unmount = []
  /\ unregisteredSounds mount = []
  /\ omap isRegisterWithoutFile mount
     = flat_map (fun key =>
         map (thresholdSoundId key.2)
           (drop (length (ReactionEntry.soundFiles key.2)) SOUNDS_THRESHOLDS)) REACTIONS.
Proof.
  intros mount unmount. subst mount unmount.
  unfold appWillMount, appWillUnmount, registeredSounds, unregisteredSounds.
  rewrite !omap_app, !omap_flat_map, !length_app. cbn [omap isRegister isUnregister
    isRegisterWithoutFile length app].
  split_and!.
  - f_equal. apply flat_map_ext. intros key.
    rewrite (omap_imap_Some _ _ (thresholdSoundId key.2)) by done.
    by rewrite (omap_imap_Some _ _ (thresholdSoundId key.2)).
  - f_equal. apply flat_map_ext. intros key. by apply omap_imap_Some.
  - f_equal. apply length_flat_map_const. intros key. by rewrite length_imap.
  - f_equal. rewrite !(length_flat_map_const _ _ (length SOUNDS_THRESHOLDS)); [done|..];
      intros key; by rewrite length_imap.
  - rewrite app_nil_r. apply flat_map_nil_all. intros key. by apply omap_imap_None.
  - rewrite app_nil_r. apply flat_map_nil_all. intros key. by apply omap_imap_None.
  - rewrite app_nil_r. apply flat_map_ext. intros key. apply omap_imap_without_file.
Qed.

(** ** Pushing reactions to the display queue *)

Section Push.
Context `{Imports}.

Lemma dispatch_PUSH_events rs w :
  events_of (dispatch (PUSH_REACTIONS rs)) w = pushEvents (store w) (nextUid w) rs.
Proof. apply events_of_app. unfold dispatch. by rewrite dispatchN_PUSH. Qed.

Lemma playedSounds_play (l : list (Reaction * nat)) :
  omap isPlaySound (map (fun r => Dispatched (PLAY_SOUND (REACTIONS_soundId r.1) r.2)) l)
  = map (fun r => REACTIONS_soundId r.1 +:+ pretty r.2) l.
Proof. induction l as [|r l IH]; [done|]. cbn [map omap list_omap isPlaySound]. by rewrite IH. Qed.

Lemma playedSounds_pushEvents st u rs :
  playedSounds (pushEvents st u rs)
  = if Settings.soundsReactions (features_base_settings st)
    then map (fun r => REACTIONS_soundId r.1 +:+ pretty r.2) (getReactionsSoundsThresholds rs)
    else [].
Proof.
  unfold pushEvents, playedSounds, playSoundEvents, showSoundsEvents. rewrite !omap_app.
  destruct (soundsNotice st); destruct (Settings.soundsReactions _);
    rewrite ?playedSounds_play; cbn; by rewrite ?app_nil_r.
Qed.

Lemma notifications_pushEvents st u rs :
  notifications (pushEvents st u rs) = if soundsNotice st then [soundsNotification st] else [].
Proof.
  unfold pushEvents, notifications, playSoundEvents, showSoundsEvents. rewrite !omap_app.
  destruct (soundsNotice st); cbn [omap isNotification app];
    destruct (Settings.soundsReactions _); cbn [omap isNotification app];
    rewrite ?omap_fmap_None by done; done.
Qed.

(** Every sound a push of reactions plays was registered when the application
    mounted, as long as the thresholds reached are among [SOUNDS_THRESHOLDS]
    and the reactions are keys of [REACTIONS]. *)
Theorem played_sounds_are_registered
    (REACTIONS : list (Reaction * ReactionEntry.t)) (SOUNDS_THRESHOLDS : list nat)
    (RAISE_HAND_SOUND_ID RAISE_HAND_SOUND_FILE : string) (rs : list Reaction) (w : World) :
  (forall r, r ∈ getReactionsSoundsThresholds rs ->
     r.2 ∈ SOUNDS_THRESHOLDS
     /\ exists entry, (r.1, entry) ∈ REACTIONS
                      /\ REACTIONS_soundId r.1 = ReactionEntry.soundId entry) ->
  forall soundId, soundId ∈ playedSounds (events_of (dispatch (PUSH_REACTIONS rs)) w) ->
    soundId ∈ registeredSounds
                (appWillMount REACTIONS SOUNDS_THRESHOLDS RAISE_HAND_SOUND_ID RAISE_HAND_SOUND_FILE).
Proof.
  intros Hknown soundId Hplayed.
  rewrite dispatch_PUSH_events, playedSounds_pushEvents in Hplayed.
  destruct (Settings.soundsReactions _); [|by apply elem_of_nil in Hplayed].
  apply list_elem_of_fmap in Hplayed as (r & -> & Hr).
  destruct (Hknown r Hr) as (Hth & entry & Hentry & Hid).
  unfold registeredSounds, appWillMount. rewrite omap_app, omap_flat_map.
  apply elem_of_app. left. apply list_elem_of_In, in_flat_map.
  exists (r.1, entry). split; [by apply list_elem_of_In|].
  apply list_elem_of_In.
  rewrite (omap_imap_Some _ _ (thresholdSoundId entry)) by done.
  apply list_elem_of_fmap. exists r.2. split; [|done].
  unfold thresholdSoundId. by rewrite Hid.
Qed.

Lemma pushAll_trace batches w :
  exists evs, trace (pushAll batches w) = trace w ++ evs
    /\ length (notifications evs)
       <= (if Reactions.notificationDisplayed (features_reactions (store w)) then 0 else 1)
    /\ (Reactions.notificationDisplayed (features_reactions (store w)) = true ->
        Reactions.notificationDisplayed (features_reactions (store (pushAll batches w))) = true).
Proof.
  revert w. induction batches as [|rs batches IH]; intros w.
  - exists []. cbn. rewrite app_nil_r. split_and!; try done. destruct (Reactions.notificationDisplayed _); lia.
  - cbn [pushAll foldl]. fold (pushAll batches (world (dispatch (PUSH_REACTIONS rs) w))).
    destruct (IH (world (dispatch (PUSH_REACTIONS rs) w))) as (evs & Ht & Hn & Hd).
    exists (pushEvents (store w) (nextUid w) rs ++ evs).
    unfold dispatch in *. rewrite dispatchN_PUSH in *. cbn [world snd trace store] in *.
    assert (Hshown : Reactions.notificationDisplayed
                       (features_reactions (pushStore (store w) (nextUid w) rs))
                     = (if soundsNotice (store w) then true
                        else Reactions.notificationDisplayed (features_reactions (store w)))).
    { by destruct (store w) as [[] ? ? ? ? ? ?]. }
    rewrite Hshown in Hn, Hd.
    split_and!.
    + by rewrite Ht, app_assoc.
    + unfold notifications in *. rewrite omap_app, length_app.
      fold (notifications (pushEvents (store w) (nextUid w) rs)).
      rewrite notifications_pushEvents.
      unfold soundsNotice in *.
      destruct (Reactions.notificationDisplayed (features_reactions (store w)));
        cbn [negb andb length] in *; [lia|].
      destruct (_ && _); cbn [length] in *; lia.
    + intros Hdisp. apply Hd. rewrite Hdisp. by destruct (soundsNotice (store w)).
Qed.

(** However many batches are pushed, the notification about reaction sounds
    is shown at most once, and never again once it was shown. *)
Theorem sounds_notice_at_most_once (batches : list (list Reaction)) (w : World) :
  let shown := notifications (drop (length (trace w)) (trace (pushAll batches w))) in
  length shown <= 1
  /\ (Reactions.notificationDisplayed (features_reactions (store w)) = true -> shown = []).
Proof.
  intros shown. subst shown.
  destruct (pushAll_trace batches w) as (evs & Ht & Hn & _).
  rewrite Ht, drop_app_length. split.
  - destruct (Reactions.notificationDisplayed _); lia.
  - intros Hd. rewrite Hd in Hn. destruct (notifications evs); [done|]. cbn in Hn. lia.
Qed.

End Push.

Lemma played_sounds_witness :
  Forall (fun soundId =>
            soundId ∈ registeredSounds (appWillMount sampleReactions sampleThresholds
                                          "RAISE_HAND_SOUND" "raise-hand.mp3"))
    (playedSounds (events_of (dispatch (H:=sampleImports) (PUSH_REACTIONS ["like"; "clap"]))
                     sampleWorld)).
Proof.
  apply Forall_forall. intros soundId Hplayed.
  apply (played_sounds_are_registered (H:=sampleImports) sampleReactions sampleThresholds
           "RAISE_HAND_SOUND" "raise-hand.mp3" ["like"; "clap"] sampleWorld); [|exact Hplayed].
  intros r Hr. cbn in Hr.
  apply elem_of_cons in Hr as [->|Hr]; [|apply elem_of_cons in Hr as [->|Hr]].
  - split; [apply list_elem_of_here|]. eexists. split; [apply list_elem_of_here|reflexivity].
  - split; [apply list_elem_of_here|]. eexists.
    split; [apply list_elem_of_further, list_elem_of_here|reflexivity].
  - by apply elem_of_nil in Hr.
Defined.

(** ** Pushing reactions that are no key of the table *)

Section PushTable.
Context `{Imports}.
Variable REACTIONS : list (Reaction * ReactionEntry.t).

(** The loop over the threshold entries: it plays the sounds of the entries
    before the first reaction that is no key of [REACTIONS], and throws
    there. *)
Lemma playLoop_eval (thresholds : list (Reaction * nat)) w :
  forEach thresholds
    (fun reaction =>
       entry ← deref "REACTIONS[reaction.reaction].soundId"
                 (WithFailures.REACTIONS_at REACTIONS reaction.1);
       dispatchN 3 (PLAY_SOUND (ReactionEntry.soundId entry) reaction.2)) w
  = (if forallb (fun r => bool_decide (is_Some (WithFailures.REACTIONS_at REACTIONS r.1))) thresholds
     then Normal tt else Throw (TypeError "REACTIONS[reaction.reaction].soundId"),
     logged (map WithFailures.playKnown (WithFailures.knownPrefix REACTIONS thresholds)) w).
Proof.
  revert w. induction thresholds as [|r l IH]; intros w.
  - cbn. f_equal. destruct w; unfold logged; cbn. by rewrite app_nil_r.
  - cbn [forEach forallb WithFailures.knownPrefix]. js.
    destruct (WithFailures.REACTIONS_at REACTIONS r.1) as [entry|] eqn:Hr; js.
    + rewrite bool_decide_eq_true_2 by by eexists. cbn [andb].
      rewrite dispatchN_leaf by done. js. rewrite IH. js.
      f_equal. destruct w as [[[] [] [] ? [] [] []] ? ? ? ? ?]. cbn. unfold WithFailures.playKnown. cbn.
      by list_norm.
    + rewrite bool_decide_eq_false_2 by (by intros [? ?]). cbn [andb map].
      f_equal. destruct w; cbn. by rewrite app_nil_r.
Qed.

Lemma knownPrefix_all thresholds :
  Forall (fun r => is_Some (WithFailures.REACTIONS_at REACTIONS r.1)) thresholds ->
  forallb (fun r => bool_decide (is_Some (WithFailures.REACTIONS_at REACTIONS r.1))) thresholds = true
  /\ map (fun r => Some r.1) (WithFailures.knownPrefix REACTIONS thresholds)
     = map (fun r => WithFailures.REACTIONS_at REACTIONS r.1) thresholds
  /\ map snd (WithFailures.knownPrefix REACTIONS thresholds) = map snd thresholds.
Proof.
  induction 1 as [|r l [entry Hr] _ (IH1 & IH2 & IH3)]; cbn; [done|].
  rewrite Hr. cbn. rewrite ?bool_decide_eq_true_2 by by eexists. cbn.
  by rewrite ?IH1, IH2, IH3.
Qed.

Lemma knownPrefix_stop before r after :
  Forall (fun r => is_Some (WithFailures.REACTIONS_at REACTIONS r.1)) before ->
  WithFailures.REACTIONS_at REACTIONS r.1 = None ->
  forallb (fun r => bool_decide (is_Some (WithFailures.REACTIONS_at REACTIONS r.1)))
    (before ++ r :: after) = false
  /\ WithFailures.knownPrefix REACTIONS (before ++ r :: after)
     = WithFailures.knownPrefix REACTIONS before.
Proof.
  intros Hb Hr. induction Hb as [|q l [entry Hq] _ [IH1 IH2]]; cbn.
  - rewrite Hr. cbn. by rewrite ?bool_decide_eq_false_2 by (by intros [? ?]).
  - rewrite Hq. cbn. rewrite ?bool_decide_eq_true_2 by by eexists. cbn. by rewrite ?IH1, IH2.
Qed.

Lemma playedSounds_known l :
  playedSounds (map WithFailures.playKnown l) = map (fun r => ReactionEntry.soundId r.1 +:+ pretty r.2) l.
Proof. induction l as [|r l IH]; [done|]. cbn. by rewrite <- IH. Qed.

(** The world a push leaves. *)
Lemma push_eval rs w :
  let st := store w in
  let thresholds := getReactionsSoundsThresholds rs in
  let notice := if soundsNotice st then showSoundsEvents st else [] in
  let shown (s : Reactions.t) :=
    if soundsNotice st then true else Reactions.notificationDisplayed s in
  WithFailures.push REACTIONS rs w
  = if Settings.soundsReactions (features_base_settings st)
       && negb (forallb (fun r => bool_decide (is_Some (WithFailures.REACTIONS_at REACTIONS r.1)))
                  thresholds)
    then (Throw (TypeError "REACTIONS[reaction.reaction].soundId"),
          stored (set_reactions (fun s =>
                    Reactions.mk (Reactions.timeoutID s) (Reactions.buffer s) (Reactions.queue s)
                      (shown s)))
            (logged ([Dispatched (PUSH_REACTIONS rs)] ++ notice
                     ++ map WithFailures.playKnown (WithFailures.knownPrefix REACTIONS thresholds)) w))
    else (Normal tt,
          mkWorld (pushStore st (nextUid w) rs) (timers w) (clock w) (nextTimerId w)
            (nextUid w + length rs)
            (trace w ++ [Dispatched (PUSH_REACTIONS rs)] ++ notice
               ++ (if Settings.soundsReactions (features_base_settings st)
                   then map WithFailures.playKnown (WithFailures.knownPrefix REACTIONS thresholds) else [])
               ++ [Dispatched (SET_REACTION_QUEUE
                                 (Reactions.queue (features_reactions st)
                                  ++ entriesFrom (nextUid w) rs))])).
Proof.
  intros st thresholds notice shown. subst st thresholds notice shown.
  unfold WithFailures.push, WithFailures.PUSH_REACTIONS_case. js.
  unfold pushStore. fold (soundsNotice (store w)).
  destruct (soundsNotice (store w)) eqn:Hn;
    rewrite ?dispatchN_SHOW_SOUNDS; js;
    destruct (Settings.soundsReactions (features_base_settings (store w))) eqn:Hon;
    cbn [andb];
    rewrite ?playLoop_eval; js;
    try destruct (forallb _ (getReactionsSoundsThresholds rs)); cbn [negb]; js;
    try (rewrite getReactionsWithId_eval; js; rewrite dispatchN_leaf by done; js);
    destruct w as [[[] [] [] ? [] [] []] ? ? ? ? ?]; cbn;
    unfold set_reactions; cbn; by list_norm.
Qed.

(** Where every reaction that reached a threshold is a key of [REACTIONS] and
    the table holds the sound id the middleware above reads, the push is the
    one the middleware runs. *)
Lemma push_agrees rs w :
  Forall (fun r => exists entry, WithFailures.REACTIONS_at REACTIONS r.1 = Some entry
                                 /\ ReactionEntry.soundId entry = REACTIONS_soundId r.1)
    (getReactionsSoundsThresholds rs) ->
  WithFailures.push REACTIONS rs w = dispatch (PUSH_REACTIONS rs) w.
Proof.
  intros Hk. rewrite push_eval. unfold dispatch. rewrite dispatchN_PUSH. cbn zeta.
  assert (Hall : forallb (fun r => bool_decide (is_Some (WithFailures.REACTIONS_at REACTIONS r.1)))
                   (getReactionsSoundsThresholds rs) = true
                 /\ map WithFailures.playKnown
                      (WithFailures.knownPrefix REACTIONS (getReactionsSoundsThresholds rs))
                    = map (fun r => Dispatched (PLAY_SOUND (REACTIONS_soundId r.1) r.2))
                        (getReactionsSoundsThresholds rs)).
  { induction Hk as [|r l (entry & Hr & Hs) _ [IH1 IH2]]; cbn; [done|].
    rewrite Hr. cbn. rewrite ?bool_decide_eq_true_2 by by eexists. cbn.
    rewrite ?IH1, IH2. unfold WithFailures.playKnown at 1. cbn. by rewrite Hs. }
  destruct Hall as [-> ->]. rewrite andb_false_r.
  unfold pushEvents, playSoundEvents. done.
Qed.

Lemma knownPrefix_played thresholds :
  Forall (fun r => is_Some (WithFailures.REACTIONS_at REACTIONS r.1)) thresholds ->
  Forall2 (WithFailures.soundPlayedFor REACTIONS)
    (map (fun r => ReactionEntry.soundId r.1 +:+ pretty r.2)
       (WithFailures.knownPrefix REACTIONS thresholds))
    thresholds.
Proof.
  induction 1 as [|r l [entry Hr] _ IH]; cbn; [constructor|].
  rewrite Hr. cbn. constructor; [|done]. by exists entry.
Qed.

(** What a push of reactions does. It shows the sounds notification exactly
    when it was not shown before, sounds are on, the reaction sound is not
    disabled and the action creator exists. With reaction sounds off it plays
    nothing and queues the reactions; with sounds on and every reaction that
    reached a threshold among the keys of [REACTIONS] it plays one sound per
    threshold entry, the one of that entry's reaction, and queues the
    reactions: the display queue keeps its entries and receives the pushed
    reactions after them, in order. With sounds on and a reaction that is no
    key of [REACTIONS] it plays the sounds of the entries before that one and
    throws there: the queue is not set and stays as it was. *)
Theorem push_plays_and_queues (rs : list Reaction) (w : World) :
  let st := store w in
  let run := WithFailures.push REACTIONS rs in
  let evs := events_of run w in
  let w' := world (run w) in
  let on := Settings.soundsReactions (features_base_settings st) in
  let thresholds := getReactionsSoundsThresholds rs in
  let known (r : Reaction * nat) := is_Some (WithFailures.REACTIONS_at REACTIONS r.1) in
  let queued :=
    exists entries,
      Reactions.queue (features_reactions (store w'))
      = Reactions.queue (features_reactions st) ++ entries
      /\ map QueueEntry.reaction entries = rs in
  notifications evs = (if soundsNotice st then [soundsNotification st] else [])
  /\ calls evs = []
  /\ Reactions.buffer (features_reactions (store w')) = Reactions.buffer (features_reactions st)
  /\ (on = false -> outcome (run w) = Normal tt /\ playedSounds evs = [] /\ queued)
  /\ (on = true -> Forall known thresholds ->
        outcome (run w) = Normal tt
        /\ Forall2 (WithFailures.soundPlayedFor REACTIONS) (playedSounds evs) thresholds
        /\ queued)
  /\ (on = true -> forall before r after,
        thresholds = before ++ r :: after ->
        Forall known before ->
        WithFailures.REACTIONS_at REACTIONS r.1 = None ->
        outcome (run w) = Throw (TypeError "REACTIONS[reaction.reaction].soundId")
        /\ Forall2 (WithFailures.soundPlayedFor REACTIONS) (playedSounds evs) before
        /\ Reactions.queue (features_reactions (store w'))
           = Reactions.queue (features_reactions st)
        /\ forall value, SET_REACTION_QUEUE value ∉ actions evs).
Proof.
  intros st run evs w' on thresholds known queued. subst run evs w' queued known.
  unfold events_of. rewrite push_eval. fold st. fold on. fold thresholds.
  set (allKnown := forallb _ thresholds).
  set (prefix := WithFailures.knownPrefix REACTIONS thresholds).
  assert (Hnotice : forall l : list Event,
    notifications ([Dispatched (PUSH_REACTIONS rs)]
                   ++ (if soundsNotice st then showSoundsEvents st else [])
                   ++ map WithFailures.playKnown prefix ++ l)
    = (if soundsNotice st then [soundsNotification st] else []) ++ notifications l).
  { intros l. unfold notifications. rewrite !omap_app.
    rewrite (omap_fmap_None isNotification WithFailures.playKnown) by done.
    by destruct (soundsNotice st). }
  assert (Hcalls : forall l : list Event,
    calls ([Dispatched (PUSH_REACTIONS rs)]
           ++ (if soundsNotice st then showSoundsEvents st else [])
           ++ map WithFailures.playKnown prefix ++ l) = calls l).
  { intros l. unfold calls. rewrite !omap_app.
    rewrite (omap_fmap_None isCall WithFailures.playKnown) by done.
    by destruct (soundsNotice st). }
  assert (Hplayed : forall l : list Event,
    playedSounds ([Dispatched (PUSH_REACTIONS rs)]
                  ++ (if soundsNotice st then showSoundsEvents st else [])
                  ++ map WithFailures.playKnown prefix ++ l)
    = map (fun r => ReactionEntry.soundId r.1 +:+ pretty r.2) prefix ++ playedSounds l).
  { intros l. unfold playedSounds. rewrite !omap_app.
    fold (playedSounds (map WithFailures.playKnown prefix)). rewrite playedSounds_known.
    by destruct (soundsNotice st). }
  assert (Hq : exists entries,
    Reactions.queue (features_reactions (pushStore st (nextUid w) rs))
    = Reactions.queue (features_reactions st) ++ entries
    /\ map QueueEntry.reaction entries = rs).
  { exists (entriesFrom (nextUid w) rs). split; [|apply entriesFrom_reaction].
    by destruct st as [[] ? ? ? ? ? ?]. }
  assert (Hb : Reactions.buffer (features_reactions (pushStore st (nextUid w) rs))
               = Reactions.buffer (features_reactions st)).
  { by destruct st as [[] ? ? ? ? ? ?]. }
  destruct on eqn:Hon; cbn [andb].
  - destruct allKnown eqn:Hall; cbn [negb].
    + cbn [outcome world fst snd trace store]. rewrite drop_app_length.
      rewrite Hnotice, Hcalls, Hplayed. cbn. rewrite !app_nil_r.
      split_and!; try done.
      * intros _ Hk. split_and!; try done. by apply knownPrefix_played.
      * intros _ before r after Hth Hk Hr.
        destruct (knownPrefix_stop before r after Hk Hr) as [Hf _].
        subst allKnown. rewrite Hth, Hf in Hall. done.
    + cbn [outcome world fst snd trace store stored logged]. rewrite drop_app_length.
      replace (map WithFailures.playKnown prefix)
        with (map WithFailures.playKnown prefix ++ []) by apply app_nil_r.
      rewrite Hnotice, Hcalls, Hplayed. cbn. rewrite !app_nil_r.
      split_and!; try done.
      * intros _ Hk. destruct (knownPrefix_all thresholds Hk) as [Hf _].
        subst allKnown. rewrite Hf in Hall. done.
      * intros _ before r after Hth Hk Hr.
        destruct (knownPrefix_stop before r after Hk Hr) as [_ Hp].
        subst prefix. rewrite Hth, Hp.
        split_and!; try done.
        -- by apply knownPrefix_played.
        -- intros value Hin. apply elem_of_cons in Hin as [?|Hin]; [done|].
           rewrite omap_app, elem_of_app in Hin. destruct Hin as [Hin|Hin].
           ++ destruct (soundsNotice st); cbn in Hin;
                repeat (apply elem_of_cons in Hin as [?|Hin]; [done|]); by apply elem_of_nil in Hin.
           ++ apply list_elem_of_omap in Hin as (e & He & Ha).
              apply list_elem_of_fmap in He as (x & -> & _). done.
  - cbn [outcome world fst snd trace store]. rewrite drop_app_length.
    replace (@nil Event) with (map WithFailures.playKnown []) at 1 by done.
    unfold notifications, calls, playedSounds. rewrite !omap_app. cbn.
    split_and!; try done.
    + destruct (soundsNotice st) eqn:Hn; [|done].
      unfold soundsNotice in Hn. fold on in Hn. rewrite Hon in Hn.
      by rewrite andb_false_r in Hn.
    + by destruct (soundsNotice st).
    + intros _. split_and!; try done. by destruct (soundsNotice st).
Qed.

End PushTable.

Lemma push_throws_witness :
  let run := WithFailures.push (H:=sampleImports) sampleReactions ["like"; "boo"; "clap"] in
  outcome (run sampleWorld) = Throw (TypeError "REACTIONS[reaction.reaction].soundId")
  /\ playedSounds (events_of run sampleWorld) = ["like_SOUND_1"]
  /\ Reactions.queue (features_reactions (store (world (run sampleWorld)))) = [].
Proof.
  destruct (push_plays_and_queues (H:=sampleImports) sampleReactions ["like"; "boo"; "clap"]
              sampleWorld) as (_ & _ & _ & _ & _ & Ht).
  destruct (Ht eq_refl [("like", 1)] ("boo", 1) [("clap", 1)] eq_refl) as (Ho & Hp & Hq & _).
  - repeat constructor. by eexists.
  - reflexivity.
  - split_and!; [exact Ho| |exact Hq].
    vm_compute. reflexivity.
Defined.

(** ** Settings updates and the sounds notification *)

Section SettingsAndNotice.
Context `{Imports}.

Lemma dispatch_SETTINGS_UPDATED s w :
  dispatch (SETTINGS_UPDATED s) w
  = (Normal tt,
     stored (reducer (SETTINGS_UPDATED s))
       (logged (Dispatched (SETTINGS_UPDATED s) ::
                if bool_decide (s = Some false)
                   && Settings.soundsReactions (features_base_settings (store w))
                then [Called disabledEvent] else []) w)).
Proof. unfold dispatch. apply dispatchN_SETTINGS_UPDATED. Qed.

(** A settings update reports the "reaction sounds disabled" analytics event
    exactly when it turns the reaction sounds from on to off; the same update
    dispatched again reports nothing. *)
Theorem disabling_sounds_is_reported_once (s : option bool) (w : World) :
  let run := dispatch (SETTINGS_UPDATED s) in
  let on := Settings.soundsReactions (features_base_settings (store w)) in
  outcome (run w) = Normal tt
  /\ actions (events_of run w) = [SETTINGS_UPDATED s]
  /\ (calls (events_of run w) = [disabledEvent] <-> s = Some false /\ on = true)
  /\ (calls (events_of run w) = [] <-> ~ (s = Some false /\ on = true))
  /\ Settings.soundsReactions (features_base_settings (store (world (run w)))) = default on s
  /\ calls (events_of run (world (run w))) = [].
Proof.
  intros run on. subst run.
  assert (He : forall w', events_of (dispatch (SETTINGS_UPDATED s)) w'
    = Dispatched (SETTINGS_UPDATED s) ::
      if bool_decide (s = Some false) && Settings.soundsReactions (features_base_settings (store w'))
      then [Called disabledEvent] else []).
  { intros w'. apply events_of_app. rewrite dispatch_SETTINGS_UPDATED. by js. }
  rewrite !He. rewrite dispatch_SETTINGS_UPDATED. cbn [outcome world fst snd store stored logged].
  fold on.
  assert (Hs : Settings.soundsReactions
                 (features_base_settings (reducer (SETTINGS_UPDATED s) (store w))) = default on s).
  { subst on. by destruct s, (store w) as [? ? [] ? ? ? ?]. }
  rewrite Hs.
  destruct s as [[]|], on; cbn; split_and!; try done; try (split; [done|]); try tauto.
  all: try (intros [? ?]; done).
  all: try (intros Hn; destruct Hn; done).
  all: split; [by intros _ [? ?]|intros _; by vm_compute].
Qed.

Lemma dispatch_SHOW_SOUNDS_events w :
  events_of (dispatch SHOW_SOUNDS_NOTIFICATION) w = showSoundsEvents (store w).
Proof. apply events_of_app. unfold dispatch. by rewrite dispatchN_SHOW_SOUNDS. Qed.

Lemma customFunction_eval h w :
  customFunction h w
  = (Normal tt,
     stored (fun st =>
               set_settings (fun _ => Settings.mk false)
                 (match h with
                  | DisableReactionSounds => st
                  | DisableReactionSoundsForAll =>
                      set_base_conference (fun s =>
                        BaseConference.mk (BaseConference.conference s)
                          (BaseConference.membersOnly s) (Some true)) st
                  end))
       (logged ((match h with
                 | DisableReactionSounds => []
                 | DisableReactionSoundsForAll => [Dispatched (SET_START_REACTIONS_MUTED true)]
                 end)
                ++ Dispatched (SETTINGS_UPDATED (Some false))
                :: (if Settings.soundsReactions (features_base_settings (store w))
                    then [Called disabledEvent] else [])) w)).
Proof.
  destruct h; unfold customFunction.
  - rewrite dispatch_SETTINGS_UPDATED. rewrite bool_decide_eq_true_2 by done. cbn [andb app].
    reflexivity.
  - js. unfold dispatch at 1. rewrite dispatchN_leaf by done. js.
    rewrite dispatch_SETTINGS_UPDATED. rewrite bool_decide_eq_true_2 by done. cbn [andb].
    f_equal. destruct w as [[[] [] [] ? [] [] []] ? ? ? ? ?]. cbn. unfold stored, logged. cbn.
    by list_norm.
Qed.

Lemma customFunction_events h w :
  events_of (customFunction h) w
  = (match h with
     | DisableReactionSounds => []
     | DisableReactionSoundsForAll => [Dispatched (SET_START_REACTIONS_MUTED true)]
     end)
    ++ Dispatched (SETTINGS_UPDATED (Some false))
    :: (if Settings.soundsReactions (features_base_settings (store w))
        then [Called disabledEvent] else []).
Proof. apply events_of_app. by rewrite customFunction_eval. Qed.

(** The notification about reaction sounds: exactly one is shown; its action
    names and handlers pair up; "disable for me" is always offered and
    "disable for all" exactly to a moderator. Whichever action the user
    picks, the local reaction sounds are off afterwards, and only the
    moderator's action sets the start-muted flag of the conference. *)
Theorem sounds_notification_actions (w : World) :
  let st := store w in
  let run := dispatch SHOW_SOUNDS_NOTIFICATION in
  exists n,
    notifications (events_of run w) = [n]
    /\ calls (events_of run w) = []
    /\ titleKey n = "toolbar.disableReactionSounds"
    /\ length (customActionNameKey n) = length (customActionHandler n)
    /\ DisableReactionSounds ∈ customActionHandler n
    /\ (DisableReactionSoundsForAll ∈ customActionHandler n <-> isLocalParticipantModerator st = true)
    /\ ("notify.reactionSoundsForAll" ∈ customActionNameKey n
        <-> isLocalParticipantModerator st = true)
    /\ forall h w1,
         h ∈ customActionHandler n ->
         let w2 := world (customFunction h w1) in
         outcome (customFunction h w1) = Normal tt
         /\ Settings.soundsReactions (features_base_settings (store w2)) = false
         /\ BaseConference.startReactionsMuted (features_base_conference (store w2))
            = (match h with
               | DisableReactionSounds =>
                   BaseConference.startReactionsMuted (features_base_conference (store w1))
               | DisableReactionSoundsForAll => Some true
               end)
         /\ (calls (events_of (customFunction h) w1) = [disabledEvent]
             <-> Settings.soundsReactions (features_base_settings (store w1)) = true).
Proof.
  intros st run. subst run. exists (soundsNotification st).
  rewrite dispatch_SHOW_SOUNDS_events. fold st.
  unfold showSoundsEvents, soundsNotification.
  destruct (isLocalParticipantModerator st) eqn:Hm; cbn.
  all: split_and!; try done.
  all: try apply list_elem_of_here.
  all: try (split; [done|]; intros _; apply list_elem_of_further, list_elem_of_here).
  all: try (split; [|done]; intros Hin; repeat (apply elem_of_cons in Hin as [Hin|Hin]; [done|]);
            by apply elem_of_nil in Hin).
  all: intros h w1 _; rewrite customFunction_events, customFunction_eval;
    cbn [outcome world fst snd store stored logged];
    split_and!; try done;
    [ by destruct h, (store w1) as [? [] [] ? ? ? ?]
    | unfold calls; rewrite omap_app;
      destruct h, (Settings.soundsReactions (features_base_settings (store w1))); cbn;
      split; done ].
Qed.

End SettingsAndNotice.

(** ** More on the mute command *)

Ltac booleq :=
  rewrite ?(bool_decide_eq_true_2 (true = true)), ?(bool_decide_eq_true_2 (false = false)),
    ?(bool_decide_eq_false_2 (true = false)), ?(bool_decide_eq_false_2 (false = true)) by done.

Section MuteMore.
Context `{Imports}.

(** The events and the store a command from a remote moderator leaves. *)
Lemma onMuteReactionsCommand_moderator attributes i p w :
  getParticipantById (store w) i = Some p ->
  Participant.local p = false ->
  Participant.role p = "moderator" ->
  let st := store w in
  let oldState := default false (BaseConference.startReactionsMuted (features_base_conference st)) in
  let newState := bool_decide (startReactionsMuted attributes = Some "true") in
  _onMuteReactionsCommand attributes (Some i) w
  = (Normal tt,
     if bool_decide (oldState = newState) then w
     else stored (mutedStore newState)
            (logged ([Dispatched (SET_START_REACTIONS_MUTED newState);
                      Dispatched (SETTINGS_UPDATED (Some (negb newState)))]
                     ++ (if newState && Settings.soundsReactions (features_base_settings st)
                         then [Called disabledEvent] else [])) w)).
Proof.
  intros Hp Hl Hr st oldState newState.
  unfold _onMuteReactionsCommand. js. rewrite Hp. js. rewrite Hl, Hr. fold st.
  rewrite bool_decide_eq_true_2 by done. cbn [negb]. fold oldState newState.
  destruct (bool_decide (oldState = newState)); cbn [negb]; [done|].
  unfold dispatch. rewrite dispatchN_leaf by done. js.
  rewrite dispatchN_SETTINGS_UPDATED. js. f_equal.
  assert (Hs : Settings.soundsReactions
                 (features_base_settings (reducer (SET_START_REACTIONS_MUTED newState) (store w)))
               = Settings.soundsReactions (features_base_settings st)).
  { subst st. by destruct (store w) as [? ? [] ? ? ? ?]. }
  rewrite Hs.
  assert (Hb : bool_decide (Some (negb newState) = Some false) = newState).
  { by destruct newState. }
  rewrite Hb.
  destruct w as [[[] [] [] ? [] [] []] ? ? ? ? ?]. unfold mutedStore. cbn. by list_norm.
Qed.

(** A mute command of a remote moderator reports the "reaction sounds
    disabled" analytics event exactly when it mutes a conference that was not
    muted while the local reaction sounds were on; an unmute command, or one
    that changes nothing, reports nothing. *)
Theorem mute_command_reports_disabled_sounds
    (attributes : Attributes) (i : string) (p : Participant.t) (w : World) :
  let st := store w in
  let run := _onMuteReactionsCommand attributes (Some i) in
  let oldState := default false (BaseConference.startReactionsMuted (features_base_conference st)) in
  let on := Settings.soundsReactions (features_base_settings st) in
  getParticipantById st i = Some p ->
  Participant.local p = false ->
  Participant.role p = "moderator" ->
  (calls (events_of run w) = [disabledEvent]
   <-> startReactionsMuted attributes = Some "true" /\ oldState = false /\ on = true)
  /\ (calls (events_of run w) = []
      <-> ~ (startReactionsMuted attributes = Some "true" /\ oldState = false /\ on = true))
  /\ (startReactionsMuted attributes <> Some "true" -> calls (events_of run w) = []).
Proof.
  intros st run oldState on Hp Hl Hr. subst run.
  unfold events_of. rewrite (onMuteReactionsCommand_moderator attributes i p w Hp Hl Hr).
  fold st. fold oldState. fold on. cbn [world snd].
  destruct (decide (startReactionsMuted attributes = Some "true")) as [Ht|Ht].
  - rewrite (bool_decide_eq_true_2 _ Ht).
    destruct oldState, on; booleq; cbn [andb]; js;
      rewrite ?drop_all, ?drop_app_length; cbn; split_and!; try done; try tauto.
    all: try (split; [done|]; intros (_ & ? & ?); done).
    all: try (split; [|done]; intros _ (_ & ? & ?); done).
    all: try (split; [done|]; intros Hn; destruct Hn; done).
  - rewrite (bool_decide_eq_false_2 _ Ht).
    destruct oldState, on; booleq; cbn [andb]; js;
      rewrite ?drop_all, ?drop_app_length; cbn; split_and!; try done; try tauto.
    all: try (split; [done|]; intros (? & _); done).
Qed.


End MuteMore.

Lemma mute_command_reports_witness :
  calls (events_of (_onMuteReactionsCommand (H:=sampleImports) (mkAttributes (Some "true"))
                      (Some "carol")) sampleWorld)
  = [disabledEvent].
Proof.
  destruct (mute_command_reports_disabled_sounds (H:=sampleImports) (mkAttributes (Some "true"))
              "carol" carol sampleWorld eq_refl eq_refl eq_refl) as (Hr & _).
  apply Hr. split_and!; reflexivity.
Defined.


(** ** More on joining and knocking *)

Section JoinMore.
Context `{Imports}.

(** [startKnocking] fulfils exactly when there is a members-only conference
    and a local participant, and only then is the knocking state set: the
    store is never told that the client knocks unless the lobby was joined
    before. *)
Theorem startKnocking_knocks_only_after_joining (w : World) :
  let st := store w in
  let evs := events_of startKnocking w in
  let ready := is_Some (BaseConference.membersOnly (features_base_conference st))
               /\ is_Some (getLocalParticipant st) in
  (outcome (startKnocking w) = Normal Fulfilled <-> ready)
  /\ (SET_KNOCKING_STATE true ∈ actions evs <-> ready)
  /\ ((exists name email, joinLobby name email ∈ calls evs) <-> ready)
  /\ (~ ready ->
        Lobby.knocking (features_lobby (store (world (startKnocking w))))
        = Lobby.knocking (features_lobby st)).
Proof.
  intros st evs ready. subst evs ready.
  unfold startKnocking, async, events_of. js. fold st.
  unfold dispatch, conferenceWillJoin, setKnockingState.
  rewrite dispatchN_S. unfold middleware.
  destruct (BaseConference.membersOnly (features_base_conference st)) as [m|] eqn:Hm.
  2:{ js. rewrite drop_app_length. cbn.
      split_and!; try done.
      - split; [done|]. by intros [[? ?] _].
      - split; [|by intros [[? ?] _]].
        intros Hin. apply elem_of_cons in Hin as [?|Hin]; [done|]. by apply elem_of_nil in Hin.
      - split; [|by intros [[? ?] _]].
        intros (? & ? & Hin). by apply elem_of_nil in Hin. }
  js.
  assert (Hst : reducer (CONFERENCE_WILL_JOIN (Some m)) (store w) = st).
  { subst st. by destruct (store w) as [[] [] [] ? [] [] []]. }
  destruct (getLocalParticipant st) as [p|] eqn:Hp.
  2:{ js. rewrite Hst. list_norm. rewrite drop_app_length. cbn.
      split_and!; try done.
      - split; [done|]. by intros [_ [? ?]].
      - split; [|by intros [_ [? ?]]].
        intros Hin. apply elem_of_cons in Hin as [?|Hin]; [done|]. by apply elem_of_nil in Hin.
      - split; [|by intros [_ [? ?]]].
        intros (? & ? & Hin).
        repeat (apply elem_of_cons in Hin as [?|Hin]; [done|]). by apply elem_of_nil in Hin. }
  js.
  set (w1 := mkWorld _ _ _ _ _ _).
  destruct (setLobbyMessageListener_eval w1) as (r & Hr). rewrite Hr. js.
  rewrite dispatchN_leaf by done. js.
  subst w1. cbn [trace]. list_norm. rewrite drop_app_length.
  assert (Hready : is_Some (Some m) /\ is_Some (Some p)) by (split; by eexists).
  split_and!.
  - done.
  - split; [done|]. intros _. unfold actions. cbn. rewrite omap_app. cbn.
    rewrite elem_of_cons, elem_of_app, list_elem_of_singleton. tauto.
  - split; [done|]. intros _. exists (Participant.name p), (Participant.email p).
    unfold calls. cbn. do 2 apply list_elem_of_further. apply list_elem_of_here.
  - intros Hn. by destruct Hn.
Qed.

End JoinMore.

(** ** What the middleware leaves alone *)

Section Frame.
Context `{Imports}.

(** Only a new reaction touches the pending flush: whatever else is
    dispatched (a flush, a push, a settings update, a conference about to be
    joined, any action of another feature), the host's timer table, its clock
    and the timer identifier kept in the store are as before; and apart from
    the flush, which empties it, the buffer is as before too. *)
Theorem only_reactions_touch_the_timer (action : Action) (w : World) :
  let w' := world (dispatch action w) in
  (forall reaction buffer timeoutID, action <> ADD_REACTION_BUFFER reaction buffer timeoutID) ->
  timers w' = timers w
  /\ clock w' = clock w
  /\ nextTimerId w' = nextTimerId w
  /\ Reactions.timeoutID (features_reactions (store w'))
     = Reactions.timeoutID (features_reactions (store w))
  /\ (action <> FLUSH_REACTION_BUFFER ->
        Reactions.buffer (features_reactions (store w'))
        = Reactions.buffer (features_reactions (store w))).
Proof.
  intros w' Hadd. subst w'. unfold dispatch.
  destruct (leaf action) eqn:Hleaf.
  { rewrite dispatchN_leaf by done. cbn.
    destruct action; try discriminate Hleaf;
      destruct (store w) as [[] [] [] ? [] [] []]; cbn; split_and!; done. }
  destruct action; try discriminate Hleaf.
  - by destruct (Hadd reaction buffer timeoutID).
  - rewrite dispatchN_FLUSH. cbn.
    destruct (store w) as [[] [] [] ? [] [] []]; cbn; split_and!; done.
  - rewrite dispatchN_SEND. cbn. split_and!; done.
  - rewrite dispatchN_PUSH. cbn.
    destruct (store w) as [[] [] [] ? [] [] []]; cbn; split_and!; done.
  - rewrite dispatchN_SHOW_SOUNDS. cbn.
    destruct (store w) as [[] [] [] ? [] [] []]; cbn; split_and!; done.
  - rewrite dispatchN_SETTINGS_UPDATED. cbn.
    destruct (store w) as [[] [] [] ? [] [] []]; cbn; split_and!; done.
  - rewrite dispatchN_S. unfold middleware. destruct conference as [c|]; js.
    + destruct (store w) as [[] [] [] ? [] [] []]; cbn; split_and!; done.
    + split_and!; done.
Qed.

End Frame.

Lemma only_reactions_touch_the_timer_witness :
  timers (world (dispatch (H:=sampleImports) flushReactionBuffer bufferedWorld)) = [(1, 500)]
  /\ Reactions.timeoutID
       (features_reactions (store (world (dispatch (H:=sampleImports) flushReactionBuffer
                                            bufferedWorld)))) = Some 1.
Proof.
  destruct (only_reactions_touch_the_timer (H:=sampleImports) flushReactionBuffer bufferedWorld)
    as (Ht & _ & _ & Hid & _); [discriminate|].
  split; [exact Ht|exact Hid].
Defined.

(** ** More on the lobby thunks *)

Section LobbyMore.
Context `{Imports}.

Lemma setLobbyMessageListener_cases w :
  setLobbyMessageListener w
  = if default true (Config.enableLobbyChat (features_base_config (store w)))
    then match getCurrentConference (store w) with
         | Some _ => (Normal Fulfilled, logged [Called addLobbyMessageListener] w)
         | None => (Normal (Rejected (TypeError "conference.addLobbyMessageListener")), w)
         end
    else (Normal Fulfilled, w).
Proof.
  unfold setLobbyMessageListener, async. js.
  destruct (default true _); cbn [negb]; [destruct (getCurrentConference (store w))|]; by js.
Qed.

(** Registering the listener for lobby messages. With lobby chat disabled in
    the configuration [setLobbyMessageListener] does nothing and fulfils,
    conference or not; with lobby chat enabled (the default) it registers one
    listener, or rejects when there is no current conference. It keeps no
    record of a registration: called again it registers again.
    [maybeSetLobbyChatMessageListener] always fulfils, and registers exactly
    when the lobby is enabled, lobby chat is not disabled and there is a
    current conference. *)
Theorem lobby_listener_registration (w : World) :
  let st := store w in
  let enableLobbyChat := default true (Config.enableLobbyChat (features_base_config st)) in
  (enableLobbyChat = false -> setLobbyMessageListener w = (Normal Fulfilled, w))
  /\ (enableLobbyChat = true -> getCurrentConference st = None ->
        setLobbyMessageListener w
        = (Normal (Rejected (TypeError "conference.addLobbyMessageListener")), w))
  /\ (enableLobbyChat = true -> is_Some (getCurrentConference st) ->
        setLobbyMessageListener w = (Normal Fulfilled, logged [Called addLobbyMessageListener] w)
        /\ calls (events_of (_ ← setLobbyMessageListener; setLobbyMessageListener) w)
           = [addLobbyMessageListener; addLobbyMessageListener])
  /\ outcome (maybeSetLobbyChatMessageListener w) = Normal Fulfilled
  /\ store (world (maybeSetLobbyChatMessageListener w)) = st
  /\ events_of maybeSetLobbyChatMessageListener w
     = (if getLobbyEnabled st && enableLobbyChat && bool_decide (is_Some (getCurrentConference st))
        then [Called addLobbyMessageListener] else []).
Proof.
  intros st enableLobbyChat.
  assert (Hm : maybeSetLobbyChatMessageListener w
               = (Normal Fulfilled,
                  logged (if getLobbyEnabled st && enableLobbyChat
                             && bool_decide (is_Some (getCurrentConference st))
                          then [Called addLobbyMessageListener] else []) w)).
  { unfold maybeSetLobbyChatMessageListener, async. js. fold st.
    destruct (getLobbyEnabled st); cbn [andb].
    - js. rewrite setLobbyMessageListener_cases. fold st. fold enableLobbyChat.
      destruct enableLobbyChat; cbn [andb].
      + destruct (getCurrentConference st) as [c|] eqn:Hc.
        * rewrite bool_decide_eq_true_2 by by eexists. done.
        * rewrite bool_decide_eq_false_2 by (by intros [? ?]). js. f_equal.
          destruct w; cbn. by rewrite app_nil_r.
      + js. f_equal. destruct w; cbn. by rewrite app_nil_r.
    - js. f_equal. destruct w; cbn. by rewrite app_nil_r. }
  split_and!.
  - intros He. rewrite setLobbyMessageListener_cases. fold st. fold enableLobbyChat. by rewrite He.
  - intros He Hc. rewrite setLobbyMessageListener_cases. fold st. fold enableLobbyChat.
    by rewrite He, Hc.
  - intros He [c Hc]. split.
    + rewrite setLobbyMessageListener_cases. fold st. fold enableLobbyChat. by rewrite He, Hc.
    + unfold events_of. js. rewrite setLobbyMessageListener_cases. fold st. fold enableLobbyChat.
      rewrite He, Hc. rewrite setLobbyMessageListener_cases. cbn [store logged].
      fold st. fold enableLobbyChat. rewrite He, Hc. cbn [snd trace logged].
      rewrite <- app_assoc, drop_app_length. done.
  - by rewrite Hm.
  - by rewrite Hm.
  - eapply events_of_logged. exact Hm.
Qed.

(** The cases of [updateLobbyParticipantOnModeratorLeave] that change
    nothing. On a knocking client whose lobby chat is with somebody else, or
    with nobody, the news that moderator [M] left is ignored. On a client that
    is not knocking and has not joined a conference, it rejects the promise as
    soon as a knocking participant chats with [M]: no message is sent, nothing
    is dispatched and the pairing stays in the store. *)
Theorem moderator_left_remaining_cases (M : string) (w : World) :
  let st := store w in
  (Lobby.knocking (features_lobby st) = true ->
   (forall r, Chat.lobbyMessageRecipient (features_chat st) = Some r -> Party.id r <> M) ->
     updateLobbyParticipantOnModeratorLeave M w = (Normal Fulfilled, w))
  /\ (Lobby.knocking (features_lobby st) = false ->
      BaseConference.conference (features_base_conference st) = None ->
      forall p, p ∈ Lobby.knockingParticipants (features_lobby st) ->
                Knocking.chattingWithModerator p = Some M ->
        updateLobbyParticipantOnModeratorLeave M w
        = (Normal (Rejected (TypeError "conference.sendLobbyMessage")), w)).
Proof.
  intros st. split.
  - intros Hk Hr. unfold updateLobbyParticipantOnModeratorLeave, async. js. fold st.
    rewrite Hk. cbn [andb negb].
    destruct (Chat.lobbyMessageRecipient (features_chat st)) as [r|] eqn:Hrec; cbn [from_option].
    + rewrite bool_decide_eq_false_2 by by apply Hr. by js.
    + by js.
  - intros Hk Hc p Hin Hp. unfold updateLobbyParticipantOnModeratorLeave, async. js. fold st.
    rewrite Hk, Hc. cbn [andb negb].
    destruct (find _ _) as [q|] eqn:Hfind; [by js|].
    apply list_elem_of_In in Hin.
    apply (find_none _ _ Hfind) in Hin. by rewrite bool_decide_eq_true_2 in Hin.
Qed.

(** Handlers that use a referent unguarded fail before any effect. A mute
    command whose sender is no known participant throws to the conference
    that delivered it, whatever its attributes. Without a current conference,
    [admitMultiple] gets through an empty list and throws at the first
    participant of any other, [handleLobbyChatInitialized] rejects before the
    pairing is recorded, and [sendLobbyChatMessage] rejects. In each case the
    store and the trace are as before: nothing was dispatched or sent. *)
Theorem missing_referent_fails_before_any_effect (w : World) :
  (forall attributes i,
     getParticipantById (store w) i = None ->
     _onMuteReactionsCommand attributes (Some i) w
     = (Throw (TypeError "participantSendingCommand.local"), w))
  /\ (getCurrentConference (store w) = None ->
      (forall participants,
         admitMultiple participants w
         = (match participants with
            | [] => Normal tt
            | _ :: _ => Throw (TypeError "conference.lobbyApproveAccess")
            end, w))
      /\ (forall payload,
            handleLobbyChatInitialized payload w
            = (Normal (Rejected (TypeError "conference.myLobbyUserId")), w))
      /\ (forall message,
            sendLobbyChatMessage message w
            = (Normal (Rejected (TypeError "conference.sendLobbyMessage")), w))).
Proof.
  split.
  - intros attributes i Hp. unfold _onMuteReactionsCommand. js. rewrite Hp. by js.
  - intros Hc. split_and!.
    + intros participants. unfold admitMultiple. js. rewrite Hc.
      destruct participants as [|p l]; cbn [forEach]; by js.
    + intros payload. unfold handleLobbyChatInitialized, async. js. rewrite Hc. by js.
    + intros message. unfold sendLobbyChatMessage, async. js. rewrite Hc. by js.
Qed.

(** The message a moderator's client sends when moderator [M] left reaches
    the knocking participant chatting with [M] and is understood there: the
    listener of that participant's client, whose lobby chat recipient is [M],
    terminates the chat. *)
Theorem moderator_left_relay
    (M sender : string) (c : Conference.t) (p : Knocking.t) (r : Party.t)
    (moderatorSide knockingSide : World) :
  Lobby.knocking (features_lobby (store moderatorSide)) = false ->
  BaseConference.conference (features_base_conference (store moderatorSide)) = Some c ->
  participantToNotify M (store moderatorSide) = Some p ->
  Lobby.knocking (features_lobby (store knockingSide)) = true ->
  Chat.lobbyMessageRecipient (features_chat (store knockingSide)) = Some r ->
  Party.id r = M ->
  exists message,
    calls (events_of (updateLobbyParticipantOnModeratorLeave M) moderatorSide)
    = [sendLobbyMessage message (Some (Knocking.id p))]
    /\ outcome (lobbyMessageListener message sender knockingSide) = Normal tt
    /\ events_of (lobbyMessageListener message sender) knockingSide
       = [Dispatched (REMOVE_LOBBY_CHAT_PARTICIPANT true)]
    /\ store (world (lobbyMessageListener message sender knockingSide))
       = chatTerminated (store knockingSide).
Proof.
  intros Hk Hc Hfind Hk' Hr Hid. exists (MODERATOR_IN_CHAT_WITH_LEFT M). split_and!.
  - unfold updateLobbyParticipantOnModeratorLeave, async, events_of. js.
    rewrite Hk, Hc. cbn [andb negb]. unfold participantToNotify in Hfind. rewrite Hfind. js.
    unfold dispatch. rewrite dispatchN_leaf by done. js.
    rewrite <- !app_assoc, drop_app_length. cbn.
    apply find_some in Hfind as [_ Hp]. apply bool_decide_eq_true in Hp. by rewrite Hp.
  - apply async_then_returns.
  - transitivity (events_of (updateLobbyParticipantOnModeratorLeave M) knockingSide);
      [apply events_of_async_then|].
    unfold updateLobbyParticipantOnModeratorLeave, async, events_of. js.
    rewrite Hk', Hr. cbn [from_option andb]. rewrite bool_decide_eq_true_2 by done.
    unfold dispatch, removeLobbyChatParticipant. rewrite dispatchN_leaf by done. js.
    by rewrite drop_app_length.
  - unfold lobbyMessageListener, updateLobbyParticipantOnModeratorLeave, async. js.
    rewrite Hk', Hr. cbn [from_option andb]. rewrite bool_decide_eq_true_2 by done.
    unfold dispatch, removeLobbyChatParticipant. rewrite dispatchN_leaf by done. js.
    by destruct (store knockingSide) as [[] [] [] ? [] [] []].
Qed.

End LobbyMore.

Lemma moderator_left_remaining_witness :
  updateLobbyParticipantOnModeratorLeave (H:=sampleImports) "alice" erinWorld
  = (Normal Fulfilled, erinWorld)
  /\ updateLobbyParticipantOnModeratorLeave (H:=sampleImports) "carol" lonelyWorld
     = (Normal (Rejected (TypeError "conference.sendLobbyMessage")), lonelyWorld).
Proof.
  destruct (moderator_left_remaining_cases (H:=sampleImports) "alice" erinWorld) as [Hi _].
  destruct (moderator_left_remaining_cases (H:=sampleImports) "carol" lonelyWorld) as [_ Hr].
  split.
  - apply Hi; [reflexivity|]. intros r [= <-]. discriminate.
  - apply (Hr eq_refl eq_refl erin); [|reflexivity].
    apply list_elem_of_further, list_elem_of_here.
Defined.

Lemma missing_referent_witness :
  _onMuteReactionsCommand (H:=sampleImports) (mkAttributes None) (Some "mallory") sampleWorld
  = (Throw (TypeError "participantSendingCommand.local"), sampleWorld)
  /\ admitMultiple (H:=sampleImports) [dave; erin] lonelyWorld
     = (Throw (TypeError "conference.lobbyApproveAccess"), lonelyWorld)
  /\ handleLobbyChatInitialized (H:=sampleImports) carolAndDave lonelyWorld
     = (Normal (Rejected (TypeError "conference.myLobbyUserId")), lonelyWorld).
Proof.
  destruct (missing_referent_fails_before_any_effect (H:=sampleImports) sampleWorld) as [Hm _].
  destruct (missing_referent_fails_before_any_effect (H:=sampleImports) lonelyWorld) as [_ Hc].
  destruct (Hc eq_refl) as (Ha & Hi & _).
  split_and!.
  - apply Hm. reflexivity.
  - apply (Ha [dave; erin]).
  - apply Hi.
Defined.

Lemma moderator_left_relay_witness :
  exists message,
    calls (events_of (updateLobbyParticipantOnModeratorLeave (H:=sampleImports) "carol") sampleWorld)
    = [sendLobbyMessage message (Some "erin")]
    /\ events_of (lobbyMessageListener (H:=sampleImports) message "carol") erinWorld
       = [Dispatched (REMOVE_LOBBY_CHAT_PARTICIPANT true)].
Proof.
  destruct (moderator_left_relay (H:=sampleImports) "carol" "carol" room erin
              (Party.mk "carol" "Carol") sampleWorld erinWorld
              eq_refl eq_refl eq_refl eq_refl eq_refl eq_refl) as (message & Hs & _ & Hl & _).
  exists message. split; [exact Hs|exact Hl].
Defined.

(** ** More on the message recipient *)

Section RecipientMore.
Context `{Imports}.

(** While no challenge-response chat is active, the web component shows the
    private-message recipient under the display name the participants feature
    has for its id, to moderators and others alike, and closes through
    [_onRemovePrivateMessageRecipient]; when that display name is empty it
    shows nothing. A challenge-response recipient left in the store plays no
    part. *)
Theorem private_recipient_is_shown_by_display_name (st : ReduxState) (r : Party.t) :
  let name := getParticipantDisplayName st (Party.id r) in
  Chat.challengeResponseIsActive (features_chat st) = false ->
  Chat.privateMessageRecipient (features_chat st) = Some r ->
  render (_mapStateToProps st)
  = (if bool_decide (name = "") then None
     else Some (mkElement "" "chat.messageTo" (Some name) _onRemovePrivateMessageRecipient)).
Proof.
  intros name Ha Hr. unfold _mapStateToProps, render. rewrite Ha, Hr. cbn. fold name.
  by destruct (bool_decide (name = "")).
Qed.

(** Whenever the web component is rendered, pressing space or Enter on its
    close button invokes the handler a click invokes, and no other key invokes
    anything. Closing the banner of an active challenge-response chat
    dispatches the change of the active state and leaves the private-message
    recipient alone; otherwise it clears the private-message recipient. *)
Theorem keyboard_closes_like_click (props : Props) (e : Element) (key : string) :
  render props = Some e ->
  _onKeyPress props key
  = (if bool_decide (key = " ") || bool_decide (key = "Enter") then Some (onClick e) else None)
  /\ _mapDispatchToProps (onClick e)
     = (if _challengeResponseIsActive props
        then SET_CHALLENGE_RESPONSE_ACTIVE_STATE false
        else SET_PRIVATE_MESSAGE_RECIPIENT None).
Proof.
  unfold render, _onKeyPress. destruct (_ || negb _); [done|]. intros [= <-]. cbn.
  by destruct (_challengeResponseIsActive props).
Qed.

(** The native component ([part_000]). An active challenge-response chat
    takes precedence over the private-message recipient and is shown to every
    participant, also where the web component hides it from those who are not
    moderators; when both components show it they agree on the label, the name
    and the action that closes it. With the chat flagged active and no
    recipient in the store the native [render] throws. With no active chat it
    shows the private-message recipient under the name the recipient object
    carries, or nothing. *)
Theorem native_recipient_rendering (own : option Party.t) (st : ReduxState) :
  let chat := features_chat st in
  let native := NativeMessageRecipient.render (NativeMessageRecipient._mapStateToProps own st) in
  let web := render (_mapStateToProps st) in
  (forall c, Chat.challengeResponseIsActive chat = true ->
             Chat.challengeResponseRecipient chat = Some c ->
     native = Normal (Some (NativeMessageRecipient.mkElement "challengeResponseRecipientContainer"
                              "chat.challengeResponseMessageTo" (Party.name c)
                              NativeMessageRecipient._onResetChallengeResponseMessageRecipient))
     /\ (is_Some web <-> isLocalParticipantModerator st = true)
     /\ (forall e, web = Some e ->
           labelKey e = "chat.challengeResponseMessageTo"
           /\ recipient e = Some (Party.name c)
           /\ _mapDispatchToProps (onClick e)
              = NativeMessageRecipient.dispatched
                  (NativeMessageRecipient.handle
                     NativeMessageRecipient._onResetChallengeResponseMessageRecipient)))
  /\ (Chat.challengeResponseIsActive chat = true ->
      Chat.challengeResponseRecipient chat = None ->
        native = Throw (TypeError "challengeResponseRecipient.name"))
  /\ (Chat.challengeResponseIsActive chat = false ->
        native
        = Normal (match own with
                  | Some r =>
                      Some (NativeMessageRecipient.mkElement "messageRecipientContainer"
                              "chat.messageTo" (Party.name r)
                              NativeMessageRecipient._onResetPrivateMessageRecipient)
                  | None => None
                  end)).
Proof.
  intros chat native web. subst chat native web.
  unfold NativeMessageRecipient.render, NativeMessageRecipient._mapStateToProps, render,
    _mapStateToProps.
  cbn [NativeMessageRecipient.challengeResponseIsActive
       NativeMessageRecipient.challengeResponseRecipient
       NativeMessageRecipient.privateMessageRecipient
       _privateMessageRecipient _challengeResponseIsActive _challengeResponseRecipient _visible].
  split_and!.
  - intros c -> ->. rewrite andb_false_r. cbn [orb negb].
    destruct (isLocalParticipantModerator st); cbn; split_and!; try done.
    by intros e [= <-].
  - by intros -> ->.
  - intros ->. by destruct own.
Qed.

(** The native component of [chat/components/native/MessageRecipient.js]
    behaves as the one of [part_000] with the lobby chat in the place of the
    challenge-response chat: on corresponding props both render nothing, both
    throw (flagged active without a recipient), or both show the same
    recipient name with the corresponding close handler; they differ only in
    the style and the label of the active chat. *)
Theorem native_variants_agree (props : NativeLobbyChatRecipient.Props) :
  let active := NativeLobbyChatRecipient.lobbyChatIsActive props in
  match NativeLobbyChatRecipient.render props,
        NativeMessageRecipient.render (NativeLobbyChatRecipient.asChallengeResponse props) with
  | Normal (Some e), Normal (Some e') =>
      NativeLobbyChatRecipient.recipient e = NativeMessageRecipient.recipient e'
      /\ (NativeLobbyChatRecipient.onPress e
           = (if active then NativeLobbyChatRecipient._onResetLobbyChatMessageRecipient
              else NativeLobbyChatRecipient._onResetPrivateMessageRecipient))
      /\ (NativeMessageRecipient.onPress e'
           = (if active then NativeMessageRecipient._onResetChallengeResponseMessageRecipient
              else NativeMessageRecipient._onResetPrivateMessageRecipient))
      /\ (active = false ->
            NativeLobbyChatRecipient.style e = NativeMessageRecipient.style e'
            /\ NativeLobbyChatRecipient.labelKey e = NativeMessageRecipient.labelKey e')
      /\ (active = true ->
            NativeLobbyChatRecipient.labelKey e = "chat.lobbyChatMessageTo"
            /\ NativeMessageRecipient.labelKey e' = "chat.challengeResponseMessageTo"
            /\ is_Some (NativeLobbyChatRecipient.lobbyChatMessageRecipient props))
  | Normal None, Normal None =>
      active = false /\ NativeLobbyChatRecipient.privateMessageRecipient props = None
  | Throw _, Throw _ =>
      active = true /\ NativeLobbyChatRecipient.lobbyChatMessageRecipient props = None
  | _, _ => False
  end.
Proof.
  intros active. subst active.
  unfold NativeLobbyChatRecipient.render, NativeMessageRecipient.render,
    NativeLobbyChatRecipient.asChallengeResponse.
  destruct props as [[own|] [] [rec|]]; cbn; split_and!; try done; by eexists.
Qed.

End RecipientMore.

Lemma private_recipient_witness :
  render (_mapStateToProps (H:=sampleImports)
            (set_chat (fun _ => Chat.mk (Some (Party.mk "bob" "Robert")) None false
                                  (Some (Party.mk "dave" "Dave")) false) sampleState))
  = Some (mkElement "" "chat.messageTo" (Some "Bob") _onRemovePrivateMessageRecipient).
Proof.
  apply (private_recipient_is_shown_by_display_name (H:=sampleImports)
           (set_chat (fun _ => Chat.mk (Some (Party.mk "bob" "Robert")) None false
                                 (Some (Party.mk "dave" "Dave")) false) sampleState)
           (Party.mk "bob" "Robert")); reflexivity.
Defined.

Lemma keyboard_closes_witness :
  _onKeyPress (_mapStateToProps (H:=sampleImports) bothRecipients) "Enter"
  = Some _onHideChallengeResponseRecipient.
Proof.
  destruct (keyboard_closes_like_click (_mapStateToProps (H:=sampleImports) bothRecipients)
              (mkElement "challenge-response-recipient" "chat.challengeResponseMessageTo"
                 (Some "Dave") _onHideChallengeResponseRecipient) "Enter" eq_refl) as [Hk _].
  exact Hk.
Defined.

(** ** The SpeakerStats dialog *)

Section SpeakerStatsProofs.
Import SpeakerStats.
Variable DEFAULT_REMOTE_DISPLAY_NAME : option string.


Ltac case_ifs :=
  repeat match goal with |- context [if ?b then _ else _] => destruct b end.

Lemma truthy_label (name me : string) : truthy (Some (name +:+ " (" +:+ me +:+ ")")) = true.
Proof.
  unfold truthy. rewrite bool_decide_eq_false_2; [done|].
  destruct name; discriminate.
Qed.

Lemma getSpeakerStats_lookup props userId :
  _getSpeakerStats DEFAULT_REMOTE_DISPLAY_NAME props !! userId = fmap (fmap (updateStatsModel DEFAULT_REMOTE_DISPLAY_NAME props)) (conference_getSpeakerStats props !! userId).
Proof. unfold _getSpeakerStats. by rewrite lookup_fmap. Qed.

Lemma updateStatsModel_named props m :
  truthy DEFAULT_REMOTE_DISPLAY_NAME = true ->
  truthy (StatsModel.getDisplayName (updateStatsModel DEFAULT_REMOTE_DISPLAY_NAME props m)) = true.
Proof.
  intros Hd. unfold updateStatsModel.
  destruct (negb (truthy _)) eqn:Hn; [exact Hd|].
  by apply negb_false_iff in Hn.
Qed.

Lemma updateStatsModel_flags props m :
  StatsModel.isLocalStats (updateStatsModel DEFAULT_REMOTE_DISPLAY_NAME props m)
  = StatsModel.isLocalStats m
  /\ StatsModel.hidden (updateStatsModel DEFAULT_REMOTE_DISPLAY_NAME props m) = StatsModel.hidden m
  /\ StatsModel.isDominantSpeaker (updateStatsModel DEFAULT_REMOTE_DISPLAY_NAME props m)
     = StatsModel.isDominantSpeaker m
  /\ StatsModel.getTotalDominantSpeakerTime (updateStatsModel DEFAULT_REMOTE_DISPLAY_NAME props m)
     = StatsModel.getTotalDominantSpeakerTime m
  /\ StatsModel.hasLeft (updateStatsModel DEFAULT_REMOTE_DISPLAY_NAME props m) = StatsModel.hasLeft m.
Proof. unfold updateStatsModel. destruct m as [n [] ? ? ? ? ?]; cbn; by case_ifs. Qed.

(** The name the loop gives the local speaker before the default applies. *)
Lemma updateStatsModel_local props m :
  StatsModel.isLocalStats m = true ->
  StatsModel.getDisplayName (updateStatsModel DEFAULT_REMOTE_DISPLAY_NAME props m)
  = (let label := localLabel props in
     if truthy (Some label) then Some label else DEFAULT_REMOTE_DISPLAY_NAME).
Proof.
  intros Hl. unfold updateStatsModel. rewrite Hl. fold (localLabel props).
  destruct (_enableFacialRecognition props);
    cbn [StatsModel.getDisplayName StatsModel.setDisplayName StatsModel.setFacialExpressions];
    by destruct (truthy (Some (localLabel props))).
Qed.

Lemma updateStatsModel_idem props props' m :
  _localDisplayName props' = _localDisplayName props ->
  _enableFacialRecognition props' = _enableFacialRecognition props ->
  _localFacialExpressions props' = _localFacialExpressions props ->
  t props' = t props ->
  updateStatsModel DEFAULT_REMOTE_DISPLAY_NAME props'
    (updateStatsModel DEFAULT_REMOTE_DISPLAY_NAME props m)
  = updateStatsModel DEFAULT_REMOTE_DISPLAY_NAME props m.
Proof.
  intros Hn He Hf Ht.
  assert (Hlabel : localLabel props' = localLabel props) by (unfold localLabel; by rewrite Hn, Ht).
  unfold updateStatsModel. rewrite He, Hf. fold (localLabel props) (localLabel props').
  rewrite Hlabel.
  destruct m as [n [] ? ? ? ? ?];
    cbn [StatsModel.isLocalStats StatsModel.getDisplayName StatsModel.setDisplayName
         StatsModel.setFacialExpressions].
  - destruct (_enableFacialRecognition props);
      cbn [StatsModel.isLocalStats StatsModel.getDisplayName StatsModel.setDisplayName
           StatsModel.setFacialExpressions];
      destruct (truthy (Some (localLabel props))) eqn:Hname;
      cbn [negb StatsModel.isLocalStats StatsModel.getDisplayName StatsModel.setDisplayName
           StatsModel.setFacialExpressions];
      rewrite ?Hname; cbn [negb StatsModel.setDisplayName StatsModel.isLocalStats
           StatsModel.getDisplayName StatsModel.setFacialExpressions]; done.
  - destruct (truthy n) eqn:Hname;
      cbn [negb StatsModel.isLocalStats StatsModel.getDisplayName StatsModel.setDisplayName];
      rewrite ?Hname; cbn [negb]; [done|].
    by destruct (truthy DEFAULT_REMOTE_DISPLAY_NAME).
Qed.

(** After [_getSpeakerStats], with a non-empty default remote display name,
    every speaker has a non-empty display name. The local speaker is labelled
    with the local display name followed by the translated "me" in
    parentheses, or with the translated "me" alone when there is no local
    display name, and falls back to the default when that is empty too. *)
Theorem speaker_stats_are_named (props : Props) (userId : string) (m : StatsModel.t) :
  let me := t props "me" in
  truthy DEFAULT_REMOTE_DISPLAY_NAME = true ->
  _getSpeakerStats DEFAULT_REMOTE_DISPLAY_NAME props !! userId = Some (Some m) ->
  truthy (StatsModel.getDisplayName m) = true
  /\ (StatsModel.isLocalStats m = true ->
        StatsModel.getDisplayName m
        = match _localDisplayName props with
          | Some name =>
              if bool_decide (name = "")
              then (if bool_decide (me = "") then DEFAULT_REMOTE_DISPLAY_NAME else Some me)
              else Some (name +:+ " (" +:+ me +:+ ")")
          | None => if bool_decide (me = "") then DEFAULT_REMOTE_DISPLAY_NAME else Some me
          end).
Proof.
  intros me Hd Hm. rewrite getSpeakerStats_lookup in Hm.
  destruct (conference_getSpeakerStats props !! userId) as [[m0|]|]; try done.
  cbn in Hm. injection Hm as <-. split; [by apply updateStatsModel_named|].
  destruct (updateStatsModel_flags props m0) as (Hl & _). rewrite Hl. intros Hlocal.
  rewrite (updateStatsModel_local props m0 Hlocal). unfold localLabel. fold me. cbn zeta.
  destruct (_localDisplayName props) as [name|].
  - destruct (bool_decide (name = "")) eqn:Hname; [|by rewrite truthy_label].
    unfold truthy. by destruct (bool_decide (me = "")).
  - unfold truthy. by destruct (bool_decide (me = "")).
Qed.

Lemma updateStatsModel_facial props m :
  StatsModel.getFacialExpressions (updateStatsModel DEFAULT_REMOTE_DISPLAY_NAME props m)
  = (if StatsModel.isLocalStats m && _enableFacialRecognition props
     then _localFacialExpressions props else StatsModel.getFacialExpressions m).
Proof.
  unfold updateStatsModel.
  destruct m as [n [] ? ? ? ? ?]; cbn; destruct (_enableFacialRecognition props); cbn;
    by case_ifs.
Qed.

Lemma updateStatsModel_remote props m :
  StatsModel.isLocalStats m = false ->
  updateStatsModel DEFAULT_REMOTE_DISPLAY_NAME props m
  = (if truthy (StatsModel.getDisplayName m) then m
     else StatsModel.setDisplayName DEFAULT_REMOTE_DISPLAY_NAME m).
Proof.
  intros Hl. unfold updateStatsModel. rewrite Hl.
  by destruct (truthy (StatsModel.getDisplayName m)).
Qed.

(** [_getSpeakerStats] keeps the user ids and the ids without stats. Of a
    stats object it changes nothing but the display name and, for the local
    speaker with facial recognition enabled, the facial expressions, which
    become the local ones: a remote speaker that has a name is left as it is,
    and one without a name is the same object with the default name. Polling
    again, when the conference hands out the objects the previous poll changed,
    yields the same stats: the "(me)" label does not pile up. *)
Theorem speaker_stats_polling_is_stable (props : Props) :
  _getSpeakerStats DEFAULT_REMOTE_DISPLAY_NAME (polled DEFAULT_REMOTE_DISPLAY_NAME props)
  = _getSpeakerStats DEFAULT_REMOTE_DISPLAY_NAME props
  /\ dom (_getSpeakerStats DEFAULT_REMOTE_DISPLAY_NAME props) = dom (conference_getSpeakerStats props)
  /\ (forall userId, _getSpeakerStats DEFAULT_REMOTE_DISPLAY_NAME props !! userId = Some None
                     <-> conference_getSpeakerStats props !! userId = Some None)
  /\ (forall userId m, _getSpeakerStats DEFAULT_REMOTE_DISPLAY_NAME props !! userId = Some (Some m) ->
        exists m0, conference_getSpeakerStats props !! userId = Some (Some m0)
                   /\ StatsModel.isLocalStats m = StatsModel.isLocalStats m0
                   /\ StatsModel.hidden m = StatsModel.hidden m0
                   /\ StatsModel.isDominantSpeaker m = StatsModel.isDominantSpeaker m0
                   /\ StatsModel.getTotalDominantSpeakerTime m
                      = StatsModel.getTotalDominantSpeakerTime m0
                   /\ StatsModel.hasLeft m = StatsModel.hasLeft m0
                   /\ StatsModel.getFacialExpressions m
                      = (if StatsModel.isLocalStats m0 && _enableFacialRecognition props
                         then _localFacialExpressions props
                         else StatsModel.getFacialExpressions m0)
                   /\ (StatsModel.isLocalStats m0 = false ->
                         m = (if truthy (StatsModel.getDisplayName m0) then m0
                              else StatsModel.setDisplayName DEFAULT_REMOTE_DISPLAY_NAME m0)))
  /\ (forall userId m0, conference_getSpeakerStats props !! userId = Some (Some m0) ->
        StatsModel.isLocalStats m0 = false ->
        truthy (StatsModel.getDisplayName m0) = true ->
        _getSpeakerStats DEFAULT_REMOTE_DISPLAY_NAME props !! userId = Some (Some m0)).
Proof.
  split_and!.
  - apply map_eq. intros userId. rewrite !getSpeakerStats_lookup. cbn [conference_getSpeakerStats polled].
    rewrite getSpeakerStats_lookup.
    destruct (conference_getSpeakerStats props !! userId) as [[m0|]|]; cbn; try done.
    do 2 f_equal. by apply updateStatsModel_idem.
  - unfold _getSpeakerStats. apply dom_fmap_L.
  - intros userId. rewrite getSpeakerStats_lookup.
    destruct (conference_getSpeakerStats props !! userId) as [[m0|]|]; cbn; split; done.
  - intros userId m Hm. rewrite getSpeakerStats_lookup in Hm.
    destruct (conference_getSpeakerStats props !! userId) as [[m0|]|]; try done.
    cbn in Hm. injection Hm as <-. exists m0. split; [done|].
    destruct (updateStatsModel_flags props m0) as (? & ? & ? & ? & ?).
    split_and!; try done.
    + apply updateStatsModel_facial.
    + apply updateStatsModel_remote.
  - intros userId m0 Hm Hl Hn. rewrite getSpeakerStats_lookup, Hm. cbn. do 2 f_equal.
    rewrite updateStatsModel_remote by done. by rewrite Hn.
Qed.

End SpeakerStatsProofs.

Section SpeakerStatsRender.
Import SpeakerStats.

Lemma createStatsItem_key props userId item :
  _createStatsItem props userId = Some item -> key item = userId.
Proof.
  unfold _createStatsItem. destruct (_stats props !! userId) as [[m|]|]; try done.
  destruct (StatsModel.hidden m); [done|]. by intros [= <-].
Qed.

(** The dialog has one slot per user id of the stats. A user gets a row
    exactly when it has stats that are not hidden; the row shows that user's
    display name, speaking time and flags, and carries the facial expressions
    exactly when facial recognition is enabled, which also makes the dialog
    large. No two rows share a key. *)
Theorem speaker_stats_rows (props : Props) :
  let dialog := render props in
  let rows := omap id (items dialog) in
  length (items dialog) = size (_stats props)
  /\ (width dialog = "large" <-> _enableFacialRecognition props = true)
  /\ (forall userId,
        (exists item, item ∈ rows /\ key item = userId)
        <-> exists m, _stats props !! userId = Some (Some m) /\ StatsModel.hidden m = false)
  /\ (forall item, item ∈ rows ->
        exists m, _stats props !! key item = Some (Some m)
          /\ displayName item = StatsModel.getDisplayName m
          /\ dominantSpeakerTime item = StatsModel.getTotalDominantSpeakerTime m
          /\ itemHasLeft item = StatsModel.hasLeft m
          /\ itemIsDominantSpeaker item = StatsModel.isDominantSpeaker m
          /\ showFacialExpressions item = _enableFacialRecognition props
          /\ facialExpressions item
             = (if _enableFacialRecognition props
                then Some (StatsModel.getFacialExpressions m) else None))
  /\ NoDup (map key rows).
Proof.
  intros dialog rows. subst dialog rows. unfold render. cbn [items width].
  assert (Hrow : forall item,
    item ∈ omap id (map (_createStatsItem props) (map_to_list (_stats props)).*1)
    <-> exists userId, is_Some (_stats props !! userId) /\ _createStatsItem props userId = Some item).
  { intros item. rewrite list_elem_of_omap. split.
    - intros (o & Ho & Hid). cbn in Hid. subst o.
      apply list_elem_of_fmap in Ho as (userId & Hitem & Hin).
      exists userId. split; [|done].
      apply list_elem_of_fmap in Hin as ([k v] & -> & Hkv). cbn.
      apply elem_of_map_to_list in Hkv. by eexists.
    - intros (userId & [v Hv] & Hitem). exists (Some item). split; [|done].
      apply list_elem_of_fmap. exists userId. split; [done|].
      apply list_elem_of_fmap. exists (userId, v). split; [done|].
      by apply elem_of_map_to_list. }
  split_and!.
  - rewrite length_map, length_fmap. apply length_map_to_list.
  - by destruct (_enableFacialRecognition props).
  - intros userId. split.
    + intros (item & Hin & Hkey). apply Hrow in Hin as (u & _ & Hitem).
      assert (u = userId) as -> by (by rewrite <- (createStatsItem_key _ _ _ Hitem)).
      unfold _createStatsItem in Hitem.
      destruct (_stats props !! userId) as [[m|]|]; try done.
      exists m. split; [done|]. by destruct (StatsModel.hidden m).
    + intros (m & Hm & Hh).
      assert (Hitem : is_Some (_createStatsItem props userId)).
      { unfold _createStatsItem. rewrite Hm, Hh. by eexists. }
      destruct Hitem as [item Hitem]. exists item. split.
      * apply Hrow. exists userId. split; [by eexists|done].
      * by eapply createStatsItem_key.
  - intros item Hin. apply Hrow in Hin as (u & _ & Hitem).
    rewrite (createStatsItem_key _ _ _ Hitem).
    unfold _createStatsItem in Hitem.
    destruct (_stats props !! u) as [[m|]|]; try done.
    destruct (StatsModel.hidden m); [done|]. injection Hitem as <-. cbn.
    exists m. split_and!; done.
  - clear Hrow.
    assert (Hnd : NoDup (map_to_list (_stats props)).*1) by apply NoDup_fst_map_to_list.
    induction Hnd as [|u l Hu Hnd IH]; cbn; [constructor|].
    destruct (_createStatsItem props u) as [item|] eqn:Hitem; cbn; [|done].
    constructor; [|done].
    rewrite (createStatsItem_key _ _ _ Hitem).
    intros Hin. apply list_elem_of_fmap in Hin as (item' & Hk & Hin').
    apply list_elem_of_omap in Hin' as (o & Ho & Hid). cbn in Hid. subst o.
    apply list_elem_of_fmap in Ho as (u' & Hitem' & Hu').
    symmetry in Hitem'. apply createStatsItem_key in Hitem'. congruence.
Qed.

End SpeakerStatsRender.

Lemma speaker_stats_named_witness :
  StatsModel.getDisplayName
    (SpeakerStats.updateStatsModel (Some "Fellow Jitster") sampleSpeakerStats aliceStats)
  = Some "Alice (me)".
Proof.
  destruct (speaker_stats_are_named (Some "Fellow Jitster") sampleSpeakerStats "alice"
              (SpeakerStats.updateStatsModel (Some "Fellow Jitster") sampleSpeakerStats aliceStats)
              eq_refl eq_refl) as [_ Hl].
  exact (Hl eq_refl).
Defined.

(** ** The items of the lobby list *)

Section LobbyItem.
Import LobbyParticipantItem.

Lemma quickActions_testIds t showChat p :
  map testId (quickActions t showChat p)
  = ["reject-" +:+ Knocking.id p; "admit-" +:+ Knocking.id p]
    ++ (if showChat then ["lobby-chat-" +:+ Knocking.id p] else []).
Proof. unfold quickActions. by destruct showChat. Qed.

Lemma testId_owner t showChat p (s : string) :
  s ∈ map testId (quickActions t showChat p) ->
  s = "reject-" +:+ Knocking.id p \/ s = "admit-" +:+ Knocking.id p
  \/ s = "lobby-chat-" +:+ Knocking.id p.
Proof.
  rewrite quickActions_testIds. destruct showChat; cbn [app];
    repeat (rewrite elem_of_cons); rewrite elem_of_nil; tauto.
Qed.

(** Every item of the lobby list offers "reject" and then "admit", and "chat"
    after them exactly when the chat button is to be shown; the admit button
    is given the spacing class only when the chat button follows it. Across a
    list of participants with distinct ids no two buttons share a test id. *)
Theorem lobby_item_actions
    (t : string -> string) (showChat : Knocking.t -> bool) (participants : list Knocking.t) :
  NoDup (map Knocking.id participants) ->
  (forall p, map onClick (quickActions t (showChat p) p)
             = [Reject; Admit] ++ (if showChat p then [Chat] else []))
  /\ (forall p a, a ∈ quickActions t (showChat p) p -> onClick a = Admit ->
        className a = (if showChat p then Some "button" else None))
  /\ NoDup (map testId (flat_map (fun p => quickActions t (showChat p) p) participants)).
Proof.
  intros Hids. split_and!.
  - intros p. unfold quickActions. by destruct (showChat p).
  - intros p a Hin Ha. unfold quickActions in Hin. 
    destruct (showChat p); cbn [app] in Hin;
      repeat (apply elem_of_cons in Hin as [->|Hin]; [done|]); by apply elem_of_nil in Hin.
  - induction participants as [|p l IH]; cbn [flat_map map]; [constructor|].
    apply NoDup_cons in Hids as [Hp Hl].
    rewrite map_app. apply NoDup_app. split_and!.
    + rewrite quickActions_testIds. destruct (showChat p); cbn [app];
        repeat (apply NoDup_cons; split; [rewrite ?elem_of_cons, ?elem_of_nil; cbn; intros Hin;
          repeat (destruct Hin as [Hin|Hin]; [discriminate Hin|]); done|]);
        apply NoDup_nil_2.
    + intros s Hs Hin. apply testId_owner in Hs.
      apply list_elem_of_fmap in Hin as (a & -> & Ha).
      apply list_elem_of_In, in_flat_map in Ha as (q & Hq & Ha).
      apply list_elem_of_In in Hq, Ha.
      assert (Hown := testId_owner t (showChat q) q (testId a)
                        (proj2 (list_elem_of_fmap _ _ _) (ex_intro _ a (conj eq_refl Ha)))).
      assert (Hne : Knocking.id q <> Knocking.id p).
      { intros Heq. apply Hp. rewrite <- Heq. apply list_elem_of_fmap. by exists q. }
      destruct Hs as [Hs|[Hs|Hs]], Hown as [Ho|[Ho|Ho]]; rewrite Ho in Hs; cbn in Hs;
        try discriminate Hs; apply Hne; by simplify_eq.
    + by apply IH.
Qed.

End LobbyItem.

Lemma lobby_item_witness :
  map LobbyParticipantItem.testId
    (flat_map (fun p => LobbyParticipantItem.quickActions (fun key => key)
                          (bool_decide (Knocking.chattingWithModerator p = None)) p) [dave; erin])
  = ["reject-dave"; "admit-dave"; "lobby-chat-dave"; "reject-erin"; "admit-erin"]
  /\ NoDup (map LobbyParticipantItem.testId
              (flat_map (fun p => LobbyParticipantItem.quickActions (fun key => key)
                          (bool_decide (Knocking.chattingWithModerator p = None)) p) [dave; erin])).
Proof.
  split; [reflexivity|].
  apply (lobby_item_actions (fun key => key)
           (fun p => bool_decide (Knocking.chattingWithModerator p = None)) [dave; erin]).
  cbn. repeat (apply NoDup_cons; split; [rewrite ?elem_of_cons, ?elem_of_nil; intros Hin;
    repeat (destruct Hin as [Hin|Hin]; [discriminate Hin|]); done|]). apply NoDup_nil_2.
Defined.
